(** * AlienP0ker: the strategy and economy engine

    A shallow embedding of the deterministic core of the repository:

    - [src/engine/payoutStrategies.ts]  tube payout formulas and the clamp,
    - [src/engine/htRegistry.ts]        the Hold-Type rule registry,
    - [src/engine/houseLedger.ts]       the house ledger,
    - [src/engine/gameOrchestrator.ts]  showdown resolution,
    - [src/ai/balancingEngine.ts]       score, recommendations, mitigation.

    Conventions of the embedding.

    - A TypeScript [number] is an exact rational ([Q]).  [NaN] and the
      infinities have no counterpart, so a division by zero is outside the
      model; [Math.floor], [Math.min], [Math.max] and [Math.abs] are
      [Qfloor], [Qmin], [Qmax] and [Qabs].
    - Where a property turns on rounding (the thresholds and the floor
      of the balancing engine's adjustment step and of its optimality
      test), the functions are embedded a second time over IEEE-754
      binary64 numbers, in module [Double], operation by operation in the
      order in which the code evaluates them.
    - A function that may raise returns [Exc]; [Throw msg] is
      [throw new Error(msg)].
    - A JavaScript [Map] is an association list in insertion order
      ([Map.set] on a present key replaces the value in place).
    - Objects mutated in place (the registry, the round, a participant)
      are passed and returned explicitly. *)

From Stdlib Require Import QArith Qround Qabs Qminmax ZArith List String Bool Lia Lqa.
From Stdlib Require Import Sorted Permutation.
From Stdlib Require Floats.
Import ListNotations.
Open Scope string_scope.
Open Scope list_scope.
Open Scope Q_scope.

Set Implicit Arguments.
Set Warnings "-inexact-float".

(** ** Numbers *)

Definition number := Q.

(** [a > b], [a < b], [a <= b] on numbers, as booleans. *)
Definition gtb (a b : number) : bool := negb (Qle_bool a b).
Definition ltb (a b : number) : bool := negb (Qle_bool b a).
Definition leb (a b : number) : bool := Qle_bool a b.

Definition Math_floor (x : number) : number := inject_Z (Qfloor x).
Definition Math_min (a b : number) : number := Qmin a b.
Definition Math_max (a b : number) : number := Qmax a b.
Definition Math_abs (x : number) : number := Qabs x.

(** ** Exceptions *)

Inductive Exc (A : Type) : Type :=
| Ok (a : A)
| Throw (msg : string).

Arguments Ok {A} a.
Arguments Throw {A} msg.

Definition bind {A B : Type} (m : Exc A) (k : A -> Exc B) : Exc B :=
  match m with
  | Ok a => k a
  | Throw msg => Throw msg
  end.

Notation "x <- m ;; k" := (bind m (fun x => k))
  (at level 61, m at next level, right associativity).

(** ** Payout strategies ([payoutStrategies.ts]) *)

Inductive PayoutStrategyType : Type :=
| fixed | percentage | logarithmic | progressive.

(** The argument of [PayoutStrategy.calculate]. *)
Record TubeArg : Type := mkTubeArg {
  current : number;
  initial : number;
  max : number
}.

(** [calculate] is a callback: it may raise, which [Exc] keeps visible. *)
Record PayoutStrategy : Type := mkPayoutStrategy {
  type : PayoutStrategyType;
  calculate : TubeArg -> Exc number
}.

Definition fixedStrategy : PayoutStrategy :=
  {| type := fixed;
     calculate := fun tube => Ok (initial tube) |}.

Definition createPercentageStrategy (percent : number) : PayoutStrategy :=
  {| type := percentage;
     calculate := fun tube => Ok (Math_floor (current tube * percent)) |}.

Section Logarithm.

(** [Math.log] is not rational; it is a parameter of the two
    definitions that reach it. *)
Variable Math_log : number -> number.

Definition createLogarithmicStrategy (base : number) : PayoutStrategy :=
  {| type := logarithmic;
     calculate := fun tube =>
       if leb (current tube) 0 then Ok 0
       else Ok (Math_floor (base + Math_log (current tube + 1) * 2)) |}.

(** [fillRatio] divides by [tube.max]; the model is the source's for
    [max <> 0]. *)
Definition createProgressiveStrategy (threshold : number) : PayoutStrategy :=
  {| type := progressive;
     calculate := fun tube =>
       let fillRatio := current tube / max tube in
       let multiplier :=
         if gtb fillRatio threshold then 1 + (fillRatio - threshold) * 2 else 1 in
       Ok (Math_floor (initial tube * multiplier)) |}.

Definition getPayoutStrategy (t : PayoutStrategyType) : PayoutStrategy :=
  match t with
  | fixed => fixedStrategy
  | percentage => createPercentageStrategy 0.25
  | logarithmic => createLogarithmicStrategy 2
  | progressive => createProgressiveStrategy 0.5
  end.

End Logarithm.

Record TubePayoutResult : Type := mkTubePayoutResult {
  payout : number;
  newBalance : number;
  wasEmpty : bool;
  triggersBust : bool
}.

Definition calculateTubePayout (tubeType : string)
    (currentBalance initialBalance maxBalance : number)
    (strategy : PayoutStrategy) : Exc TubePayoutResult :=
  if leb currentBalance 0 then
    Ok {| payout := 0; newBalance := 0; wasEmpty := true; triggersBust := true |}
  else
    payout <- calculate strategy
                {| current := currentBalance;
                   initial := initialBalance;
                   max := maxBalance |} ;;
    let actualPayout := Math_min payout currentBalance in
    let newBalance := currentBalance - actualPayout in
    Ok {| payout := actualPayout; newBalance := newBalance;
          wasEmpty := false; triggersBust := false |}.

(** ** JavaScript containers *)

Section JsMap.

Variable V : Type.

(** [Map<string, V>]: keys are unique and keep their insertion order. *)
Definition Map := list (string * V).

Fixpoint Map_get (k : string) (m : Map) : option V :=
  match m with
  | [] => None
  | (k', v) :: m' => if String.eqb k' k then Some v else Map_get k m'
  end.

Fixpoint Map_set (k : string) (v : V) (m : Map) : Map :=
  match m with
  | [] => [(k, v)]
  | (k', v') :: m' =>
      if String.eqb k' k then (k', v) :: m' else (k', v') :: Map_set k v m'
  end.

Fixpoint Map_delete (k : string) (m : Map) : Map :=
  match m with
  | [] => []
  | (k', v') :: m' =>
      if String.eqb k' k then m' else (k', v') :: Map_delete k m'
  end.

Definition Map_values (m : Map) : list V := List.map snd m.
Definition Map_keys (m : Map) : list string := List.map fst m.

End JsMap.

Section JsSort.

Variable A : Type.
(** The comparator of [Array.prototype.sort]: negative puts its first
    argument first, positive its second, zero keeps the order (the sort
    is stable). *)
Variable compareFn : A -> A -> number.

Fixpoint sort_insert (x : A) (ys : list A) : list A :=
  match ys with
  | [] => [x]
  | y :: ys' =>
      if leb (compareFn x y) 0 then x :: y :: ys' else y :: sort_insert x ys'
  end.

Definition Array_sort (l : list A) : list A := fold_right sort_insert [] l.

End JsSort.

(** ** Cards and the hand classifier ([utils/deck], [utils/handEvaluator]) *)

(** Modelled from the spec: the card type of [utils/deck] is not part of
    the sources at hand.  Section 1 fixes a standard 52-card deck with no
    wild cards; the rule matchers read [card.rank] and compare it with
    ['A'] and ['K'], the table component reads [card.suit]. *)
Inductive Rank : Type :=
| R2 | R3 | R4 | R5 | R6 | R7 | R8 | R9 | R10 | RJ | RQ | RK | RA.

Inductive Suit : Type := hearts | diamonds | clubs | spades.

Record Card : Type := mkCard { rank : Rank; suit : Suit }.

Definition Rank_eqb (a b : Rank) : bool :=
  match a, b with
  | R2, R2 | R3, R3 | R4, R4 | R5, R5 | R6, R6 | R7, R7 | R8, R8
  | R9, R9 | R10, R10 | RJ, RJ | RQ, RQ | RK, RK | RA, RA => true
  | _, _ => false
  end.

(** The rank as an object key: the numerals are integer keys, which
    [Object.values] lists first and in ascending order; the faces are
    string keys, listed after them in insertion order. *)
Definition integerKey (r : Rank) : option nat :=
  match r with
  | R2 => Some 2%nat | R3 => Some 3%nat | R4 => Some 4%nat
  | R5 => Some 5%nat | R6 => Some 6%nat | R7 => Some 7%nat
  | R8 => Some 8%nat | R9 => Some 9%nat | R10 => Some 10%nat
  | RJ | RQ | RK | RA => None
  end.

(** Modelled from the spec: the ten hand categories of section 6. *)
Inductive HandRank : Type :=
| high_card | pair | two_pair | three_of_a_kind | straight | flush
| full_house | four_of_a_kind | straight_flush | royal_flush.

Definition HandRank_eqb (a b : HandRank) : bool :=
  match a, b with
  | high_card, high_card | pair, pair | two_pair, two_pair
  | three_of_a_kind, three_of_a_kind | straight, straight | flush, flush
  | full_house, full_house | four_of_a_kind, four_of_a_kind
  | straight_flush, straight_flush | royal_flush, royal_flush => true
  | _, _ => false
  end.

Record HandResult : Type := mkHandResult {
  hand_rank : HandRank;       (* [result.rank] *)
  hand_name : string          (* [result.name] *)
}.

(** The draw predicates return their hold positions in an optional
    field; [None] is a field left [undefined]. *)
Record FlushDraw : Type := mkFlushDraw {
  hasFlushDraw : bool;
  flush_cardsToHold : option (list nat)
}.

Record StraightDraw : Type := mkStraightDraw {
  hasStraightDraw : bool;
  straight_cardsToHold : option (list nat)
}.

(** Modelled from the spec: the hand classifier and the comparator of
    section 6, consumed by the engine and implemented outside it.  They
    are total on every hand. *)
Class HandEvaluator : Type := {
  evaluateHand : list Card -> HandResult;
  has4CardFlushDraw : list Card -> FlushDraw;
  has4CardStraightDraw : list Card -> StraightDraw;
  compareHands : HandResult -> HandResult -> number
}.

(** ** The Hold-Type registry ([htRegistry.ts]) *)

Inductive HTCategory : Type := H5 | H4 | H3 | H2 | H1 | H0.

(** What a matcher returns: [NoMatch] is [null]; [Hold h] is anything
    else, [h = None] being the [undefined] that the unchecked
    [cardsToHold!] of a draw rule lets through. *)
Inductive MatchResult : Type :=
| NoMatch
| Hold (cardsToHold : option (list nat)).

Record HTRule : Type := mkHTRule {
  id : string;
  priority : number;
  category : HTCategory;
  description : string;
  bustPotential : bool;
  theoreticalEV : number;
  enabled : bool;
  matcher : list Card -> HandResult -> MatchResult
}.

Record HTDecision : Type := mkHTDecision {
  htId : string;
  decision_category : HTCategory;
  decision_description : string;
  cardsToHold : option (list nat);
  expectedValue : number;
  decision_bustPotential : bool
}.

Record HTStats : Type := mkHTStats {
  usageCount : number;
  winCount : number;
  lossCount : number;
  bustCount : number;
  totalWon : number;
  totalWagered : number;
  tubeHits : list (string * number);
  calculatedEV : number
}.

Inductive Outcome : Type := win | lose | bust | tie.

Record HTRegistryClass : Type := mkHTRegistry {
  rules : Map HTRule;
  stats : Map HTStats
}.

Definition createEmptyStats : HTStats :=
  {| usageCount := 0; winCount := 0; lossCount := 0; bustCount := 0;
     totalWon := 0; totalWagered := 0;
     tubeHits := [("ST", 0); ("FL", 0); ("FH", 0); ("SF", 0); ("RF", 0)];
     calculatedEV := 0 |}.

Definition register (rule : HTRule) (this : HTRegistryClass) : HTRegistryClass :=
  {| rules := Map_set (id rule) rule (rules this);
     stats := Map_set (id rule) createEmptyStats (stats this) |}.

Definition unregister (htId : string) (this : HTRegistryClass)
  : HTRegistryClass * bool :=
  ({| rules := Map_delete htId (rules this);
      stats := Map_delete htId (stats this) |}, true).

Definition set_enabled (rule : HTRule) (e : bool) : HTRule :=
  {| id := id rule; priority := priority rule; category := category rule;
     description := description rule; bustPotential := bustPotential rule;
     theoreticalEV := theoreticalEV rule; enabled := e;
     matcher := matcher rule |}.

Definition setEnabled (htId : string) (e : bool) (this : HTRegistryClass)
  : HTRegistryClass :=
  match Map_get htId (rules this) with
  | Some rule =>
      {| rules := Map_set htId (set_enabled rule e) (rules this);
         stats := stats this |}
  | None => this
  end.

Definition getAllRules (this : HTRegistryClass) : list HTRule :=
  Array_sort (fun a b => priority b - priority a)
    (filter enabled (Map_values (rules this))).

Definition getRule (htId : string) (this : HTRegistryClass) : option HTRule :=
  Map_get htId (rules this).

(** The [for (const rule of rules)] loop of [decide]: the decision of the
    first rule whose matcher does not return [null]. *)
Fixpoint firstMatch (rs : list HTRule) (cards : list Card)
    (handResult : HandResult) : option HTDecision :=
  match rs with
  | [] => None
  | rule :: rs' =>
      match matcher rule cards handResult with
      | Hold held =>
          Some {| htId := id rule;
                  decision_category := category rule;
                  decision_description := description rule;
                  cardsToHold := held;
                  expectedValue := theoreticalEV rule;
                  decision_bustPotential := bustPotential rule |}
      | NoMatch => firstMatch rs' cards handResult
      end
  end.

(** The decision built after the loop, when no enabled rule matched. *)
Definition fallbackDecision : HTDecision :=
  {| htId := "H0.DRAW5";
     decision_category := H0;
     decision_description := "Draw all 5";
     cardsToHold := Some [];
     expectedValue := 0.5;
     decision_bustPotential := true |}.

Definition decide `{HandEvaluator} (cards : list Card) (this : HTRegistryClass)
  : Exc HTDecision :=
  if negb (Nat.eqb (List.length cards) 5) then
    Throw "HT decision requires exactly 5 cards"
  else
    let handResult := evaluateHand cards in
    let rules := getAllRules this in
    match firstMatch rules cards handResult with
    | Some decision => Ok decision
    | None => Ok fallbackDecision
    end.

(** [stats.tubeHits[tubeType]++] when the key is present. *)
Definition bumpTubeHit (tubeType : option string) (hits : list (string * number))
  : list (string * number) :=
  match tubeType with
  | None => hits
  | Some t =>
      if String.eqb t "" then hits
      else match Map_get t hits with
           | Some n => Map_set t (n + 1) hits
           | None => hits
           end
  end.

Definition recordOutcome (htId : string) (outcome : Outcome)
    (wagered won : number) (tubeType : option string)
    (this : HTRegistryClass) : HTRegistryClass :=
  match Map_get htId (stats this) with
  | None => this
  | Some s =>
      let usageCount' := usageCount s + 1 in
      let totalWagered' := totalWagered s + wagered in
      let totalWon' := totalWon s + won in
      let winCount' := match outcome with win => winCount s + 1 | _ => winCount s end in
      let lossCount' := match outcome with lose => lossCount s + 1 | _ => lossCount s end in
      let bustCount' := match outcome with bust => bustCount s + 1 | _ => bustCount s end in
      let tubeHits' := bumpTubeHit tubeType (tubeHits s) in
      let calculatedEV' :=
        if gtb totalWagered' 0 then (totalWon' - totalWagered') / totalWagered'
        else calculatedEV s in
      {| rules := rules this;
         stats := Map_set htId
                    {| usageCount := usageCount'; winCount := winCount';
                       lossCount := lossCount'; bustCount := bustCount';
                       totalWon := totalWon'; totalWagered := totalWagered';
                       tubeHits := tubeHits'; calculatedEV := calculatedEV' |}
                    (stats this) |}
  end.

Definition getStats (htId : string) (this : HTRegistryClass) : option HTStats :=
  Map_get htId (stats this).

Definition resetStats (this : HTRegistryClass) : HTRegistryClass :=
  {| rules := rules this;
     stats := List.map (fun kv => (fst kv, createEmptyStats)) (stats this) |}.

Record Exploit : Type := mkExploit { exploit_htId : string; ev : number }.

Definition getExploitableHTs (threshold : number) (this : HTRegistryClass)
  : list Exploit :=
  Array_sort (fun a b => ev b - ev a)
    (List.map (fun kv => {| exploit_htId := fst kv; ev := calculatedEV (snd kv) |})
       (filter (fun kv => gtb (usageCount (snd kv)) 100
                          && gtb (calculatedEV (snd kv)) threshold)
          (stats this))).

(** *** Grouping the positions of a hand by rank *)

(** [groups[card.rank].push(i)], creating the entry when it is absent. *)
Fixpoint group_push (r : Rank) (i : nat) (groups : list (Rank * list nat))
  : list (Rank * list nat) :=
  match groups with
  | [] => [(r, [i])]
  | (r', positions) :: groups' =>
      if Rank_eqb r' r then (r', positions ++ [i]) :: groups'
      else (r', positions) :: group_push r i groups'
  end.

Fixpoint groupByRank (i : nat) (cards : list Card)
    (groups : list (Rank * list nat)) : list (Rank * list nat) :=
  match cards with
  | [] => groups
  | card :: cards' => groupByRank (S i) cards' (group_push (rank card) i groups)
  end.

Fixpoint insert_integer (k : nat) (v : list nat) (l : list (nat * list nat))
  : list (nat * list nat) :=
  match l with
  | [] => [(k, v)]
  | (k', v') :: l' =>
      if Nat.leb k k' then (k, v) :: (k', v') :: l'
      else (k', v') :: insert_integer k v l'
  end.

Fixpoint integer_entries (groups : list (Rank * list nat)) : list (nat * list nat) :=
  match groups with
  | [] => []
  | (r, v) :: groups' =>
      match integerKey r with
      | Some k => insert_integer k v (integer_entries groups')
      | None => integer_entries groups'
      end
  end.

Fixpoint string_entries (groups : list (Rank * list nat)) : list (list nat) :=
  match groups with
  | [] => []
  | (r, v) :: groups' =>
      match integerKey r with
      | Some _ => string_entries groups'
      | None => v :: string_entries groups'
      end
  end.

Definition Object_values (groups : list (Rank * list nat)) : list (list nat) :=
  List.map snd (integer_entries groups) ++ string_entries groups.

Definition findNOfAKind (cards : list Card) (n : nat) : option (list nat) :=
  find (fun indices => Nat.eqb (List.length indices) n)
    (Object_values (groupByRank 0 cards [])).

Definition findTwoPairs (cards : list Card) : option (list nat) :=
  match filter (fun g => Nat.eqb (List.length g) 2)
          (Object_values (groupByRank 0 cards [])) with
  | p0 :: p1 :: _ => Some (p0 ++ p1)
  | _ => None
  end.

(** The loop of the [H1.HC] matcher. *)
Fixpoint firstAceOrKing (i : nat) (cards : list Card) : option (list nat) :=
  match cards with
  | [] => None
  | card :: cards' =>
      match rank card with
      | RA | RK => Some [i]
      | _ => firstAceOrKing (S i) cards'
      end
  end.

Definition holdOrNull (r : option (list nat)) : MatchResult :=
  match r with
  | Some positions => Hold (Some positions)
  | None => NoMatch
  end.

Definition holdAllOn (r : HandRank) : list Card -> HandResult -> MatchResult :=
  fun _ result =>
    if HandRank_eqb (hand_rank result) r
    then Hold (Some [0; 1; 2; 3; 4]%nat) else NoMatch.

Section DefaultRules.

Context `{HandEvaluator}.

Definition rule_H5_RF : HTRule :=
  {| id := "H5.RF"; priority := 100; category := H5;
     description := "Royal Flush - Hold all";
     bustPotential := false; theoreticalEV := 25.0; enabled := true;
     matcher := holdAllOn royal_flush |}.

Definition rule_H5_SF : HTRule :=
  {| id := "H5.SF"; priority := 99; category := H5;
     description := "Straight Flush - Hold all";
     bustPotential := false; theoreticalEV := 20.0; enabled := true;
     matcher := holdAllOn straight_flush |}.

Definition rule_H5_4K : HTRule :=
  {| id := "H5.4K"; priority := 98; category := H5;
     description := "Four of a Kind - Hold all";
     bustPotential := false; theoreticalEV := 15.0; enabled := true;
     matcher := holdAllOn four_of_a_kind |}.

Definition rule_H5_FH : HTRule :=
  {| id := "H5.FH"; priority := 97; category := H5;
     description := "Full House - Hold all";
     bustPotential := false; theoreticalEV := 15.0; enabled := true;
     matcher := holdAllOn full_house |}.

Definition rule_H5_FL : HTRule :=
  {| id := "H5.FL"; priority := 96; category := H5;
     description := "Flush - Hold all";
     bustPotential := false; theoreticalEV := 10.0; enabled := true;
     matcher := holdAllOn flush |}.

Definition rule_H5_ST : HTRule :=
  {| id := "H5.ST"; priority := 95; category := H5;
     description := "Straight - Hold all";
     bustPotential := false; theoreticalEV := 5.0; enabled := true;
     matcher := holdAllOn straight |}.

Definition rule_H4_4FL : HTRule :=
  {| id := "H4.4FL"; priority := 85; category := H4;
     description := "4-card Flush draw";
     bustPotential := true; theoreticalEV := 5.5; enabled := true;
     matcher := fun cards _ =>
       let flushDraw := has4CardFlushDraw cards in
       if hasFlushDraw flushDraw then Hold (flush_cardsToHold flushDraw)
       else NoMatch |}.

Definition rule_H4_4ST : HTRule :=
  {| id := "H4.4ST"; priority := 80; category := H4;
     description := "4-card Straight draw";
     bustPotential := true; theoreticalEV := 4.0; enabled := true;
     matcher := fun cards _ =>
       let straightDraw := has4CardStraightDraw cards in
       if hasStraightDraw straightDraw
       then Hold (straight_cardsToHold straightDraw)
       else NoMatch |}.

Definition rule_H3_3K : HTRule :=
  {| id := "H3.3K"; priority := 75; category := H3;
     description := "Three of a Kind - Hold trips";
     bustPotential := false; theoreticalEV := 6.0; enabled := true;
     matcher := fun cards result =>
       if negb (HandRank_eqb (hand_rank result) three_of_a_kind) then NoMatch
       else holdOrNull (findNOfAKind cards 3) |}.

Definition rule_H2_2P : HTRule :=
  {| id := "H2.2P"; priority := 70; category := H2;
     description := "Two Pair - Hold both pairs";
     bustPotential := false; theoreticalEV := 4.5; enabled := true;
     matcher := fun cards result =>
       if negb (HandRank_eqb (hand_rank result) two_pair) then NoMatch
       else holdOrNull (findTwoPairs cards) |}.

Definition rule_H2_1P : HTRule :=
  {| id := "H2.1P"; priority := 65; category := H2;
     description := "One Pair - Hold pair";
     bustPotential := false; theoreticalEV := 2.5; enabled := true;
     matcher := fun cards result =>
       if negb (HandRank_eqb (hand_rank result) pair) then NoMatch
       else holdOrNull (findNOfAKind cards 2) |}.

Definition rule_H1_HC : HTRule :=
  {| id := "H1.HC"; priority := 50; category := H1;
     description := "Hold highest card (A or K)";
     bustPotential := true; theoreticalEV := 1.0; enabled := true;
     matcher := fun cards result =>
       if negb (HandRank_eqb (hand_rank result) high_card) then NoMatch
       else holdOrNull (firstAceOrKing 0 cards) |}.

Definition rule_H0_DRAW5 : HTRule :=
  {| id := "H0.DRAW5"; priority := 0; category := H0;
     description := "Draw all 5 - no holdings";
     bustPotential := true; theoreticalEV := 0.5; enabled := true;
     matcher := fun _ _ => Hold (Some []) |}.

Definition defaultRules : list HTRule :=
  [ rule_H5_RF; rule_H5_SF; rule_H5_4K; rule_H5_FH; rule_H5_FL; rule_H5_ST;
    rule_H4_4FL; rule_H4_4ST; rule_H3_3K; rule_H2_2P; rule_H2_1P;
    rule_H1_HC; rule_H0_DRAW5 ].

Definition registerDefaultRules (this : HTRegistryClass) : HTRegistryClass :=
  fold_left (fun reg rule => register rule reg) defaultRules this.

(** [new HTRegistryClass()], the value of the singleton [HTRegistry]. *)
Definition HTRegistry : HTRegistryClass :=
  registerDefaultRules {| rules := []; stats := [] |}.

End DefaultRules.

(** ** Engine types ([types.ts]) *)

(** [keyof TubeBalances]. *)
Inductive TubeKey : Type := ST | FL | FH | SF | RF.

Definition tubeName (k : TubeKey) : string :=
  match k with
  | ST => "ST" | FL => "FL" | FH => "FH" | SF => "SF" | RF => "RF"
  end.

(** An object with exactly the five tube keys. *)
Record PerTube (A : Type) : Type := mkPerTube {
  atST : A; atFL : A; atFH : A; atSF : A; atRF : A
}.

Definition tubeAt {A : Type} (k : TubeKey) (t : PerTube A) : A :=
  match k with
  | ST => atST t | FL => atFL t | FH => atFH t | SF => atSF t | RF => atRF t
  end.

Definition tubeSet {A : Type} (k : TubeKey) (v : A) (t : PerTube A) : PerTube A :=
  match k with
  | ST => {| atST := v; atFL := atFL t; atFH := atFH t; atSF := atSF t; atRF := atRF t |}
  | FL => {| atST := atST t; atFL := v; atFH := atFH t; atSF := atSF t; atRF := atRF t |}
  | FH => {| atST := atST t; atFL := atFL t; atFH := v; atSF := atSF t; atRF := atRF t |}
  | SF => {| atST := atST t; atFL := atFL t; atFH := atFH t; atSF := v; atRF := atRF t |}
  | RF => {| atST := atST t; atFL := atFL t; atFH := atFH t; atSF := atSF t; atRF := v |}
  end.

Definition tubeKeys : list TubeKey := [ST; FL; FH; SF; RF].

Definition tubeValues {A : Type} (t : PerTube A) : list A :=
  List.map (fun k => tubeAt k t) tubeKeys.

Record TubeSpec : Type := mkTubeSpec { tube_initial : number; tube_max : number }.

Definition TubeConfig := PerTube TubeSpec.
Definition TubeBalances := PerTube number.

Record EngineConfig : Type := mkEngineConfig {
  playerCount : number;
  ante : number;
  dealerDrawAllowed : bool;
  dealerBustAllowed : bool;
  dealerWinsOnTie : bool;
  dealerAggression : number;
  bustPenaltyMultiplier : number;
  tubes : TubeConfig;
  payoutStrategy : PayoutStrategyType;
  playerRefillsOnWin : bool;
  houseRefillsOnEmpty : bool;
  refillAmount : number;
  autoRefillThreshold : number;
  bonusPayoutThreshold : number
}.

Definition DEFAULT_ENGINE_CONFIG : EngineConfig :=
  {| playerCount := 4;
     ante := 5;
     dealerDrawAllowed := true;
     dealerBustAllowed := true;
     dealerWinsOnTie := false;
     dealerAggression := 0.5;
     bustPenaltyMultiplier := 1.0;
     tubes := {| atST := {| tube_initial := 5; tube_max := 10 |};
                 atFL := {| tube_initial := 10; tube_max := 20 |};
                 atFH := {| tube_initial := 15; tube_max := 30 |};
                 atSF := {| tube_initial := 20; tube_max := 40 |};
                 atRF := {| tube_initial := 25; tube_max := 50 |} |};
     payoutStrategy := fixed;
     playerRefillsOnWin := true;
     houseRefillsOnEmpty := true;
     refillAmount := 1;
     autoRefillThreshold := 2;
     bonusPayoutThreshold := 40 |}.

Record Participant : Type := mkParticipant {
  participant_id : string;
  name : string;
  isDealer : bool;
  credits : number;
  seatPosition : number;
  currentHand : list Card;
  heldCardIndices : option (list nat);
  finalHand : list Card;
  handResult : option HandResult;
  htDecision : option HTDecision;
  isBusted : bool;
  isActive : bool
}.

Inductive RoundPhase : Type :=
| phase_waiting | phase_ante | phase_deal | phase_hold | phase_draw
| phase_evaluate | phase_showdown | phase_payout | phase_complete.

Record ParticipantOutcome : Type := mkParticipantOutcome {
  participantId : string;
  outcome : Outcome;
  handRank : HandRank;
  outcome_payout : number;
  tubePayout : number;
  bustPenalty : number
}.

Record TubePayoutRecord : Type := mkTubePayoutRecord {
  tubeType : TubeKey;
  tube_amount : number;
  tube_participantId : string;
  tube_timestamp : number
}.

Record BustPenaltyRecord : Type := mkBustPenaltyRecord {
  bust_participantId : string;
  bust_amount : number;
  reason : string;
  bust_timestamp : number
}.

Record RoundState : Type := mkRoundState {
  roundNumber : number;
  phase : RoundPhase;
  deck : list Card;
  cardsDealt : number;
  participants : list Participant;
  dealer : Participant;
  playPot : number;
  anteCollected : number;
  tubeBalances : TubeBalances;
  outcomes : list ParticipantOutcome;
  tubePayouts : list TubePayoutRecord;
  bustPenalties : list BustPenaltyRecord;
  stackTriggers : list TubeKey
}.

Record HouseLedger : Type := mkHouseLedger {
  totalAnteCollected : number;
  totalPayoutsGiven : number;
  totalBustPenaltiesCollected : number;
  totalTubePayouts : number;
  netProfit : number;
  roundsPlayed : number;
  anteHistory : list number;
  payoutHistory : list number;
  bustHistory : list number
}.

(** ** The house ledger ([houseLedger.ts]) *)

Definition createHouseLedger : HouseLedger :=
  {| totalAnteCollected := 0;
     totalPayoutsGiven := 0;
     totalBustPenaltiesCollected := 0;
     totalTubePayouts := 0;
     netProfit := 0;
     roundsPlayed := 0;
     anteHistory := [];
     payoutHistory := [];
     bustHistory := [] |}.

Definition updateNetProfit (ledger : HouseLedger) : HouseLedger :=
  {| totalAnteCollected := totalAnteCollected ledger;
     totalPayoutsGiven := totalPayoutsGiven ledger;
     totalBustPenaltiesCollected := totalBustPenaltiesCollected ledger;
     totalTubePayouts := totalTubePayouts ledger;
     netProfit := totalAnteCollected ledger + totalBustPenaltiesCollected ledger
                  - totalPayoutsGiven ledger;
     roundsPlayed := roundsPlayed ledger;
     anteHistory := anteHistory ledger;
     payoutHistory := payoutHistory ledger;
     bustHistory := bustHistory ledger |}.

Definition recordAnteCollection (ledger : HouseLedger) (amount : number)
  : HouseLedger :=
  let newLedger :=
    {| totalAnteCollected := totalAnteCollected ledger + amount;
       totalPayoutsGiven := totalPayoutsGiven ledger;
       totalBustPenaltiesCollected := totalBustPenaltiesCollected ledger;
       totalTubePayouts := totalTubePayouts ledger;
       netProfit := netProfit ledger;
       roundsPlayed := roundsPlayed ledger;
       anteHistory := anteHistory ledger ++ [amount];
       payoutHistory := payoutHistory ledger;
       bustHistory := bustHistory ledger |} in
  updateNetProfit newLedger.

Definition recordPayout (ledger : HouseLedger) (amount : number) : HouseLedger :=
  let newLedger :=
    {| totalAnteCollected := totalAnteCollected ledger;
       totalPayoutsGiven := totalPayoutsGiven ledger + amount;
       totalBustPenaltiesCollected := totalBustPenaltiesCollected ledger;
       totalTubePayouts := totalTubePayouts ledger;
       netProfit := netProfit ledger;
       roundsPlayed := roundsPlayed ledger;
       anteHistory := anteHistory ledger;
       payoutHistory := payoutHistory ledger ++ [amount];
       bustHistory := bustHistory ledger |} in
  updateNetProfit newLedger.

Definition recordTubePayout (ledger : HouseLedger) (amount : number)
  : HouseLedger :=
  let newLedger :=
    {| totalAnteCollected := totalAnteCollected ledger;
       totalPayoutsGiven := totalPayoutsGiven ledger + amount;
       totalBustPenaltiesCollected := totalBustPenaltiesCollected ledger;
       totalTubePayouts := totalTubePayouts ledger + amount;
       netProfit := netProfit ledger;
       roundsPlayed := roundsPlayed ledger;
       anteHistory := anteHistory ledger;
       payoutHistory := payoutHistory ledger ++ [amount];
       bustHistory := bustHistory ledger |} in
  updateNetProfit newLedger.

Definition recordBustPenalty (ledger : HouseLedger) (amount : number)
  : HouseLedger :=
  let newLedger :=
    {| totalAnteCollected := totalAnteCollected ledger;
       totalPayoutsGiven := totalPayoutsGiven ledger;
       totalBustPenaltiesCollected := totalBustPenaltiesCollected ledger + amount;
       totalTubePayouts := totalTubePayouts ledger;
       netProfit := netProfit ledger;
       roundsPlayed := roundsPlayed ledger;
       anteHistory := anteHistory ledger;
       payoutHistory := payoutHistory ledger;
       bustHistory := bustHistory ledger ++ [amount] |} in
  updateNetProfit newLedger.

Definition recordRoundComplete (ledger : HouseLedger) : HouseLedger :=
  {| totalAnteCollected := totalAnteCollected ledger;
     totalPayoutsGiven := totalPayoutsGiven ledger;
     totalBustPenaltiesCollected := totalBustPenaltiesCollected ledger;
     totalTubePayouts := totalTubePayouts ledger;
     netProfit := netProfit ledger;
     roundsPlayed := roundsPlayed ledger + 1;
     anteHistory := anteHistory ledger;
     payoutHistory := payoutHistory ledger;
     bustHistory := bustHistory ledger |}.

(** The three loops of [processRoundOutcomes]. *)
Definition processTubePayouts (ledger : HouseLedger)
    (tubePayouts : list TubePayoutRecord) : HouseLedger :=
  fold_left (fun updatedLedger tubePayout =>
               recordTubePayout updatedLedger (tube_amount tubePayout))
    tubePayouts ledger.

Definition processBustPenalties (ledger : HouseLedger)
    (bustPenalties : list BustPenaltyRecord) : HouseLedger :=
  fold_left (fun updatedLedger bust => recordBustPenalty updatedLedger (bust_amount bust))
    bustPenalties ledger.

Definition isWin (o : Outcome) : bool :=
  match o with win => true | _ => false end.

Definition processRegularPayouts (ledger : HouseLedger)
    (outcomes : list ParticipantOutcome) : HouseLedger :=
  fold_left (fun updatedLedger o =>
               if isWin (outcome o) && gtb (outcome_payout o) 0
               then recordPayout updatedLedger (outcome_payout o)
               else updatedLedger)
    outcomes ledger.

Definition processRoundOutcomes (ledger : HouseLedger)
    (outcomes : list ParticipantOutcome)
    (tubePayouts : list TubePayoutRecord)
    (bustPenalties : list BustPenaltyRecord)
    (anteCollected : number) : HouseLedger :=
  let updatedLedger := recordAnteCollection ledger anteCollected in
  let updatedLedger := processTubePayouts updatedLedger tubePayouts in
  let updatedLedger := processBustPenalties updatedLedger bustPenalties in
  let updatedLedger := processRegularPayouts updatedLedger outcomes in
  recordRoundComplete updatedLedger.

(** ** Showdown and round completion ([gameOrchestrator.ts]) *)

Record GameOrchestratorState : Type := mkGameOrchestratorState {
  config : EngineConfig;
  currentRound : option RoundState;
  houseLedger : HouseLedger;
  isRunning : bool;
  isPaused : bool;
  roundHistory : list RoundState
}.

Definition requireRound (state : GameOrchestratorState) : Exc RoundState :=
  match currentRound state with
  | None => Throw "No active round"
  | Some round => Ok round
  end.

Definition handRankToTube (r : HandRank) : option TubeKey :=
  match r with
  | straight => Some ST
  | flush => Some FL
  | full_house => Some FH
  | straight_flush => Some SF
  | royal_flush => Some RF
  | _ => None
  end.

Definition set_phase (ph : RoundPhase) (round : RoundState) : RoundState :=
  {| roundNumber := roundNumber round; phase := ph; deck := deck round;
     cardsDealt := cardsDealt round; participants := participants round;
     dealer := dealer round; playPot := playPot round;
     anteCollected := anteCollected round; tubeBalances := tubeBalances round;
     outcomes := outcomes round; tubePayouts := tubePayouts round;
     bustPenalties := bustPenalties round; stackTriggers := stackTriggers round |}.

Definition set_participants (ps : list Participant) (round : RoundState)
  : RoundState :=
  {| roundNumber := roundNumber round; phase := phase round; deck := deck round;
     cardsDealt := cardsDealt round; participants := ps;
     dealer := dealer round; playPot := playPot round;
     anteCollected := anteCollected round; tubeBalances := tubeBalances round;
     outcomes := outcomes round; tubePayouts := tubePayouts round;
     bustPenalties := bustPenalties round; stackTriggers := stackTriggers round |}.

Definition set_tubeBalances (b : TubeBalances) (round : RoundState) : RoundState :=
  {| roundNumber := roundNumber round; phase := phase round; deck := deck round;
     cardsDealt := cardsDealt round; participants := participants round;
     dealer := dealer round; playPot := playPot round;
     anteCollected := anteCollected round; tubeBalances := b;
     outcomes := outcomes round; tubePayouts := tubePayouts round;
     bustPenalties := bustPenalties round; stackTriggers := stackTriggers round |}.

Definition push_outcome (o : ParticipantOutcome) (round : RoundState) : RoundState :=
  {| roundNumber := roundNumber round; phase := phase round; deck := deck round;
     cardsDealt := cardsDealt round; participants := participants round;
     dealer := dealer round; playPot := playPot round;
     anteCollected := anteCollected round; tubeBalances := tubeBalances round;
     outcomes := outcomes round ++ [o]; tubePayouts := tubePayouts round;
     bustPenalties := bustPenalties round; stackTriggers := stackTriggers round |}.

Definition push_tubePayout (r : TubePayoutRecord) (round : RoundState) : RoundState :=
  {| roundNumber := roundNumber round; phase := phase round; deck := deck round;
     cardsDealt := cardsDealt round; participants := participants round;
     dealer := dealer round; playPot := playPot round;
     anteCollected := anteCollected round; tubeBalances := tubeBalances round;
     outcomes := outcomes round; tubePayouts := tubePayouts round ++ [r];
     bustPenalties := bustPenalties round; stackTriggers := stackTriggers round |}.

Definition push_bustPenalty (r : BustPenaltyRecord) (round : RoundState) : RoundState :=
  {| roundNumber := roundNumber round; phase := phase round; deck := deck round;
     cardsDealt := cardsDealt round; participants := participants round;
     dealer := dealer round; playPot := playPot round;
     anteCollected := anteCollected round; tubeBalances := tubeBalances round;
     outcomes := outcomes round; tubePayouts := tubePayouts round;
     bustPenalties := bustPenalties round ++ [r]; stackTriggers := stackTriggers round |}.

Definition push_stackTrigger (k : TubeKey) (round : RoundState) : RoundState :=
  {| roundNumber := roundNumber round; phase := phase round; deck := deck round;
     cardsDealt := cardsDealt round; participants := participants round;
     dealer := dealer round; playPot := playPot round;
     anteCollected := anteCollected round; tubeBalances := tubeBalances round;
     outcomes := outcomes round; tubePayouts := tubePayouts round;
     bustPenalties := bustPenalties round; stackTriggers := stackTriggers round ++ [k] |}.

Definition set_credits_busted (c : number) (b : bool) (p : Participant) : Participant :=
  {| participant_id := participant_id p; name := name p; isDealer := isDealer p;
     credits := c; seatPosition := seatPosition p; currentHand := currentHand p;
     heldCardIndices := heldCardIndices p; finalHand := finalHand p;
     handResult := handResult p; htDecision := htDecision p;
     isBusted := b; isActive := isActive p |}.

(** What the branches on [comparison] leave behind for the rest of the
    callback: the local variables and the round as mutated so far. *)
Record Resolution : Type := mkResolution {
  res_outcome : Outcome;
  res_payout : number;
  res_tubePayout : number;
  res_bustPenalty : number;
  res_isBusted : bool;
  res_round : RoundState
}.

(** [p.htDecision?.htId || 'H0.DRAW5']. *)
Definition decisionIdOrDefault (p : Participant) : string :=
  match htDecision p with
  | Some d => if String.eqb (htId d) "" then "H0.DRAW5" else htId d
  | None => "H0.DRAW5"
  end.

Section Orchestrator.

Context `{HandEvaluator}.
Variable Math_log : number -> number.
(** The value of [Date.now()]. *)
Variable now : number.

(** The [if (comparison > 0) ... else if (comparison < 0) ... else ...]
    of the showdown callback. *)
Definition resolveComparison (config : EngineConfig) (round : RoundState)
    (p : Participant) (playerResult : HandResult) (comparison : number)
  : Exc Resolution :=
  if gtb comparison 0 then
    match handRankToTube (hand_rank playerResult) with
    | Some tubeType =>
        let tubeConfig := tubeAt tubeType (tubes config) in
        let currentBalance := tubeAt tubeType (tubeBalances round) in
        let strategy := getPayoutStrategy Math_log (payoutStrategy config) in
        result <- calculateTubePayout (tubeName tubeType) currentBalance
                    (tube_initial tubeConfig) (tube_max tubeConfig) strategy ;;
        if triggersBust result then
          let bustPenalty := ante config * bustPenaltyMultiplier config in
          Ok {| res_outcome := bust; res_payout := 0; res_tubePayout := 0;
                res_bustPenalty := bustPenalty; res_isBusted := true;
                res_round :=
                  push_bustPenalty
                    {| bust_participantId := participant_id p;
                       bust_amount := bustPenalty;
                       reason := tubeName tubeType ++ " tube empty";
                       bust_timestamp := now |} round |}
        else
          let tubePayout := payout result in
          Ok {| res_outcome := win; res_payout := 0; res_tubePayout := tubePayout;
                res_bustPenalty := 0; res_isBusted := isBusted p;
                res_round :=
                  push_tubePayout
                    {| tubeType := tubeType; tube_amount := tubePayout;
                       tube_participantId := participant_id p;
                       tube_timestamp := now |}
                    (set_tubeBalances
                       (tubeSet tubeType (newBalance result) (tubeBalances round))
                       round) |}
    | None =>
        Ok {| res_outcome := win; res_payout := ante config; res_tubePayout := 0;
              res_bustPenalty := 0; res_isBusted := isBusted p;
              res_round := round |}
    end
  else if ltb comparison 0 then
    Ok {| res_outcome := lose; res_payout := 0; res_tubePayout := 0;
          res_bustPenalty := 0; res_isBusted := isBusted p; res_round := round |}
  else
    let outcome := if dealerWinsOnTie config then lose else tie in
    Ok {| res_outcome := outcome;
          res_payout := match outcome with tie => ante config | _ => 0 end;
          res_tubePayout := 0; res_bustPenalty := 0;
          res_isBusted := isBusted p; res_round := round |}.

(** The callback of [round.participants.forEach] in [resolveOutcomes],
    on the round, the registry singleton and the participant. *)
Definition resolveParticipant (config : EngineConfig) (dealerResult : HandResult)
    (round : RoundState) (registry : HTRegistryClass) (p : Participant)
  : Exc (RoundState * HTRegistryClass * Participant) :=
  match isActive p, handResult p with
  | true, Some playerResult =>
      let comparison := compareHands playerResult dealerResult in
      r <- resolveComparison config round p playerResult comparison ;;
      let p' := set_credits_busted
                  (credits p + (res_payout r + res_tubePayout r))
                  (res_isBusted r) p in
      let round' :=
        push_outcome
          {| participantId := participant_id p;
             outcome := res_outcome r;
             handRank := hand_rank playerResult;
             outcome_payout := res_payout r;
             tubePayout := res_tubePayout r;
             bustPenalty := res_bustPenalty r |}
          (res_round r) in
      let registry' :=
        recordOutcome (decisionIdOrDefault p)
          (match res_outcome r with tie => win | o => o end)
          (ante config)
          (res_payout r + res_tubePayout r)
          (option_map tubeName (handRankToTube (hand_rank playerResult)))
          registry in
      Ok (round', registry', p')
  | _, _ => Ok (round, registry, p)
  end.

Fixpoint forEachParticipant (config : EngineConfig) (dealerResult : HandResult)
    (round : RoundState) (registry : HTRegistryClass) (ps : list Participant)
  : Exc (RoundState * HTRegistryClass * list Participant) :=
  match ps with
  | [] => Ok (round, registry, [])
  | p :: ps' =>
      r <- resolveParticipant config dealerResult round registry p ;;
      let '(round', registry', p') := r in
      rest <- forEachParticipant config dealerResult round' registry' ps' ;;
      let '(round'', registry'', ps'') := rest in
      Ok (round'', registry'', p' :: ps'')
  end.

Definition set_currentRound (round : RoundState) (state : GameOrchestratorState)
  : GameOrchestratorState :=
  {| config := config state; currentRound := Some round;
     houseLedger := houseLedger state; isRunning := isRunning state;
     isPaused := isPaused state; roundHistory := roundHistory state |}.

Definition resolveOutcomes (state : GameOrchestratorState)
    (registry : HTRegistryClass)
  : Exc (GameOrchestratorState * HTRegistryClass) :=
  round <- requireRound state ;;
  let round := set_phase phase_showdown round in
  match handResult (dealer round) with
  | None => Throw "Dealer hand not evaluated"
  | Some dealerResult =>
      r <- forEachParticipant (config state) dealerResult round registry
             (participants round) ;;
      let '(round', registry', ps') := r in
      Ok (set_currentRound (set_participants ps' round') state, registry')
  end.

(** The refill callback of [completeRound] for one tube. *)
Definition refillTube (config : EngineConfig) (round : RoundState) (tube : TubeKey)
  : RoundState :=
  let tubeConfig := tubeAt tube (tubes config) in
  let current := tubeAt tube (tubeBalances round) in
  let round :=
    if ltb current (tube_max tubeConfig) then
      set_tubeBalances
        (tubeSet tube (Math_min (current + refillAmount config) (tube_max tubeConfig))
           (tubeBalances round))
        round
    else round in
  if leb current (autoRefillThreshold config) then push_stackTrigger tube round
  else round.

Definition completeRound (state : GameOrchestratorState)
  : Exc GameOrchestratorState :=
  round <- requireRound state ;;
  let config := config state in
  let round := set_phase phase_payout round in
  let round :=
    if playerRefillsOnWin config || houseRefillsOnEmpty config
    then fold_left (refillTube config) tubeKeys round
    else round in
  let ledger :=
    processRoundOutcomes (houseLedger state) (outcomes round)
      (tubePayouts round) (bustPenalties round) (anteCollected round) in
  let round := set_phase phase_complete round in
  Ok {| config := config; currentRound := Some round;
        houseLedger := ledger; isRunning := false;
        isPaused := isPaused state;
        roundHistory := roundHistory state ++ [round] |}.

End Orchestrator.

(** ** Ledger analytics ([houseLedger.ts]) *)

Inductive HealthStatus : Type := health_low_edge | health_optimal | health_high_edge.

Record LedgerAnalytics : Type := mkLedgerAnalytics {
  analytics_houseEdge : number;
  houseEdgePercent : number;
  avgAntePerRound : number;
  avgPayoutPerRound : number;
  analytics_bustRate : number;
  profitPerRound : number;
  isHealthy : bool;
  healthStatus : HealthStatus
}.

(** [x || 1] on a number: [0] is the falsy one. *)
Definition orOne (x : number) : number := if Qeq_bool x 0 then 1 else x.

Definition analyzeLedger (ledger : HouseLedger) : LedgerAnalytics :=
  let rounds := orOne (roundsPlayed ledger) in
  let totalInput := totalAnteCollected ledger + totalBustPenaltiesCollected ledger in
  let houseEdge :=
    if gtb totalInput 0 then (totalInput - totalPayoutsGiven ledger) / totalInput
    else 0 in
  let avgAnte := totalAnteCollected ledger / rounds in
  let avgPayout := totalPayoutsGiven ledger / rounds in
  let bustRate := inject_Z (Z.of_nat (List.length (bustHistory ledger))) / rounds in
  let profitPerRound := netProfit ledger / rounds in
  let healthStatus :=
    if ltb houseEdge 0.03 then health_low_edge
    else if gtb houseEdge 0.07 then health_high_edge
    else health_optimal in
  {| analytics_houseEdge := houseEdge;
     houseEdgePercent := houseEdge * 100;
     avgAntePerRound := avgAnte;
     avgPayoutPerRound := avgPayout;
     analytics_bustRate := bustRate;
     profitPerRound := profitPerRound;
     isHealthy := match healthStatus with health_optimal => true | _ => false end;
     healthStatus := healthStatus |}.

(** ** The phases before the showdown ([gameOrchestrator.ts]) *)

Definition set_credits (c : number) (p : Participant) : Participant :=
  set_credits_busted c (isBusted p) p.

Definition set_decision (d : HTDecision) (p : Participant) : Participant :=
  {| participant_id := participant_id p; name := name p; isDealer := isDealer p;
     credits := credits p; seatPosition := seatPosition p;
     currentHand := currentHand p; heldCardIndices := cardsToHold d;
     finalHand := finalHand p; handResult := handResult p;
     htDecision := Some d; isBusted := isBusted p; isActive := isActive p |}.

Definition set_handResult (r : HandResult) (p : Participant) : Participant :=
  {| participant_id := participant_id p; name := name p; isDealer := isDealer p;
     credits := credits p; seatPosition := seatPosition p;
     currentHand := currentHand p; heldCardIndices := heldCardIndices p;
     finalHand := finalHand p; handResult := Some r;
     htDecision := htDecision p; isBusted := isBusted p; isActive := isActive p |}.

Definition set_dealer (d : Participant) (round : RoundState) : RoundState :=
  {| roundNumber := roundNumber round; phase := phase round; deck := deck round;
     cardsDealt := cardsDealt round; participants := participants round;
     dealer := d; playPot := playPot round;
     anteCollected := anteCollected round; tubeBalances := tubeBalances round;
     outcomes := outcomes round; tubePayouts := tubePayouts round;
     bustPenalties := bustPenalties round; stackTriggers := stackTriggers round |}.

Definition set_pot (pot collected : number) (round : RoundState) : RoundState :=
  {| roundNumber := roundNumber round; phase := phase round; deck := deck round;
     cardsDealt := cardsDealt round; participants := participants round;
     dealer := dealer round; playPot := pot;
     anteCollected := collected; tubeBalances := tubeBalances round;
     outcomes := outcomes round; tubePayouts := tubePayouts round;
     bustPenalties := bustPenalties round; stackTriggers := stackTriggers round |}.

Definition with_round (round : RoundState) (state : GameOrchestratorState)
  : GameOrchestratorState :=
  {| config := config state; currentRound := Some round;
     houseLedger := houseLedger state; isRunning := isRunning state;
     isPaused := isPaused state; roundHistory := roundHistory state |}.

Definition collectAntes (state : GameOrchestratorState) : Exc GameOrchestratorState :=
  round <- requireRound state ;;
  let round := set_phase phase_ante round in
  let antePerPlayer := ante (config state) in
  let totalAnte :=
    antePerPlayer
    * (inject_Z (Z.of_nat (List.length (participants round))) + 1) in
  let round :=
    set_participants
      (List.map (fun p => set_credits (credits p - antePerPlayer) p)
         (participants round))
      round in
  let round :=
    set_dealer (set_credits (credits (dealer round) - antePerPlayer) (dealer round))
      round in
  Ok (with_round (set_pot totalAnte totalAnte round) state).

(** The body of the draw loop of [executeDraw] for one participant:
    positions [i], [i + 1], ... for [count] steps.  A position in the held
    set keeps [currentHand[i]], any other takes the head of the deck;
    [None] is the [undefined] read past the end of either array. *)
Fixpoint drawLoop (count i : nat) (held : list nat) (currentHand deck : list Card)
  : list (option Card) * list Card :=
  match count with
  | O => ([], deck)
  | S count' =>
      if existsb (Nat.eqb i) held then
        let '(newHand, deck') := drawLoop count' (S i) held currentHand deck in
        (nth_error currentHand i :: newHand, deck')
      else
        let '(newHand, deck') :=
          drawLoop count' (S i) held currentHand (List.tl deck) in
        (List.hd_error deck :: newHand, deck')
  end.

(** [new Set(p.heldCardIndices)] and the five steps of the loop. *)
Definition drawHand (p : Participant) (deck : list Card)
  : list (option Card) * list Card :=
  drawLoop 5 0
    (match heldCardIndices p with Some held => held | None => [] end)
    (currentHand p) deck.

Section Phases.

Context `{HandEvaluator}.

(** The callback of [allParticipants.forEach] in [applyHTDecisions]. *)
Definition applyDecision (registry : HTRegistryClass) (p : Participant)
  : Exc Participant :=
  if negb (isActive p) then Ok p
  else
    decision <- decide (currentHand p) registry ;;
    Ok (set_decision decision p).

Fixpoint applyDecisions (registry : HTRegistryClass) (ps : list Participant)
  : Exc (list Participant) :=
  match ps with
  | [] => Ok []
  | p :: ps' =>
      p' <- applyDecision registry p ;;
      rest <- applyDecisions registry ps' ;;
      Ok (p' :: rest)
  end.

(** [allParticipants] is [[...round.participants, round.dealer]]: the
    dealer decides last. *)
Definition applyHTDecisions (state : GameOrchestratorState)
    (registry : HTRegistryClass) : Exc GameOrchestratorState :=
  round <- requireRound state ;;
  let round := set_phase phase_hold round in
  ps <- applyDecisions registry (participants round) ;;
  d <- applyDecision registry (dealer round) ;;
  Ok (with_round (set_dealer d (set_participants ps round)) state).

(** The callback of [allParticipants.forEach] in [evaluateHands]. *)
Definition evaluateParticipant (p : Participant) : Participant :=
  if negb (isActive p) || negb (Nat.eqb (List.length (finalHand p)) 5) then p
  else set_handResult (evaluateHand (finalHand p)) p.

Definition evaluateHands (state : GameOrchestratorState)
  : Exc GameOrchestratorState :=
  round <- requireRound state ;;
  let round := set_phase phase_evaluate round in
  Ok (with_round
        (set_dealer (evaluateParticipant (dealer round))
           (set_participants (List.map evaluateParticipant (participants round))
              round))
        state).

End Phases.

(** ** The balancing engine ([balancingEngine.ts]) *)

Record ObjectiveWeights : Type := mkObjectiveWeights {
  edgeDeviation : number;
  volatility : number;
  tubeDrain : number;
  exploitRisk : number
}.

Record OptimizationObjective : Type := mkOptimizationObjective {
  targetEdge : number;
  edgeTolerance : number;
  maxVolatility : number;
  maxExploitEV : number;
  weights : ObjectiveWeights
}.

Definition DEFAULT_OBJECTIVE : OptimizationObjective :=
  {| targetEdge := 0.05;
     edgeTolerance := 0.02;
     maxVolatility := 25;
     maxExploitEV := 0.02;
     weights := {| edgeDeviation := 1.0; volatility := 0.5;
                   tubeDrain := 0.3; exploitRisk := 0.8 |} |}.

(** [Partial<OptimizationObjective>]. *)
Record PartialObjective : Type := mkPartialObjective {
  opt_targetEdge : option number;
  opt_edgeTolerance : option number;
  opt_maxVolatility : option number;
  opt_maxExploitEV : option number;
  opt_weights : option ObjectiveWeights
}.

Record SimulationMetrics : Type := mkSimulationMetrics {
  houseEdge : number;
  volatilityIndex : number;
  tubeDrainRates : PerTube number;
  exploitableHTs : list Exploit;
  playerReturnRate : number;
  bustRate : number;
  avgRoundDelta : number
}.

Record AIBalancingEngine : Type := mkAIBalancingEngine {
  objective : OptimizationObjective;
  learningRate : number;
  maxIterations : number
}.

Definition orDefault {A : Type} (o : option A) (d : A) : A :=
  match o with Some a => a | None => d end.

(** [new AIBalancingEngine(objective)]: the supplied fields over the
    defaults ([weights] is replaced as a whole). *)
Definition new_AIBalancingEngine (o : PartialObjective) : AIBalancingEngine :=
  {| objective :=
       {| targetEdge := orDefault (opt_targetEdge o) (targetEdge DEFAULT_OBJECTIVE);
          edgeTolerance := orDefault (opt_edgeTolerance o) (edgeTolerance DEFAULT_OBJECTIVE);
          maxVolatility := orDefault (opt_maxVolatility o) (maxVolatility DEFAULT_OBJECTIVE);
          maxExploitEV := orDefault (opt_maxExploitEV o) (maxExploitEV DEFAULT_OBJECTIVE);
          weights := orDefault (opt_weights o) (weights DEFAULT_OBJECTIVE) |};
     learningRate := 0.1;
     maxIterations := 100 |}.

(** [Object.values(metrics.tubeDrainRates).reduce((a, b) => a + b, 0) / 5]. *)
Definition avgDrainOf (metrics : SimulationMetrics) : number :=
  fold_left Qplus (tubeValues (tubeDrainRates metrics)) 0 / 5.

Definition calculateScore (this : AIBalancingEngine) (metrics : SimulationMetrics)
  : number :=
  let weights := weights (objective this) in
  let targetEdge := targetEdge (objective this) in
  let maxVolatility := maxVolatility (objective this) in
  let maxExploitEV := maxExploitEV (objective this) in
  let edgeDev := Math_abs (houseEdge metrics - targetEdge) in
  let edgePenalty := edgeDev * edgeDeviation weights in
  let volPenalty :=
    if gtb (volatilityIndex metrics) maxVolatility
    then (volatilityIndex metrics - maxVolatility) * volatility weights
    else 0 in
  let avgDrain := avgDrainOf metrics in
  let drainPenalty :=
    if gtb avgDrain 0.3 then (avgDrain - 0.3) * tubeDrain weights else 0 in
  let exploitPenalty :=
    fold_left (fun sum ht =>
                 sum + (if gtb (ev ht) maxExploitEV
                        then ev ht * exploitRisk weights else 0))
      (exploitableHTs metrics) 0 in
  edgePenalty + volPenalty + drainPenalty + exploitPenalty.

Definition isOptimal (this : AIBalancingEngine) (metrics : SimulationMetrics)
  : bool :=
  let edgeOk :=
    leb (Math_abs (houseEdge metrics - targetEdge (objective this)))
        (edgeTolerance (objective this)) in
  let volOk := leb (volatilityIndex metrics) (maxVolatility (objective this)) in
  let exploitOk :=
    forallb (fun ht => leb (ev ht) (maxExploitEV (objective this)))
      (exploitableHTs metrics) in
  edgeOk && volOk && exploitOk.

(** The fields of [Partial<EngineConfig>] that [generateRecommendations]
    can set; every other field of its result is absent. *)
Record Recommendations : Type := mkRecommendations {
  rec_bustPenaltyMultiplier : option number;
  rec_tubes : option TubeConfig;
  rec_refillAmount : option number
}.

(** The [forEach] over the tube keys: one tube of [recommendations.tubes]. *)
Definition adjustTube (currentConfig : EngineConfig) (metrics : SimulationMetrics)
    (recommended : TubeConfig) (tube : TubeKey) : TubeConfig :=
  let drainRate := tubeAt tube (tubeDrainRates metrics) in
  if gtb drainRate 0.3 then
    let current := tubeAt tube (tubes currentConfig) in
    tubeSet tube
      {| tube_initial := Math_floor (tube_initial current * (1 + drainRate * 0.5));
         tube_max := tube_max current |}
      recommended
  else recommended.

Definition generateRecommendations (this : AIBalancingEngine)
    (currentConfig : EngineConfig) (metrics : SimulationMetrics)
  : Recommendations :=
  let targetEdge := targetEdge (objective this) in
  let edgeGap := targetEdge - houseEdge metrics in
  let avgDrain := avgDrainOf metrics in
  {| rec_bustPenaltyMultiplier :=
       if gtb (Math_abs edgeGap) 0.01 then
         let adjustment := 1 + (edgeGap * learningRate this * 10) in
         Some (Math_max 0.5
                 (Math_min 2.0 (bustPenaltyMultiplier currentConfig * adjustment)))
       else None;
     rec_tubes :=
       if gtb avgDrain 0.3 then
         Some (fold_left (adjustTube currentConfig metrics) tubeKeys
                 (tubes currentConfig))
       else None;
     rec_refillAmount :=
       if gtb avgDrain 0.4
       then Some (Math_min 5 (refillAmount currentConfig + 1))
       else None |}.

(** [{ ...config, ...adjustments }] in [optimize]. *)
Definition applyRecommendations (config : EngineConfig) (r : Recommendations)
  : EngineConfig :=
  {| playerCount := playerCount config;
     ante := ante config;
     dealerDrawAllowed := dealerDrawAllowed config;
     dealerBustAllowed := dealerBustAllowed config;
     dealerWinsOnTie := dealerWinsOnTie config;
     dealerAggression := dealerAggression config;
     bustPenaltyMultiplier :=
       orDefault (rec_bustPenaltyMultiplier r) (bustPenaltyMultiplier config);
     tubes := orDefault (rec_tubes r) (tubes config);
     payoutStrategy := payoutStrategy config;
     playerRefillsOnWin := playerRefillsOnWin config;
     houseRefillsOnEmpty := houseRefillsOnEmpty config;
     refillAmount := orDefault (rec_refillAmount r) (refillAmount config);
     autoRefillThreshold := autoRefillThreshold config;
     bonusPayoutThreshold := bonusPayoutThreshold config |}.

(** [mitigateExploits] acts on the registry singleton and writes one
    [console.warn] line per rule it disables; the lines are returned as
    the exploits they report. *)
Fixpoint mitigateExploits (this : AIBalancingEngine) (exploits : list Exploit)
    (registry : HTRegistryClass) : HTRegistryClass * list Exploit :=
  match exploits with
  | [] => (registry, [])
  | exploit :: exploits' =>
      if gtb (ev exploit) (maxExploitEV (objective this) * 2) then
        let '(registry', warned) :=
          mitigateExploits this exploits'
            (setEnabled (exploit_htId exploit) false registry) in
        (registry', exploit :: warned)
      else mitigateExploits this exploits' registry
  end.

(** *** Issues *)

Inductive IssueType : Type :=
| low_edge | high_edge | high_volatility | exploit_detected | tube_unstable.

Inductive Severity : Type := warning | critical.

Record OptimizationIssue : Type := mkOptimizationIssue {
  issue_type : IssueType;
  severity : Severity;
  message : string;
  recommendation : string
}.

Section Issues.

(** [Number.prototype.toFixed]: the decimal text of a number. *)
Variable toFixed : number -> nat -> string.

Definition edgeIssues (this : AIBalancingEngine) (metrics : SimulationMetrics)
  : list OptimizationIssue :=
  let o := objective this in
  if ltb (houseEdge metrics) (targetEdge o - edgeTolerance o) then
    [ {| issue_type := low_edge;
         severity := if ltb (houseEdge metrics) 0.02 then critical else warning;
         message := "House edge " ++ toFixed (houseEdge metrics * 100) 2
                    ++ "% is below target";
         recommendation := "Increase bust penalty or reduce tube payouts" |} ]
  else if gtb (houseEdge metrics) (targetEdge o + edgeTolerance o) then
    [ {| issue_type := high_edge;
         severity := if gtb (houseEdge metrics) 0.10 then critical else warning;
         message := "House edge " ++ toFixed (houseEdge metrics * 100) 2
                    ++ "% is above target";
         recommendation := "Reduce bust penalty or increase tube payouts" |} ]
  else [].

Definition volatilityIssues (this : AIBalancingEngine) (metrics : SimulationMetrics)
  : list OptimizationIssue :=
  let o := objective this in
  if gtb (volatilityIndex metrics) (maxVolatility o) then
    [ {| issue_type := high_volatility;
         severity := if gtb (volatilityIndex metrics) (maxVolatility o * 1.5)
                     then critical else warning;
         message := "Volatility index " ++ toFixed (volatilityIndex metrics) 2
                    ++ " exceeds maximum";
         recommendation := "Switch to percentage or logarithmic payout strategy" |} ]
  else [].

Definition exploitIssues (this : AIBalancingEngine) (metrics : SimulationMetrics)
  : list OptimizationIssue :=
  let o := objective this in
  flat_map
    (fun ht =>
       if gtb (ev ht) (maxExploitEV o) then
         [ {| issue_type := exploit_detected;
              severity := if gtb (ev ht) (maxExploitEV o * 2)
                          then critical else warning;
              message := exploit_htId ht ++ " has exploitable EV of "
                         ++ toFixed (ev ht * 100) 2 ++ "%";
              recommendation := "Disable or adjust " ++ exploit_htId ht
                                ++ " hold logic" |} ]
       else [])
    (exploitableHTs metrics).

Definition tubeIssues (metrics : SimulationMetrics) : list OptimizationIssue :=
  flat_map
    (fun tube =>
       let drainRate := tubeAt tube (tubeDrainRates metrics) in
       if gtb drainRate 0.4 then
         [ {| issue_type := tube_unstable;
              severity := if gtb drainRate 0.6 then critical else warning;
              message := tubeName tube ++ " tube has "
                         ++ toFixed (drainRate * 100) 0 ++ "% drain rate";
              recommendation := "Increase " ++ tubeName tube
                                ++ " initial balance or reduce payout" |} ]
       else [])
    tubeKeys.

Definition identifyIssues (this : AIBalancingEngine) (metrics : SimulationMetrics)
  : list OptimizationIssue :=
  edgeIssues this metrics ++ volatilityIssues this metrics
  ++ exploitIssues this metrics ++ tubeIssues metrics.

End Issues.

(** *** The optimization loop *)

(** The number of passes of [for (let i = 0; i < n; i++)]. *)
Definition loopCount (n : number) : nat := Z.to_nat (Qceiling n).

Record OptimizationResult : Type := mkOptimizationResult {
  score : option number;              (* [None] is [Infinity] *)
  result_isOptimal : bool;
  result_metrics : SimulationMetrics;
  recommendedConfig : EngineConfig;
  issues : list OptimizationIssue;
  iterations : number
}.

(** The local variables of [optimize]. *)
Record OptimizeState : Type := mkOptimizeState {
  bestScore : option number;          (* [None] is [Infinity] *)
  bestConfig : EngineConfig;
  bestMetrics : option SimulationMetrics;
  loop_iterations : number;
  loop_config : EngineConfig
}.

Section Simulation.

(** What a simulation callback can reach besides its arguments: the
    registry singleton and a state of its own. *)
Variable Host : Type.

Definition World : Type := (HTRegistryClass * Host)%type.

Definition SimulationFn : Type :=
  EngineConfig -> number -> World -> SimulationMetrics * World.

Variable toFixed : number -> nat -> string.
Variable Math_sqrt : number -> number.

Definition trackBest (this : AIBalancingEngine) (metrics : SimulationMetrics)
    (st : OptimizeState) : OptimizeState :=
  let score := calculateScore this metrics in
  let better :=
    match bestScore st with
    | None => true
    | Some best => ltb score best
    end in
  {| bestScore := if better then Some score else bestScore st;
     bestConfig := if better then loop_config st else bestConfig st;
     bestMetrics := if better then Some metrics else bestMetrics st;
     loop_iterations := loop_iterations st + 1;
     loop_config := loop_config st |}.

Definition set_loop_config (c : EngineConfig) (st : OptimizeState) : OptimizeState :=
  {| bestScore := bestScore st; bestConfig := bestConfig st;
     bestMetrics := bestMetrics st; loop_iterations := loop_iterations st;
     loop_config := c |}.

(** The [for] loop of [optimize], [passes] passes left; the console
    lines of [mitigateExploits] are collected in [warned]. *)
Fixpoint optimizeLoop (passes : nat) (this : AIBalancingEngine)
    (simulationFn : SimulationFn) (st : OptimizeState) (world : World)
    (warned : list Exploit) : OptimizeState * World * list Exploit :=
  match passes with
  | O => (st, world, warned)
  | S passes' =>
      let '(metrics, world1) := simulationFn (loop_config st) 20000 world in
      let st1 := trackBest this metrics st in
      if isOptimal this metrics then (st1, world1, warned)
      else
        let adjustments := generateRecommendations this (loop_config st) metrics in
        let config' := applyRecommendations (loop_config st) adjustments in
        let '(registry', lines) :=
          mitigateExploits this (exploitableHTs metrics) (fst world1) in
        optimizeLoop passes' this simulationFn (set_loop_config config' st1)
          (registry', snd world1) (warned ++ lines)
  end.

Definition optimize (this : AIBalancingEngine) (currentConfig : EngineConfig)
    (simulationFn : SimulationFn) (world : World)
  : OptimizationResult * World * list Exploit :=
  let st0 :=
    {| bestScore := None; bestConfig := currentConfig; bestMetrics := None;
       loop_iterations := 0; loop_config := currentConfig |} in
  let '(st, world1, warned) :=
    optimizeLoop (loopCount (maxIterations this)) this simulationFn st0 world [] in
  let '(finalMetrics, world2) :=
    match bestMetrics st with
    | Some m => (m, world1)
    | None => simulationFn (bestConfig st) 20000 world1
    end in
  ({| score := bestScore st;
      result_isOptimal := isOptimal this finalMetrics;
      result_metrics := finalMetrics;
      recommendedConfig := bestConfig st;
      issues := identifyIssues toFixed this finalMetrics;
      iterations := loop_iterations st |},
   world2, warned).

(** *** Monte Carlo *)

Record MonteCarloResult : Type := mkMonteCarloResult {
  runs : number;
  meanEdge : number;
  edgeVariance : number;
  edgeStdDev : number;
  worstCase : option number;          (* [None] is [undefined] *)
  bestCase : option number;
  confidenceInterval : number * number;
  isStable : bool
}.

(** The loop that fills [edges]. *)
Fixpoint collectEdges (passes : nat) (simulationFn : SimulationFn)
    (config : EngineConfig) (roundsPerRun : number) (world : World)
  : list number * World :=
  match passes with
  | O => ([], world)
  | S passes' =>
      let '(metrics, world1) := simulationFn config roundsPerRun world in
      let '(edges, world2) :=
        collectEdges passes' simulationFn config roundsPerRun world1 in
      (houseEdge metrics :: edges, world2)
  end.

Definition arrayLength (A : Type) (l : list A) : number :=
  inject_Z (Z.of_nat (List.length l)).

(** The statistics of [runMonteCarlo] on the collected edges; the two
    means divide by [edges.length]. *)
Definition summarizeEdges (runs : number) (edges : list number) : MonteCarloResult :=
  let meanEdge := fold_left Qplus edges 0 / arrayLength edges in
  let variance :=
    fold_left (fun sum e => sum + (e - meanEdge) ^ 2) edges 0 / arrayLength edges in
  let stdDev := Math_sqrt variance in
  let sorted := Array_sort (fun a b => a - b) edges in
  let worstCase := List.hd_error sorted in
  let bestCase := List.hd_error (List.rev sorted) in
  let z := 1.96 in
  let margin := z * (stdDev / Math_sqrt runs) in
  {| runs := runs;
     meanEdge := meanEdge;
     edgeVariance := variance;
     edgeStdDev := stdDev;
     worstCase := worstCase;
     bestCase := bestCase;
     confidenceInterval := (meanEdge - margin, meanEdge + margin);
     isStable := ltb stdDev 0.01 |}.

(** [runs] and [roundsPerRun] default to [100] and [20000]. *)
Definition runMonteCarlo (simulationFn : SimulationFn) (config : EngineConfig)
    (runs roundsPerRun : option number) (world : World)
  : MonteCarloResult * World :=
  let runs := orDefault runs 100 in
  let roundsPerRun := orDefault roundsPerRun 20000 in
  let '(edges, world') :=
    collectEdges (loopCount runs) simulationFn config roundsPerRun world in
  (summarizeEdges runs edges, world').

End Simulation.

(** ** The balancing engine in double precision

    The adjustment step, the optimality test and the issue list of
    [balancingEngine.ts] once more, over binary64 numbers: a decimal
    literal is the nearest double, every operation rounds to nearest,
    and a comparison with [NaN] is false. *)

Module Double.

Import Floats.
Local Open Scope float_scope.

Definition number : Type := float.

(** [a > b], [a < b], [a <= b]. *)
Definition gtb (a b : number) : bool := b <? a.
Definition ltb (a b : number) : bool := a <? b.
Definition leb (a b : number) : bool := a <=? b.

Definition Math_abs (x : number) : number := abs x.

(** [Math.max] and [Math.min]: [NaN] if an argument is, and [-0] below
    [+0]. *)
Definition Math_max (a b : number) : number :=
  if is_nan a then a
  else if is_nan b then b
  else if a <? b then b
  else if b <? a then a
  else if get_sign a then b else a.

Definition Math_min (a b : number) : number :=
  if is_nan a then a
  else if is_nan b then b
  else if a <? b then a
  else if b <? a then b
  else if get_sign a then a else b.

(** [2 ** 52]: from here on every double is an integer. *)
Definition two52 : number := 4503599627370496.

(** [Math.floor]: the argument itself when it is [NaN], infinite, a zero
    or an integer; below [2 ** 52] adding and subtracting [2 ** 52]
    rounds to the nearest integer, which is lowered by one when it lies
    above the argument. *)
Definition Math_floor (x : number) : number :=
  if is_nan x || is_infinity x || (two52 <=? abs x) || (x =? 0) then x
  else if 0 <? x then
    let nearest := (x + two52) - two52 in
    if x <? nearest then nearest - 1 else nearest
  else
    let nearest := (x - two52) + two52 in
    if x <? nearest then nearest - 1 else nearest.

Record TubeSpec : Type := mkTubeSpec { tube_initial : number; tube_max : number }.

Definition TubeConfig := PerTube TubeSpec.

Record EngineConfig : Type := mkEngineConfig {
  playerCount : number;
  ante : number;
  dealerDrawAllowed : bool;
  dealerBustAllowed : bool;
  dealerWinsOnTie : bool;
  dealerAggression : number;
  bustPenaltyMultiplier : number;
  tubes : TubeConfig;
  payoutStrategy : PayoutStrategyType;
  playerRefillsOnWin : bool;
  houseRefillsOnEmpty : bool;
  refillAmount : number;
  autoRefillThreshold : number;
  bonusPayoutThreshold : number
}.

Definition DEFAULT_ENGINE_CONFIG : EngineConfig :=
  {| playerCount := 4;
     ante := 5;
     dealerDrawAllowed := true;
     dealerBustAllowed := true;
     dealerWinsOnTie := false;
     dealerAggression := 0.5;
     bustPenaltyMultiplier := 1.0;
     tubes := {| atST := {| tube_initial := 5; tube_max := 10 |};
                 atFL := {| tube_initial := 10; tube_max := 20 |};
                 atFH := {| tube_initial := 15; tube_max := 30 |};
                 atSF := {| tube_initial := 20; tube_max := 40 |};
                 atRF := {| tube_initial := 25; tube_max := 50 |} |};
     payoutStrategy := fixed;
     playerRefillsOnWin := true;
     houseRefillsOnEmpty := true;
     refillAmount := 1;
     autoRefillThreshold := 2;
     bonusPayoutThreshold := 40 |}.

Record ObjectiveWeights : Type := mkObjectiveWeights {
  edgeDeviation : number;
  volatility : number;
  tubeDrain : number;
  exploitRisk : number
}.

Record OptimizationObjective : Type := mkOptimizationObjective {
  targetEdge : number;
  edgeTolerance : number;
  maxVolatility : number;
  maxExploitEV : number;
  weights : ObjectiveWeights
}.

Definition DEFAULT_OBJECTIVE : OptimizationObjective :=
  {| targetEdge := 0.05;
     edgeTolerance := 0.02;
     maxVolatility := 25;
     maxExploitEV := 0.02;
     weights := {| edgeDeviation := 1.0; volatility := 0.5;
                   tubeDrain := 0.3; exploitRisk := 0.8 |} |}.

(** [Partial<OptimizationObjective>]. *)
Record PartialObjective : Type := mkPartialObjective {
  opt_targetEdge : option number;
  opt_edgeTolerance : option number;
  opt_maxVolatility : option number;
  opt_maxExploitEV : option number;
  opt_weights : option ObjectiveWeights
}.

Record Exploit : Type := mkExploit { exploit_htId : string; ev : number }.

Record SimulationMetrics : Type := mkSimulationMetrics {
  houseEdge : number;
  volatilityIndex : number;
  tubeDrainRates : PerTube number;
  exploitableHTs : list Exploit;
  playerReturnRate : number;
  bustRate : number;
  avgRoundDelta : number
}.

Record AIBalancingEngine : Type := mkAIBalancingEngine {
  objective : OptimizationObjective;
  learningRate : number;
  maxIterations : number
}.

(** [new AIBalancingEngine(objective)]: the supplied fields over the
    defaults ([weights] is replaced as a whole). *)
Definition new_AIBalancingEngine (o : PartialObjective) : AIBalancingEngine :=
  {| objective :=
       {| targetEdge := orDefault (opt_targetEdge o) (targetEdge DEFAULT_OBJECTIVE);
          edgeTolerance := orDefault (opt_edgeTolerance o) (edgeTolerance DEFAULT_OBJECTIVE);
          maxVolatility := orDefault (opt_maxVolatility o) (maxVolatility DEFAULT_OBJECTIVE);
          maxExploitEV := orDefault (opt_maxExploitEV o) (maxExploitEV DEFAULT_OBJECTIVE);
          weights := orDefault (opt_weights o) (weights DEFAULT_OBJECTIVE) |};
     learningRate := 0.1;
     maxIterations := 100 |}.

(** [Object.values(metrics.tubeDrainRates).reduce((a, b) => a + b, 0) / 5]. *)
Definition avgDrainOf (metrics : SimulationMetrics) : number :=
  fold_left add (tubeValues (tubeDrainRates metrics)) 0 / 5.

Definition isOptimal (this : AIBalancingEngine) (metrics : SimulationMetrics)
  : bool :=
  let edgeOk :=
    leb (Math_abs (houseEdge metrics - targetEdge (objective this)))
        (edgeTolerance (objective this)) in
  let volOk := leb (volatilityIndex metrics) (maxVolatility (objective this)) in
  let exploitOk :=
    forallb (fun ht => leb (ev ht) (maxExploitEV (objective this)))
      (exploitableHTs metrics) in
  edgeOk && volOk && exploitOk.

(** The fields of [Partial<EngineConfig>] that [generateRecommendations]
    can set; every other field of its result is absent. *)
Record Recommendations : Type := mkRecommendations {
  rec_bustPenaltyMultiplier : option number;
  rec_tubes : option TubeConfig;
  rec_refillAmount : option number
}.

(** The [forEach] over the tube keys: one tube of [recommendations.tubes]. *)
Definition adjustTube (currentConfig : EngineConfig) (metrics : SimulationMetrics)
    (recommended : TubeConfig) (tube : TubeKey) : TubeConfig :=
  let drainRate := tubeAt tube (tubeDrainRates metrics) in
  if gtb drainRate 0.3 then
    let current := tubeAt tube (tubes currentConfig) in
    tubeSet tube
      {| tube_initial := Math_floor (tube_initial current * (1 + drainRate * 0.5));
         tube_max := tube_max current |}
      recommended
  else recommended.

Definition generateRecommendations (this : AIBalancingEngine)
    (currentConfig : EngineConfig) (metrics : SimulationMetrics)
  : Recommendations :=
  let targetEdge := targetEdge (objective this) in
  let edgeGap := targetEdge - houseEdge metrics in
  let avgDrain := avgDrainOf metrics in
  {| rec_bustPenaltyMultiplier :=
       if gtb (Math_abs edgeGap) 0.01 then
         let adjustment := 1 + (edgeGap * learningRate this * 10) in
         Some (Math_max 0.5
                 (Math_min 2.0 (bustPenaltyMultiplier currentConfig * adjustment)))
       else None;
     rec_tubes :=
       if gtb avgDrain 0.3 then
         Some (fold_left (adjustTube currentConfig metrics) tubeKeys
                 (tubes currentConfig))
       else None;
     rec_refillAmount :=
       if gtb avgDrain 0.4
       then Some (Math_min 5 (refillAmount currentConfig + 1))
       else None |}.

(** [{ ...config, ...adjustments }] in [optimize]. *)
Definition applyRecommendations (config : EngineConfig) (r : Recommendations)
  : EngineConfig :=
  {| playerCount := playerCount config;
     ante := ante config;
     dealerDrawAllowed := dealerDrawAllowed config;
     dealerBustAllowed := dealerBustAllowed config;
     dealerWinsOnTie := dealerWinsOnTie config;
     dealerAggression := dealerAggression config;
     bustPenaltyMultiplier :=
       orDefault (rec_bustPenaltyMultiplier r) (bustPenaltyMultiplier config);
     tubes := orDefault (rec_tubes r) (tubes config);
     payoutStrategy := payoutStrategy config;
     playerRefillsOnWin := playerRefillsOnWin config;
     houseRefillsOnEmpty := houseRefillsOnEmpty config;
     refillAmount := orDefault (rec_refillAmount r) (refillAmount config);
     autoRefillThreshold := autoRefillThreshold config;
     bonusPayoutThreshold := bonusPayoutThreshold config |}.

Section Issues.

(** [Number.prototype.toFixed]: the decimal text of a number. *)
Variable toFixed : number -> nat -> string.

Definition edgeIssues (this : AIBalancingEngine) (metrics : SimulationMetrics)
  : list OptimizationIssue :=
  let o := objective this in
  if ltb (houseEdge metrics) (targetEdge o - edgeTolerance o) then
    [ {| issue_type := low_edge;
         severity := if ltb (houseEdge metrics) 0.02 then critical else warning;
         message := ("House edge " ++ toFixed (houseEdge metrics * 100) 2
                     ++ "% is below target")%string;
         recommendation := "Increase bust penalty or reduce tube payouts" |} ]
  else if gtb (houseEdge metrics) (targetEdge o + edgeTolerance o) then
    [ {| issue_type := high_edge;
         severity := if gtb (houseEdge metrics) 0.10 then critical else warning;
         message := ("House edge " ++ toFixed (houseEdge metrics * 100) 2
                     ++ "% is above target")%string;
         recommendation := "Reduce bust penalty or increase tube payouts" |} ]
  else [].

Definition volatilityIssues (this : AIBalancingEngine) (metrics : SimulationMetrics)
  : list OptimizationIssue :=
  let o := objective this in
  if gtb (volatilityIndex metrics) (maxVolatility o) then
    [ {| issue_type := high_volatility;
         severity := if gtb (volatilityIndex metrics) (maxVolatility o * 1.5)
                     then critical else warning;
         message := ("Volatility index " ++ toFixed (volatilityIndex metrics) 2
                     ++ " exceeds maximum")%string;
         recommendation := "Switch to percentage or logarithmic payout strategy" |} ]
  else [].

Definition exploitIssues (this : AIBalancingEngine) (metrics : SimulationMetrics)
  : list OptimizationIssue :=
  let o := objective this in
  flat_map
    (fun ht =>
       if gtb (ev ht) (maxExploitEV o) then
         [ {| issue_type := exploit_detected;
              severity := if gtb (ev ht) (maxExploitEV o * 2)
                          then critical else warning;
              message := (exploit_htId ht ++ " has exploitable EV of "
                          ++ toFixed (ev ht * 100) 2 ++ "%")%string;
              recommendation := ("Disable or adjust " ++ exploit_htId ht
                                 ++ " hold logic")%string |} ]
       else [])
    (exploitableHTs metrics).

Definition tubeIssues (metrics : SimulationMetrics) : list OptimizationIssue :=
  flat_map
    (fun tube =>
       let drainRate := tubeAt tube (tubeDrainRates metrics) in
       if gtb drainRate 0.4 then
         [ {| issue_type := tube_unstable;
              severity := if gtb drainRate 0.6 then critical else warning;
              message := (tubeName tube ++ " tube has "
                          ++ toFixed (drainRate * 100) 0 ++ "% drain rate")%string;
              recommendation := ("Increase " ++ tubeName tube
                                 ++ " initial balance or reduce payout")%string |} ]
       else [])
    tubeKeys.

Definition identifyIssues (this : AIBalancingEngine) (metrics : SimulationMetrics)
  : list OptimizationIssue :=
  edgeIssues this metrics ++ volatilityIssues this metrics
  ++ exploitIssues this metrics ++ tubeIssues metrics.

End Issues.

End Double.

(** * Properties *)

(** ** Comparisons *)

Lemma gtb_true (a b : number) : gtb a b = true <-> b < a.
Proof.
  unfold gtb. rewrite negb_true_iff, <- not_true_iff_false, Qle_bool_iff.
  split; [apply Qnot_le_lt | apply Qlt_not_le].
Qed.

Lemma gtb_false (a b : number) : gtb a b = false <-> a <= b.
Proof.
  unfold gtb. rewrite negb_false_iff. apply Qle_bool_iff.
Qed.

Lemma ltb_true (a b : number) : ltb a b = true <-> a < b.
Proof. apply (gtb_true b a). Qed.

Lemma ltb_false (a b : number) : ltb a b = false <-> b <= a.
Proof. apply (gtb_false b a). Qed.

Lemma leb_true (a b : number) : leb a b = true <-> a <= b.
Proof. apply Qle_bool_iff. Qed.

Lemma leb_false (a b : number) : leb a b = false <-> b < a.
Proof.
  unfold leb. rewrite <- not_true_iff_false, Qle_bool_iff.
  split; [apply Qnot_le_lt | apply Qlt_not_le].
Qed.

(** ** Tube payouts *)

(** A strategy whose callback always raises. *)
Definition raisingStrategy : PayoutStrategy :=
  {| type := fixed; calculate := fun _ => Throw "strategy invoked" |}.

Definition emptyTubeResult : TubePayoutResult :=
  {| payout := 0; newBalance := 0; wasEmpty := true; triggersBust := true |}.

Lemma calculateTubePayout_positive (tubeType : string)
    (cur ini mx raw : number) (strategy : PayoutStrategy) :
  0 < cur ->
  calculate strategy {| current := cur; initial := ini; max := mx |} = Ok raw ->
  calculateTubePayout tubeType cur ini mx strategy =
  Ok {| payout := Qmin raw cur; newBalance := cur - Qmin raw cur;
        wasEmpty := false; triggersBust := false |}.
Proof.
  intros Hpos Hraw. unfold calculateTubePayout.
  apply leb_false in Hpos. rewrite Hpos, Hraw. reflexivity.
Qed.

Lemma calculateTubePayout_nonpositive (tubeType : string)
    (cur ini mx : number) (strategy : PayoutStrategy) :
  cur <= 0 -> calculateTubePayout tubeType cur ini mx strategy = Ok emptyTubeResult.
Proof.
  intros Hle. unfold calculateTubePayout.
  apply leb_true in Hle. now rewrite Hle.
Qed.

(** C4.  An empty tube, [currentBalance <= 0] and so also exactly [0],
    yields [{payout: 0, newBalance: 0, wasEmpty: true, triggersBust: true}]
    under every strategy.  The strategy is not consulted: the result is
    the same for callbacks that would raise on every call. *)
Theorem calculateTubePayout_empty_tube (tubeType : string)
    (currentBalance initialBalance maxBalance : number)
    (strategy : PayoutStrategy) :
  currentBalance <= 0 ->
  calculateTubePayout tubeType currentBalance initialBalance maxBalance strategy
  = Ok emptyTubeResult.
Proof.
  intros Hempty. unfold calculateTubePayout.
  apply leb_true in Hempty. rewrite Hempty. reflexivity.
Qed.

Lemma calculateTubePayout_empty_tube_witness :
  calculateTubePayout "RF" 0 25 50 raisingStrategy = Ok emptyTubeResult.
Proof.
  apply (@calculateTubePayout_empty_tube "RF" 0 25 50 raisingStrategy).
  unfold Qle; simpl; lia.
Defined.

(** C5.  For a balance [currentBalance >= 0] the payout never exceeds the
    balance, and the new balance is the balance less the payout and is
    not negative; on a non-empty tube the payout is the strategy's result
    clamped by the balance. *)
Theorem calculateTubePayout_clamp (tubeType : string)
    (currentBalance initialBalance maxBalance rawPayout : number)
    (strategy : PayoutStrategy) :
  0 <= currentBalance ->
  (0 < currentBalance ->
   calculate strategy {| current := currentBalance; initial := initialBalance;
                         max := maxBalance |} = Ok rawPayout) ->
  exists result,
    calculateTubePayout tubeType currentBalance initialBalance maxBalance strategy
    = Ok result
    /\ payout result <= currentBalance
    /\ newBalance result == currentBalance - payout result
    /\ 0 <= newBalance result
    /\ (0 < currentBalance -> payout result = Math_min rawPayout currentBalance).
Proof.
  intros Hnonneg Hraw.
  destruct (Qlt_le_dec 0 currentBalance) as [Hpos | Hzero].
  - eexists. split.
    + apply calculateTubePayout_positive; [exact Hpos | exact (Hraw Hpos)].
    + cbn [payout newBalance].
      pose proof (Q.le_min_r rawPayout currentBalance) as Hmin.
      split; [exact Hmin |]. split; [apply Qeq_refl |].
      split; [lra | reflexivity].
  - exists emptyTubeResult. split.
    + apply calculateTubePayout_nonpositive. exact Hzero.
    + cbn [payout newBalance emptyTubeResult].
      split; [exact Hnonneg |]. split; [lra |].
      split; [lra | intros Hpos; lra].
Qed.

Lemma calculateTubePayout_clamp_witness :
  exists result,
    calculateTubePayout "RF" 10 25 50 fixedStrategy = Ok result
    /\ payout result <= 10
    /\ newBalance result == 10 - payout result
    /\ 0 <= newBalance result
    /\ (0 < 10 -> payout result = Math_min 25 10).
Proof.
  apply (@calculateTubePayout_clamp "RF" 10 25 50 25 fixedStrategy).
  - unfold Qle; simpl; lia.
  - intros _. reflexivity.
Defined.

Lemma percentage_leaves_balance (c : number) :
  0 < c -> 0 < c - Qmin (Math_floor (c * 0.25)) c.
Proof.
  intros Hpos.
  pose proof (Q.le_min_l (Math_floor (c * 0.25)) c) as Hmin.
  pose proof (Qfloor_le (c * 0.25)) as Hfloor.
  unfold Math_floor in *. lra.
Qed.

(** C8.  Under the percentage strategy, [floor(current * 0.25)], a tube
    holding an integer balance of at least [1] keeps a strictly positive
    balance after the payout. *)
Theorem percentage_never_empties (tubeType : string) (currentBalance : Z)
    (initialBalance maxBalance : number) :
  (1 <= currentBalance)%Z ->
  exists result,
    calculateTubePayout tubeType (inject_Z currentBalance) initialBalance
      maxBalance (createPercentageStrategy 0.25) = Ok result
    /\ payout result = Math_min (Math_floor (inject_Z currentBalance * 0.25))
                         (inject_Z currentBalance)
    /\ 0 < newBalance result.
Proof.
  intros Hone.
  assert (Hpos : 0 < inject_Z currentBalance).
  { unfold Qlt, inject_Z; simpl. lia. }
  eexists. split.
  - apply calculateTubePayout_positive; [exact Hpos | reflexivity].
  - cbn [payout newBalance current]. split; [reflexivity |].
    apply percentage_leaves_balance. exact Hpos.
Qed.

Lemma percentage_never_empties_witness :
  exists result,
    calculateTubePayout "ST" (inject_Z 1) 5 10 (createPercentageStrategy 0.25)
    = Ok result
    /\ payout result = Math_min (Math_floor (inject_Z 1 * 0.25)) (inject_Z 1)
    /\ 0 < newBalance result.
Proof.
  apply (@percentage_never_empties "ST" 1%Z 5 10). lia.
Defined.

(** ** Ledger conservation *)

Definition conserved (ledger : HouseLedger) : Prop :=
  netProfit ledger =
  totalAnteCollected ledger + totalBustPenaltiesCollected ledger
  - totalPayoutsGiven ledger.

(** The ledgers that calls of the exported functions produce, starting
    from [createHouseLedger()]. *)
Inductive reachable : HouseLedger -> Prop :=
| reach_create : reachable createHouseLedger
| reach_ante ledger amount :
    reachable ledger -> reachable (recordAnteCollection ledger amount)
| reach_payout ledger amount :
    reachable ledger -> reachable (recordPayout ledger amount)
| reach_tube ledger amount :
    reachable ledger -> reachable (recordTubePayout ledger amount)
| reach_bust ledger amount :
    reachable ledger -> reachable (recordBustPenalty ledger amount)
| reach_complete ledger :
    reachable ledger -> reachable (recordRoundComplete ledger)
| reach_round ledger outcomes tubePayouts bustPenalties anteCollected :
    reachable ledger ->
    reachable (processRoundOutcomes ledger outcomes tubePayouts bustPenalties
                 anteCollected).

Lemma updateNetProfit_conserved (ledger : HouseLedger) :
  conserved (updateNetProfit ledger).
Proof. reflexivity. Qed.

Lemma recordRoundComplete_conserved (ledger : HouseLedger) :
  conserved ledger -> conserved (recordRoundComplete ledger).
Proof. intros Hc. exact Hc. Qed.

Lemma processTubePayouts_conserved (tubePayouts : list TubePayoutRecord) :
  forall ledger, conserved ledger ->
  conserved (processTubePayouts ledger tubePayouts).
Proof.
  unfold processTubePayouts.
  induction tubePayouts as [| t ts IH]; intros ledger Hc; simpl.
  - exact Hc.
  - apply IH. apply updateNetProfit_conserved.
Qed.

Lemma processBustPenalties_conserved (bustPenalties : list BustPenaltyRecord) :
  forall ledger, conserved ledger ->
  conserved (processBustPenalties ledger bustPenalties).
Proof.
  unfold processBustPenalties.
  induction bustPenalties as [| b bs IH]; intros ledger Hc; simpl.
  - exact Hc.
  - apply IH. apply updateNetProfit_conserved.
Qed.

Lemma processRegularPayouts_conserved (outcomes : list ParticipantOutcome) :
  forall ledger, conserved ledger ->
  conserved (processRegularPayouts ledger outcomes).
Proof.
  unfold processRegularPayouts.
  induction outcomes as [| o os IH]; intros ledger Hc; simpl.
  - exact Hc.
  - apply IH.
    destruct (isWin (outcome o) && gtb (outcome_payout o) 0).
    + apply updateNetProfit_conserved.
    + exact Hc.
Qed.

Lemma processRoundOutcomes_conserved ledger outcomes tubePayouts bustPenalties
    anteCollected :
  conserved (processRoundOutcomes ledger outcomes tubePayouts bustPenalties
               anteCollected).
Proof.
  unfold processRoundOutcomes.
  apply recordRoundComplete_conserved, processRegularPayouts_conserved,
    processBustPenalties_conserved, processTubePayouts_conserved,
    updateNetProfit_conserved.
Qed.

(** C3.  Every ledger reached from [createHouseLedger] by calls of
    [recordAnteCollection], [recordPayout], [recordTubePayout],
    [recordBustPenalty], [recordRoundComplete] and [processRoundOutcomes],
    whatever the amounts, satisfies
    [netProfit = totalAnteCollected + totalBustPenaltiesCollected -
    totalPayoutsGiven]; a further [recordTubePayout] adds its amount to
    both [totalTubePayouts] and [totalPayoutsGiven]. *)
Theorem ledger_conservation (ledger : HouseLedger) :
  reachable ledger ->
  conserved ledger
  /\ forall amount,
       totalTubePayouts (recordTubePayout ledger amount)
       = totalTubePayouts ledger + amount
       /\ totalPayoutsGiven (recordTubePayout ledger amount)
          = totalPayoutsGiven ledger + amount.
Proof.
  intros Hreach. split.
  - induction Hreach.
    + reflexivity.
    + apply updateNetProfit_conserved.
    + apply updateNetProfit_conserved.
    + apply updateNetProfit_conserved.
    + apply updateNetProfit_conserved.
    + apply recordRoundComplete_conserved. assumption.
    + apply processRoundOutcomes_conserved.
  - intros amount. split; reflexivity.
Qed.

Definition sampleTubePayout : TubePayoutRecord :=
  {| tubeType := RF; tube_amount := 25; tube_participantId := "player_1";
     tube_timestamp := 0 |}.

Definition sampleBustPenalty : BustPenaltyRecord :=
  {| bust_participantId := "player_2"; bust_amount := 5;
     reason := "ST tube empty"; bust_timestamp := 0 |}.

Definition sampleWin : ParticipantOutcome :=
  {| participantId := "player_3"; outcome := win; handRank := pair;
     outcome_payout := 5; tubePayout := 0; bustPenalty := 0 |}.

Definition sampleLedger : HouseLedger :=
  recordPayout
    (processRoundOutcomes createHouseLedger [sampleWin] [sampleTubePayout]
       [sampleBustPenalty] 25)
    3.

Lemma ledger_conservation_witness :
  conserved sampleLedger
  /\ forall amount,
       totalTubePayouts (recordTubePayout sampleLedger amount)
       = totalTubePayouts sampleLedger + amount
       /\ totalPayoutsGiven (recordTubePayout sampleLedger amount)
          = totalPayoutsGiven sampleLedger + amount.
Proof.
  apply (@ledger_conservation sampleLedger).
  unfold sampleLedger. apply reach_payout, reach_round, reach_create.
Defined.

(** ** Maps and sorting *)

Section MapFacts.

Variable V : Type.
Implicit Types (m : Map V) (k : string) (v : V).

(** What [Map.set] and [Map.delete] do to the list of keys. *)
Fixpoint keys_set (k : string) (ks : list string) : list string :=
  match ks with
  | [] => [k]
  | k' :: ks' => if String.eqb k' k then k' :: ks' else k' :: keys_set k ks'
  end.

Fixpoint keys_delete (k : string) (ks : list string) : list string :=
  match ks with
  | [] => []
  | k' :: ks' => if String.eqb k' k then ks' else k' :: keys_delete k ks'
  end.

Lemma Map_keys_set k v m : Map_keys (Map_set k v m) = keys_set k (Map_keys m).
Proof.
  induction m as [| [k' v'] m IH]; simpl; [reflexivity |].
  destruct (String.eqb k' k); simpl; [reflexivity | now rewrite <- IH].
Qed.

Lemma Map_keys_delete k m :
  Map_keys (Map_delete k m) = keys_delete k (Map_keys m).
Proof.
  induction m as [| [k' v'] m IH]; simpl; [reflexivity |].
  destruct (String.eqb k' k); simpl; [reflexivity | now rewrite <- IH].
Qed.

Lemma Map_get_set_same k v m : Map_get k (Map_set k v m) = Some v.
Proof.
  induction m as [| [k' v'] m IH]; simpl.
  - now rewrite String.eqb_refl.
  - destruct (String.eqb k' k) eqn:E; simpl; rewrite E; [reflexivity | exact IH].
Qed.

Lemma Map_get_set_other k k0 v m :
  k <> k0 -> Map_get k0 (Map_set k v m) = Map_get k0 m.
Proof.
  intros Hne. induction m as [| [k' v'] m IH]; simpl.
  - apply String.eqb_neq in Hne. now rewrite Hne.
  - destruct (String.eqb k' k) eqn:E; simpl.
    + apply String.eqb_eq in E. subst k'.
      apply String.eqb_neq in Hne. now rewrite Hne.
    + destruct (String.eqb k' k0); [reflexivity | exact IH].
Qed.

Lemma Map_get_In k v m : Map_get k m = Some v -> In (k, v) m.
Proof.
  induction m as [| [k' v'] m IH]; simpl; [discriminate |].
  destruct (String.eqb k' k) eqn:E.
  - apply String.eqb_eq in E. intros [= ->]. left. now subst.
  - intros Hget. right. now apply IH.
Qed.

Lemma Map_get_None k m : Map_get k m = None <-> ~ In k (Map_keys m).
Proof.
  induction m as [| [k' v'] m IH]; simpl.
  - split; [intros _ [] | reflexivity].
  - destruct (String.eqb k' k) eqn:E.
    + apply String.eqb_eq in E. split; [discriminate | intros Hn; exfalso; auto].
    + apply String.eqb_neq in E. rewrite IH. split.
      * intros Hn [He | Hin]; [exact (E He) | exact (Hn Hin)].
      * intros Hn Hin. apply Hn. now right.
Qed.

Lemma In_Map_get k v m :
  NoDup (Map_keys m) -> In (k, v) m -> Map_get k m = Some v.
Proof.
  induction m as [| [k' v'] m IH]; simpl; [intros _ [] |].
  intros Hnd [Heq | Hin].
  - injection Heq as -> ->. now rewrite String.eqb_refl.
  - inversion Hnd as [| ? ? Hnotin Hnd']; subst.
    destruct (String.eqb k' k) eqn:E.
    + apply String.eqb_eq in E. subst k'. exfalso. apply Hnotin.
      change k with (fst (k, v)). now apply in_map.
    + now apply IH.
Qed.

Lemma In_keys_set k k0 ks : In k0 (keys_set k ks) -> k0 = k \/ In k0 ks.
Proof.
  induction ks as [| k' ks IH]; simpl.
  - intros [-> | []]. now left.
  - destruct (String.eqb k' k); simpl.
    + intros H. now right.
    + intros [-> | Hin]; [right; now left |].
      destruct (IH Hin) as [-> | Hin']; [now left | right; now right].
Qed.

Lemma NoDup_keys_set k ks : NoDup ks -> NoDup (keys_set k ks).
Proof.
  induction ks as [| k' ks IH]; simpl; intros Hnd.
  - constructor; [intros [] | constructor].
  - destruct (String.eqb k' k) eqn:E; [exact Hnd |].
    inversion Hnd as [| ? ? Hnotin Hnd']; subst. constructor.
    + intros Hin. apply In_keys_set in Hin as [-> | Hin].
      * now rewrite String.eqb_refl in E.
      * exact (Hnotin Hin).
    + now apply IH.
Qed.

Lemma In_keys_delete k k0 ks : In k0 (keys_delete k ks) -> In k0 ks.
Proof.
  induction ks as [| k' ks IH]; simpl; [intros [] |].
  destruct (String.eqb k' k); simpl.
  - intros H. now right.
  - intros [-> | Hin]; [now left | right; now apply IH].
Qed.

Lemma NoDup_keys_delete k ks : NoDup ks -> NoDup (keys_delete k ks).
Proof.
  induction ks as [| k' ks IH]; simpl; intros Hnd; [constructor |].
  inversion Hnd as [| ? ? Hnotin Hnd']; subst.
  destruct (String.eqb k' k); [exact Hnd' |]. constructor.
  - intros Hin. apply Hnotin. now apply In_keys_delete in Hin.
  - now apply IH.
Qed.

Lemma Forall_Map_set (P : string * V -> Prop) k v m :
  P (k, v) -> Forall P m -> Forall P (Map_set k v m).
Proof.
  intros Hkv. induction m as [| [k' v'] m IH]; simpl; intros Hall.
  - constructor; [exact Hkv | constructor].
  - inversion Hall as [| ? ? Hhd Htl]; subst.
    destruct (String.eqb k' k) eqn:E.
    + apply String.eqb_eq in E. subst k'. constructor; assumption.
    + constructor; [assumption | now apply IH].
Qed.

Lemma Forall_Map_delete (P : string * V -> Prop) k m :
  Forall P m -> Forall P (Map_delete k m).
Proof.
  induction m as [| [k' v'] m IH]; simpl; intros Hall; [constructor |].
  inversion Hall as [| ? ? Hhd Htl]; subst.
  destruct (String.eqb k' k); [assumption |].
  constructor; [assumption | now apply IH].
Qed.

Lemma In_Map_values v m : In v (Map_values m) -> exists k, In (k, v) m.
Proof.
  unfold Map_values. intros Hin. apply in_map_iff in Hin as [[k v'] [Heq Hin]].
  simpl in Heq. subst v'. now exists k.
Qed.

Lemma Map_values_In k v m : In (k, v) m -> In v (Map_values m).
Proof.
  intros Hin. unfold Map_values. change v with (snd (k, v)). now apply in_map.
Qed.

End MapFacts.

Section SortFacts.

Variable A : Type.
Variable compareFn : A -> A -> number.

Lemma In_sort_insert (x y : A) (l : list A) :
  In x (sort_insert compareFn y l) <-> x = y \/ In x l.
Proof.
  induction l as [| z l IH]; simpl.
  - split; [intros [-> | []]; now left | intros [-> | []]; now left].
  - destruct (leb (compareFn y z) 0); simpl.
    + split; [intros [-> | H]; auto | intros [-> | H]; auto].
    + rewrite IH. split.
      * intros [-> | [-> | H]]; auto.
      * intros [-> | [-> | H]]; auto.
Qed.

Lemma In_Array_sort (x : A) (l : list A) :
  In x (Array_sort compareFn l) <-> In x l.
Proof.
  induction l as [| y l IH]; simpl; [reflexivity |].
  rewrite In_sort_insert, IH. split; intros [H | H]; auto.
Qed.

End SortFacts.

(** ** The registry *)

(** A registry built by the class: [rules] is keyed by the rules' own
    identifiers, without repetition, and [stats] has the same keys. *)
Record registry_wf (registry : HTRegistryClass) : Prop := mkRegistryWf {
  wf_nodup : NoDup (Map_keys (rules registry));
  wf_keyed : Forall (fun kv => id (snd kv) = fst kv) (rules registry);
  wf_stats : Map_keys (stats registry) = Map_keys (rules registry)
}.

Definition emptyRegistry : HTRegistryClass := {| rules := []; stats := [] |}.

(** The [enabled] flag of the rule registered under [htId], if any. *)
Definition enabledOf (registry : HTRegistryClass) (htId : string) : option bool :=
  option_map enabled (getRule htId registry).

Lemma emptyRegistry_wf : registry_wf emptyRegistry.
Proof. split; simpl; [constructor | constructor | reflexivity]. Qed.

Lemma register_wf (rule : HTRule) (registry : HTRegistryClass) :
  registry_wf registry -> registry_wf (register rule registry).
Proof.
  intros [Hnd Hkeyed Hstats]. split; unfold register; simpl.
  - rewrite Map_keys_set. now apply NoDup_keys_set.
  - now apply Forall_Map_set.
  - rewrite !Map_keys_set. now rewrite Hstats.
Qed.

Lemma unregister_wf (htId : string) (registry : HTRegistryClass) :
  registry_wf registry -> registry_wf (fst (unregister htId registry)).
Proof.
  intros [Hnd Hkeyed Hstats]. split; unfold unregister; simpl.
  - rewrite Map_keys_delete. now apply NoDup_keys_delete.
  - now apply Forall_Map_delete.
  - rewrite !Map_keys_delete. now rewrite Hstats.
Qed.

Lemma keys_set_present (k : string) (ks : list string) :
  In k ks -> keys_set k ks = ks.
Proof.
  induction ks as [| k' ks IH]; simpl; [intros [] |].
  destruct (String.eqb k' k) eqn:E; [reflexivity |].
  intros [Heq | Hin].
  - subst k'. now rewrite String.eqb_refl in E.
  - now rewrite IH.
Qed.

Lemma Map_keys_set_present (V : Type) (k : string) (v v0 : V) (m : Map V) :
  Map_get k m = Some v0 -> Map_keys (Map_set k v m) = Map_keys m.
Proof.
  intros Hget. rewrite Map_keys_set. apply keys_set_present.
  apply Map_get_In in Hget. change k with (fst (k, v0)). now apply in_map.
Qed.

Lemma setEnabled_wf (htId : string) (e : bool) (registry : HTRegistryClass) :
  registry_wf registry -> registry_wf (setEnabled htId e registry).
Proof.
  intros Hwf. unfold setEnabled.
  destruct (Map_get htId (rules registry)) as [rule |] eqn:Hget; [| exact Hwf].
  destruct Hwf as [Hnd Hkeyed Hstats].
  assert (Hid : id rule = htId).
  { apply Map_get_In in Hget.
    rewrite Forall_forall in Hkeyed. exact (Hkeyed _ Hget). }
  split; simpl.
  - erewrite Map_keys_set_present; [exact Hnd | exact Hget].
  - apply Forall_Map_set; [exact Hid | exact Hkeyed].
  - erewrite Map_keys_set_present; [exact Hstats | exact Hget].
Qed.

Lemma recordOutcome_wf htId o wagered won tubeType (registry : HTRegistryClass) :
  registry_wf registry ->
  registry_wf (recordOutcome htId o wagered won tubeType registry).
Proof.
  intros Hwf. unfold recordOutcome.
  destruct (Map_get htId (stats registry)) as [s |] eqn:Hget; [| exact Hwf].
  destruct Hwf as [Hnd Hkeyed Hstats]. split; simpl; try assumption.
  erewrite Map_keys_set_present; [exact Hstats | exact Hget].
Qed.

Lemma fold_register_wf (rs : list HTRule) :
  forall registry, registry_wf registry ->
  registry_wf (fold_left (fun reg rule => register rule reg) rs registry).
Proof.
  induction rs as [| r rs IH]; intros registry Hwf; simpl; [exact Hwf |].
  apply IH. now apply register_wf.
Qed.

Lemma HTRegistry_wf `{HandEvaluator} : registry_wf HTRegistry.
Proof. apply fold_register_wf, emptyRegistry_wf. Qed.

Lemma setEnabled_enabledOf (htId k : string) (e : bool) (registry : HTRegistryClass) :
  enabledOf (setEnabled htId e registry) k =
  if String.eqb htId k then option_map (fun _ => e) (enabledOf registry k)
  else enabledOf registry k.
Proof.
  unfold enabledOf, getRule, setEnabled.
  destruct (String.eqb htId k) eqn:E.
  - apply String.eqb_eq in E. subst k.
    destruct (Map_get htId (rules registry)) as [rule |] eqn:Hget; simpl.
    + now rewrite Map_get_set_same.
    + now rewrite Hget.
  - apply String.eqb_neq in E.
    destruct (Map_get htId (rules registry)) as [rule |] eqn:Hget; simpl.
    + now rewrite Map_get_set_other.
    + reflexivity.
Qed.

Lemma setEnabled_stats (htId : string) (e : bool) (registry : HTRegistryClass) :
  stats (setEnabled htId e registry) = stats registry.
Proof.
  unfold setEnabled. now destruct (Map_get htId (rules registry)).
Qed.

(** *** Unregistered identifiers *)

(** C10.  [recordOutcome] on an identifier that is not registered
    returns normally and leaves the registry, and with it the statistics
    of every rule, as it was. *)
Theorem recordOutcome_unregistered (htId : string) (o : Outcome)
    (wagered won : number) (tubeType : option string)
    (registry : HTRegistryClass) :
  registry_wf registry ->
  getRule htId registry = None ->
  recordOutcome htId o wagered won tubeType registry = registry
  /\ forall k, getStats k (recordOutcome htId o wagered won tubeType registry)
               = getStats k registry.
Proof.
  intros Hwf Hnone.
  assert (Hstats : Map_get htId (stats registry) = None).
  { apply Map_get_None. rewrite (wf_stats Hwf). now apply Map_get_None. }
  assert (Hsame : recordOutcome htId o wagered won tubeType registry = registry).
  { unfold recordOutcome. now rewrite Hstats. }
  split; [exact Hsame | intros k; now rewrite Hsame].
Qed.

Definition oneRuleRegistry : HTRegistryClass :=
  register rule_H0_DRAW5 emptyRegistry.

Lemma recordOutcome_unregistered_witness :
  recordOutcome "H9.NONE" win 5 10 (Some "RF") oneRuleRegistry = oneRuleRegistry
  /\ forall k, getStats k (recordOutcome "H9.NONE" win 5 10 (Some "RF")
                             oneRuleRegistry)
               = getStats k oneRuleRegistry.
Proof.
  apply (@recordOutcome_unregistered "H9.NONE" win 5 10 (Some "RF")
           oneRuleRegistry).
  - apply register_wf, emptyRegistry_wf.
  - reflexivity.
Defined.

(** *** Decisions *)

Lemma firstMatch_In (rs : list HTRule) (cards : list Card) (hr : HandResult)
    (d : HTDecision) :
  firstMatch rs cards hr = Some d ->
  exists rule, In rule rs /\ htId d = id rule
               /\ matcher rule cards hr = Hold (cardsToHold d).
Proof.
  induction rs as [| r rs IH]; simpl; [discriminate |].
  destruct (matcher r cards hr) as [| held] eqn:Hm.
  - intros Hfm. destruct (IH Hfm) as [rule [Hin Hrule]].
    exists rule. split; [now right | exact Hrule].
  - intros [= <-]. exists r. simpl. split; [now left | split; [reflexivity | exact Hm]].
Qed.

Lemma firstMatch_total (rs : list HTRule) (cards : list Card) (hr : HandResult)
    (rule : HTRule) :
  In rule rs -> matcher rule cards hr <> NoMatch ->
  exists d, firstMatch rs cards hr = Some d.
Proof.
  induction rs as [| r rs IH]; simpl; [intros [] |].
  intros Hin Hmatch. destruct (matcher r cards hr) as [| held] eqn:Hm.
  - destruct Hin as [-> | Hin]; [contradiction | now apply IH].
  - eexists. reflexivity.
Qed.

Lemma In_getAllRules (registry : HTRegistryClass) (rule : HTRule) :
  In rule (getAllRules registry) <->
  In rule (Map_values (rules registry)) /\ enabled rule = true.
Proof.
  unfold getAllRules. rewrite In_Array_sort. apply filter_In.
Qed.

Section Decisions.

Context `{HandEvaluator}.

Lemma decide_wrong_count (cards : list Card) (registry : HTRegistryClass) :
  List.length cards <> 5%nat ->
  decide cards registry = Throw "HT decision requires exactly 5 cards".
Proof.
  intros Hlen. unfold decide.
  apply Nat.eqb_neq in Hlen. now rewrite Hlen.
Qed.

Lemma decide_five (cards : list Card) (registry : HTRegistryClass) :
  List.length cards = 5%nat ->
  decide cards registry =
  Ok (match firstMatch (getAllRules registry) cards (evaluateHand cards) with
      | Some decision => decision
      | None => fallbackDecision
      end).
Proof.
  intros Hlen. unfold decide. apply Nat.eqb_eq in Hlen. rewrite Hlen. simpl.
  now destruct (firstMatch _ _ _).
Qed.

(** With [H0.DRAW5] registered and enabled the loop of [decide] itself
    produces the decision. *)
Lemma fallback_rule_matches (cards : list Card) (registry : HTRegistryClass) :
  getRule "H0.DRAW5" registry = Some rule_H0_DRAW5 ->
  exists d, firstMatch (getAllRules registry) cards (evaluateHand cards) = Some d.
Proof.
  intros Hget. apply firstMatch_total with (rule := rule_H0_DRAW5).
  - apply In_getAllRules. split; [| reflexivity].
    apply Map_values_In with (k := "H0.DRAW5"). now apply Map_get_In.
  - discriminate.
Qed.

(** C6.  [decide] raises exactly on the inputs that do not hold five
    cards and returns a decision on every five-card hand.  The fallback
    rule [H0.DRAW5] has priority [0], matches every hand and holds
    nothing; while it is registered, as it is in the singleton, the rule
    loop always ends with a match. *)
Theorem decide_total (cards : list Card) (registry : HTRegistryClass) :
  ((exists msg, decide cards registry = Throw msg)
   <-> List.length cards <> 5%nat)
  /\ ((exists decision, decide cards registry = Ok decision)
      <-> List.length cards = 5%nat)
  /\ (priority rule_H0_DRAW5 = 0
      /\ forall hand result, matcher rule_H0_DRAW5 hand result = Hold (Some []))
  /\ getRule "H0.DRAW5" HTRegistry = Some rule_H0_DRAW5
  /\ (getRule "H0.DRAW5" registry = Some rule_H0_DRAW5 ->
      exists decision,
        firstMatch (getAllRules registry) cards (evaluateHand cards)
        = Some decision).
Proof.
  destruct (Nat.eq_dec (List.length cards) 5) as [Hfive | Hother].
  - pose proof (@decide_five cards registry Hfive) as Hok.
    split; [| split; [| split; [| split]]].
    + split; [intros [msg Hthrow]; congruence | intros Hne; contradiction].
    + split; [intros _; exact Hfive | intros _; eexists; exact Hok].
    + split; [reflexivity | intros; reflexivity].
    + reflexivity.
    + apply fallback_rule_matches.
  - pose proof (@decide_wrong_count cards registry Hother) as Hthrow.
    split; [| split; [| split; [| split]]].
    + split; [intros _; exact Hother | intros _; eexists; exact Hthrow].
    + split; [intros [d Hok]; congruence | intros Hfive; contradiction].
    + split; [reflexivity | intros; reflexivity].
    + reflexivity.
    + apply fallback_rule_matches.
Qed.

(** A decision taken from the rule loop carries the identifier of a rule
    that is registered under that identifier and enabled. *)
Lemma decide_enabled (cards : list Card) (registry : HTRegistryClass)
    (d : HTDecision) :
  registry_wf registry ->
  decide cards registry = Ok d ->
  d = fallbackDecision \/ enabledOf registry (htId d) = Some true.
Proof.
  intros Hwf Hdec. unfold decide in Hdec.
  destruct (negb (Nat.eqb (List.length cards) 5)); [discriminate |].
  simpl in Hdec.
  destruct (firstMatch (getAllRules registry) cards (evaluateHand cards))
    as [d' |] eqn:Hfm.
  - right. injection Hdec as ->.
    apply firstMatch_In in Hfm as [rule [Hin [Hid _]]].
    apply In_getAllRules in Hin as [Hin Hen].
    apply In_Map_values in Hin as [k Hin].
    pose proof (wf_keyed Hwf) as Hkeyed. rewrite Forall_forall in Hkeyed.
    pose proof (Hkeyed _ Hin) as Hk. simpl in Hk.
    unfold enabledOf, getRule. rewrite Hid, Hk.
    rewrite (In_Map_get _ _ _ (wf_nodup Hwf) Hin). simpl. now rewrite Hen.
  - left. now injection Hdec as <-.
Qed.

End Decisions.

(** ** Exploit mitigation *)

(** An exploit list reports [htId] with an EV above twice the ceiling. *)
Definition flagged (this : AIBalancingEngine) (exploits : list Exploit)
    (htId : string) : bool :=
  existsb (fun exploit =>
             String.eqb (exploit_htId exploit) htId
             && gtb (ev exploit) (maxExploitEV (objective this) * 2))
    exploits.

Lemma mitigateExploits_wf (this : AIBalancingEngine) (exploits : list Exploit) :
  forall registry, registry_wf registry ->
  registry_wf (fst (mitigateExploits this exploits registry)).
Proof.
  induction exploits as [| e es IH]; intros registry Hwf; simpl; [exact Hwf |].
  destruct (gtb (ev e) (maxExploitEV (objective this) * 2)).
  - specialize (IH (setEnabled (exploit_htId e) false registry)
                  (setEnabled_wf _ _ Hwf)).
    destruct (mitigateExploits this es _) as [registry' warned]. exact IH.
  - now apply IH.
Qed.

Lemma mitigateExploits_enabledOf (this : AIBalancingEngine)
    (exploits : list Exploit) (k : string) :
  forall registry,
  enabledOf (fst (mitigateExploits this exploits registry)) k =
  if flagged this exploits k
  then option_map (fun _ => false) (enabledOf registry k)
  else enabledOf registry k.
Proof.
  induction exploits as [| e es IH]; intros registry; simpl; [reflexivity |].
  destruct (gtb (ev e) (maxExploitEV (objective this) * 2)) eqn:Hgt.
  - specialize (IH (setEnabled (exploit_htId e) false registry)).
    destruct (mitigateExploits this es _) as [registry' warned].
    simpl in *. rewrite IH, setEnabled_enabledOf.
    rewrite andb_true_r.
    destruct (String.eqb (exploit_htId e) k); simpl.
    + destruct (flagged this es k); [| reflexivity].
      now destruct (enabledOf registry k).
    + reflexivity.
  - rewrite andb_false_r. simpl. apply IH.
Qed.

Lemma mitigateExploits_stats (this : AIBalancingEngine) (exploits : list Exploit) :
  forall registry,
  stats (fst (mitigateExploits this exploits registry)) = stats registry.
Proof.
  induction exploits as [| e es IH]; intros registry; simpl; [reflexivity |].
  destruct (gtb (ev e) (maxExploitEV (objective this) * 2)).
  - specialize (IH (setEnabled (exploit_htId e) false registry)).
    destruct (mitigateExploits this es _) as [registry' warned].
    simpl in *. now rewrite IH, setEnabled_stats.
  - apply IH.
Qed.

(** Every disabled rule is reported on the console, and nothing else. *)
Lemma mitigateExploits_warns (this : AIBalancingEngine) (exploits : list Exploit) :
  forall registry,
  snd (mitigateExploits this exploits registry) =
  filter (fun exploit => gtb (ev exploit) (maxExploitEV (objective this) * 2))
    exploits.
Proof.
  induction exploits as [| e es IH]; intros registry; simpl; [reflexivity |].
  destruct (gtb (ev e) (maxExploitEV (objective this) * 2)).
  - specialize (IH (setEnabled (exploit_htId e) false registry)).
    destruct (mitigateExploits this es _) as [registry' warned].
    simpl in *. now rewrite IH.
  - apply IH.
Qed.

Definition noObjective : PartialObjective :=
  {| opt_targetEdge := None; opt_edgeTolerance := None;
     opt_maxVolatility := None; opt_maxExploitEV := None;
     opt_weights := None |}.

(** The engine of [createAIBalancer()]: the default objective. *)
Definition defaultBalancer : AIBalancingEngine := new_AIBalancingEngine noObjective.

(** The claim as the specification words it: the flags cleared are
    those of the rules reported above twice the ceiling, and a rule whose
    flag is false is never named by a decision. *)
Definition mitigation_as_specified (E : HandEvaluator) : Prop :=
  forall (this : AIBalancingEngine) (exploits : list Exploit)
         (registry : HTRegistryClass),
    registry_wf registry ->
    (forall k,
        enabledOf (fst (mitigateExploits this exploits registry)) k =
        if flagged this exploits k
        then option_map (fun _ => false) (enabledOf registry k)
        else enabledOf registry k)
    /\ (forall k cards decision,
           List.length cards = 5%nat ->
           enabledOf (fst (mitigateExploits this exploits registry)) k = Some false ->
           decide cards (fst (mitigateExploits this exploits registry)) = Ok decision ->
           htId decision <> k).

(** Every default rule reported with an EV of [1]. *)
Definition everyRuleExploited : list Exploit :=
  List.map (fun k => {| exploit_htId := k; ev := 1 |})
    [ "H5.RF"; "H5.SF"; "H5.4K"; "H5.FH"; "H5.FL"; "H5.ST"; "H4.4FL";
      "H4.4ST"; "H3.3K"; "H2.2P"; "H2.1P"; "H1.HC"; "H0.DRAW5" ].

Definition lowHand : list Card :=
  [ {| rank := R2; suit := clubs |}; {| rank := R4; suit := diamonds |};
    {| rank := R7; suit := hearts |}; {| rank := R9; suit := spades |};
    {| rank := RJ; suit := clubs |} ].

Lemma all_disabled_decision `{HandEvaluator} :
  enabledOf (fst (mitigateExploits defaultBalancer everyRuleExploited HTRegistry))
    "H0.DRAW5" = Some false
  /\ decide lowHand
       (fst (mitigateExploits defaultBalancer everyRuleExploited HTRegistry))
     = Ok fallbackDecision.
Proof. split; reflexivity. Qed.

(** C7, as specified, fails whatever the hand classifier is: when the
    rule [H0.DRAW5] is disabled and no enabled rule matches, [decide]
    still answers with the identifier [H0.DRAW5]. *)
Lemma mitigation_as_specified_fails :
  ~ exists E : HandEvaluator, mitigation_as_specified E.
Proof.
  intros [E Hclaim].
  destruct (Hclaim defaultBalancer everyRuleExploited HTRegistry HTRegistry_wf)
    as [_ Hnever].
  destruct all_disabled_decision as [Hoff Hdec].
  exact (Hnever "H0.DRAW5" lowHand fallbackDecision eq_refl Hoff Hdec eq_refl).
Qed.

(** The same with only [H0.DRAW5] disabled, for a classifier that sees a
    high card and no draw in 2c 4d 7h 9s Jc. *)
Lemma disabled_fallback_still_named `{HandEvaluator} :
  hand_rank (evaluateHand lowHand) = high_card ->
  hasFlushDraw (has4CardFlushDraw lowHand) = false ->
  hasStraightDraw (has4CardStraightDraw lowHand) = false ->
  enabledOf
    (fst (mitigateExploits defaultBalancer
            [{| exploit_htId := "H0.DRAW5"; ev := 0.05 |}] HTRegistry))
    "H0.DRAW5" = Some false
  /\ decide lowHand
       (fst (mitigateExploits defaultBalancer
               [{| exploit_htId := "H0.DRAW5"; ev := 0.05 |}] HTRegistry))
     = Ok fallbackDecision.
Proof.
  intros Hrank Hflush Hstraight. split; [reflexivity |].
  unfold decide. cbn -[evaluateHand has4CardFlushDraw has4CardStraightDraw].
  unfold holdAllOn.
  cbn -[evaluateHand has4CardFlushDraw has4CardStraightDraw].
  rewrite Hrank, Hflush, Hstraight. reflexivity.
Qed.

(** C7, amended.  [mitigateExploits] clears the [enabled] flag of exactly
    the registered rules reported above [2 * maxExploitEV], leaving the
    statistics alone.  A decision never comes from a rule whose flag is
    false: if [decide] names such a rule, the rule is [H0.DRAW5] and the
    decision is the one built after the loop, when no enabled rule
    matched. *)
Theorem mitigateExploits_disables `{HandEvaluator} (this : AIBalancingEngine)
    (exploits : list Exploit) (registry : HTRegistryClass) :
  registry_wf registry ->
  (forall k,
      enabledOf (fst (mitigateExploits this exploits registry)) k =
      if flagged this exploits k
      then option_map (fun _ => false) (enabledOf registry k)
      else enabledOf registry k)
  /\ stats (fst (mitigateExploits this exploits registry)) = stats registry
  /\ (forall k cards decision,
         enabledOf (fst (mitigateExploits this exploits registry)) k = Some false ->
         decide cards (fst (mitigateExploits this exploits registry)) = Ok decision ->
         htId decision = k ->
         k = "H0.DRAW5" /\ decision = fallbackDecision).
Proof.
  intros Hwf. split; [| split].
  - intros k. apply mitigateExploits_enabledOf.
  - apply mitigateExploits_stats.
  - intros k cards decision Hoff Hdec Hid.
    pose proof (mitigateExploits_wf this exploits Hwf) as Hwf'.
    destruct (decide_enabled _ Hwf' Hdec) as [-> | Hon].
    + split; [now rewrite <- Hid | reflexivity].
    + rewrite Hid, Hoff in Hon. discriminate.
Qed.

(** ** The score *)

Definition sumOf (l : list number) : number := fold_right Qplus 0 l.

(** The mean of the five drain rates. *)
Definition avgTubeDrain (metrics : SimulationMetrics) : number :=
  (atST (tubeDrainRates metrics) + atFL (tubeDrainRates metrics)
   + atFH (tubeDrainRates metrics) + atSF (tubeDrainRates metrics)
   + atRF (tubeDrainRates metrics)) / 5.

(** The exploitable rules whose EV is over the ceiling. *)
Definition overCeiling (this : AIBalancingEngine) (metrics : SimulationMetrics)
  : list Exploit :=
  filter (fun ht => gtb (ev ht) (maxExploitEV (objective this)))
    (exploitableHTs metrics).

(** The score as the specification words it: the exploit term weighs
    the excess of each EV over the ceiling. *)
Definition specifiedScore (this : AIBalancingEngine) (metrics : SimulationMetrics)
  : number :=
  let o := objective this in
  edgeDeviation (weights o) * Qabs (houseEdge metrics - targetEdge o)
  + volatility (weights o) * Qmax 0 (volatilityIndex metrics - maxVolatility o)
  + tubeDrain (weights o) * Qmax 0 (avgTubeDrain metrics - 0.3)
  + exploitRisk (weights o)
    * sumOf (List.map (fun ht => ev ht - maxExploitEV o) (overCeiling this metrics)).

Lemma avgDrainOf_mean (metrics : SimulationMetrics) :
  avgDrainOf metrics == avgTubeDrain metrics.
Proof.
  unfold avgDrainOf, avgTubeDrain, tubeValues, tubeKeys. simpl.
  apply Qmult_comp; [ring | reflexivity].
Qed.

Lemma excess_penalty (x ceiling w : number) :
  (if gtb x ceiling then (x - ceiling) * w else 0) == w * Qmax 0 (x - ceiling).
Proof.
  destruct (gtb x ceiling) eqn:Hgt.
  - apply gtb_true in Hgt. rewrite Q.max_r by lra. ring.
  - apply gtb_false in Hgt. rewrite Q.max_l by lra. ring.
Qed.

Lemma excess_penalty_compat (x y ceiling w : number) :
  x == y ->
  (if gtb x ceiling then (x - ceiling) * w else 0) == w * Qmax 0 (y - ceiling).
Proof.
  intros Hxy. rewrite excess_penalty.
  apply Qmult_comp; [reflexivity |].
  apply Q.max_compat; [reflexivity | now rewrite Hxy].
Qed.

Lemma exploitPenalty_sum (ceiling w : number) (hts : list Exploit) :
  forall acc,
  fold_left (fun sum ht => sum + (if gtb (ev ht) ceiling then ev ht * w else 0))
    hts acc
  == acc + w * sumOf (List.map ev (filter (fun ht => gtb (ev ht) ceiling) hts)).
Proof.
  induction hts as [| ht hts IH]; intros acc; simpl.
  - ring.
  - rewrite IH. destruct (gtb (ev ht) ceiling); simpl; ring.
Qed.

Definition exploitedMetrics : SimulationMetrics :=
  {| houseEdge := 0.05;
     volatilityIndex := 10;
     tubeDrainRates := {| atST := 0; atFL := 0; atFH := 0; atSF := 0; atRF := 0 |};
     exploitableHTs := [{| exploit_htId := "H1.HC"; ev := 0.05 |}];
     playerReturnRate := 0.95;
     bustRate := 0;
     avgRoundDelta := 0 |}.

(** C1, as specified, fails: with one exploitable rule at EV 0.05, a
    ceiling of 0.02 and an exploit weight of 0.8, [calculateScore]
    returns 0.04, the specified formula 0.024. *)
Lemma calculateScore_not_as_specified :
  calculateScore defaultBalancer exploitedMetrics == 0.04
  /\ specifiedScore defaultBalancer exploitedMetrics == 0.024
  /\ ~ calculateScore defaultBalancer exploitedMetrics
       == specifiedScore defaultBalancer exploitedMetrics.
Proof.
  split; [reflexivity | split; [reflexivity |]].
  intros Heq. vm_compute in Heq. discriminate.
Qed.

(** C1, amended.  [calculateScore] returns
    [w_edge * |houseEdge - targetEdge|
     + w_vol * max(0, volatilityIndex - maxVolatility)
     + w_drain * max(0, avgTubeDrain - 0.3)
     + w_exploit * (sum of ev over the exploitable HTs with ev > maxExploitEV)]:
    the exploit term weighs the whole EV of each rule over the ceiling.
    The weights, the target edge and the two ceilings are those of the
    objective. *)
Theorem calculateScore_formula (this : AIBalancingEngine) (metrics : SimulationMetrics) :
  calculateScore this metrics ==
  edgeDeviation (weights (objective this))
  * Qabs (houseEdge metrics - targetEdge (objective this))
  + volatility (weights (objective this))
    * Qmax 0 (volatilityIndex metrics - maxVolatility (objective this))
  + tubeDrain (weights (objective this)) * Qmax 0 (avgTubeDrain metrics - 0.3)
  + exploitRisk (weights (objective this))
    * sumOf (List.map ev (overCeiling this metrics)).
Proof.
  unfold calculateScore, overCeiling, Math_abs.
  rewrite exploitPenalty_sum, excess_penalty.
  rewrite (excess_penalty_compat _ _ (avgDrainOf_mean metrics)).
  ring.
Qed.

(** ** Recommendations *)

Lemma tubeAt_tubeSet_same (A : Type) (k : TubeKey) (v : A) (t : PerTube A) :
  tubeAt k (tubeSet k v t) = v.
Proof. now destruct k. Qed.

Definition TubeKey_eqb (a b : TubeKey) : bool :=
  match a, b with
  | ST, ST | FL, FL | FH, FH | SF, SF | RF, RF => true
  | _, _ => false
  end.

Lemma tubeAt_tubeSet (A : Type) (k k' : TubeKey) (v : A) (t : PerTube A) :
  tubeAt k (tubeSet k' v t) = if TubeKey_eqb k k' then v else tubeAt k t.
Proof. now destruct k, k'. Qed.

Lemma adjustTube_at (currentConfig : EngineConfig) (metrics : SimulationMetrics)
    (recommended : TubeConfig) (k k' : TubeKey) :
  tubeAt k (adjustTube currentConfig metrics recommended k') =
  if TubeKey_eqb k k' && gtb (tubeAt k (tubeDrainRates metrics)) 0.3
  then {| tube_initial :=
            Math_floor (tube_initial (tubeAt k (tubes currentConfig))
                        * (1 + tubeAt k (tubeDrainRates metrics) * 0.5));
          tube_max := tube_max (tubeAt k (tubes currentConfig)) |}
  else tubeAt k recommended.
Proof.
  unfold adjustTube.
  destruct (TubeKey_eqb k k') eqn:Hk.
  - assert (k = k') as <- by (destruct k, k'; simpl in Hk; congruence).
    simpl. destruct (gtb (tubeAt k (tubeDrainRates metrics)) 0.3).
    + now rewrite tubeAt_tubeSet_same.
    + reflexivity.
  - simpl. destruct (gtb (tubeAt k' (tubeDrainRates metrics)) 0.3).
    + now rewrite tubeAt_tubeSet, Hk.
    + reflexivity.
Qed.

(** Each tube of [recommendations.tubes] after the [forEach]. *)
Lemma adjusted_tube (currentConfig : EngineConfig) (metrics : SimulationMetrics)
    (k : TubeKey) :
  tubeAt k (fold_left (adjustTube currentConfig metrics) tubeKeys
              (tubes currentConfig)) =
  if gtb (tubeAt k (tubeDrainRates metrics)) 0.3
  then {| tube_initial :=
            Math_floor (tube_initial (tubeAt k (tubes currentConfig))
                        * (1 + tubeAt k (tubeDrainRates metrics) * 0.5));
          tube_max := tube_max (tubeAt k (tubes currentConfig)) |}
  else tubeAt k (tubes currentConfig).
Proof.
  unfold tubeKeys. cbn [fold_left].
  rewrite !adjustTube_at.
  destruct (gtb (tubeAt k (tubeDrainRates metrics)) 0.3); destruct k; reflexivity.
Qed.

(** *** Order on doubles *)

Section DoubleOrder.

Import Floats.
Local Open Scope float_scope.

Lemma SFcompare_antisym (x y : spec_float) :
  SFcompare y x = option_map CompOpp (SFcompare x y).
Proof.
  destruct x as [s1 | s1 | | s1 m1 e1], y as [s2 | s2 | | s2 m2 e2];
    simpl; try reflexivity;
    try (destruct s1; reflexivity); try (destruct s2; reflexivity);
    try (destruct s1, s2; reflexivity).
  destruct s1, s2; simpl; try reflexivity;
    rewrite (Z.compare_antisym e1 e2);
    destruct (e1 ?= e2)%Z; simpl; try reflexivity;
    change (PosDef.Pos.compare_cont Eq m2 m1) with (Pos.compare m2 m1);
    change (PosDef.Pos.compare_cont Eq m1 m2) with (Pos.compare m1 m2);
    rewrite (Pos.compare_antisym m1 m2); destruct (m1 ?= m2)%positive; reflexivity.
Qed.


Lemma double_leb_not_gtb (x y : float) : (x <=? y) = true -> (y <? x) = false.
Proof.
  rewrite ltb_spec, leb_spec. unfold SFltb, SFleb.
  rewrite (SFcompare_antisym (Prim2SF x) (Prim2SF y)).
  destruct (SFcompare (Prim2SF x) (Prim2SF y)) as [[| |] |]; simpl; congruence.
Qed.








End DoubleOrder.

(** *** The adjustment step in doubles *)

Section DoubleRecommendations.

Import Floats.
Local Open Scope float_scope.







(** The engine of [createAIBalancer()]: the default objective. *)
Definition doubleBalancer : Double.AIBalancingEngine :=
  Double.new_AIBalancingEngine
    {| Double.opt_targetEdge := None; Double.opt_edgeTolerance := None;
       Double.opt_maxVolatility := None; Double.opt_maxExploitEV := None;
       Double.opt_weights := None |}.

(** Metrics with the given edge and drain rates, a volatility of 10 and
    no exploitable rule. *)
Definition metricsAt (edge : float) (drains : PerTube float)
  : Double.SimulationMetrics :=
  {| Double.houseEdge := edge;
     Double.volatilityIndex := 10;
     Double.tubeDrainRates := drains;
     Double.exploitableHTs := [];
     Double.playerReturnRate := 1 - edge;
     Double.bustRate := 0;
     Double.avgRoundDelta := 0 |}.

Definition everyTube (drain : float) : PerTube float :=
  {| atST := drain; atFL := drain; atFH := drain; atSF := drain; atRF := drain |}.

(** Rounding at the thresholds.  A house edge of 0.04 against the target
    0.05 gives a gap of 0.010000000000000002, above 0.01: the multiplier
    is set, to 1.01.  The drain rates 0.1, 0.1, 0.4, 0.6, 0.3 add up to an
    average of 0.30000000000000004, above 0.3: [tubes] is set, the full
    house tube going from 15 to 18.  The drain rates 0.2, 0.4, 0.6, 0.6,
    0.2 average 0.4000000000000001, above 0.4: the refill amount is
    raised.  At a drain rate of 0.32 the tube of 25 goes to 28, the
    product being 28.999999999999996. *)
Example rounding_at_the_thresholds :
  Double.rec_bustPenaltyMultiplier
    (Double.generateRecommendations doubleBalancer Double.DEFAULT_ENGINE_CONFIG
       (metricsAt 0.04 (everyTube 0))) = Some 1.01
  /\ option_map (fun recommended => Double.tube_initial (atFH recommended))
       (Double.rec_tubes
          (Double.generateRecommendations doubleBalancer Double.DEFAULT_ENGINE_CONFIG
             (metricsAt 0.05
                {| atST := 0.1; atFL := 0.1; atFH := 0.4; atSF := 0.6; atRF := 0.3 |})))
     = Some 18
  /\ Double.rec_refillAmount
       (Double.generateRecommendations doubleBalancer Double.DEFAULT_ENGINE_CONFIG
          (metricsAt 0.05
             {| atST := 0.2; atFL := 0.4; atFH := 0.6; atSF := 0.6; atRF := 0.2 |}))
     = Some 2
  /\ option_map (fun recommended => Double.tube_initial (atRF recommended))
       (Double.rec_tubes
          (Double.generateRecommendations doubleBalancer Double.DEFAULT_ENGINE_CONFIG
             (metricsAt 0.05 (everyTube 0.32)))) = Some 28.
Proof. repeat split; vm_compute; reflexivity. Qed.

(** The multiplier and the initial balance as the specification words
    the adjustment step. *)
Definition specifiedMultiplier (this : Double.AIBalancingEngine)
    (currentConfig : Double.EngineConfig) (metrics : Double.SimulationMetrics)
  : float :=
  Double.Math_max 0.5
    (Double.Math_min 2.0
       (Double.bustPenaltyMultiplier currentConfig
        * (1 + Double.learningRate this * 10
               * (Double.targetEdge (Double.objective this)
                  - Double.houseEdge metrics)))).

Definition specifiedInitial (currentConfig : Double.EngineConfig)
    (metrics : Double.SimulationMetrics) (tube : TubeKey) : float :=
  Double.Math_floor
    (Double.tube_initial (tubeAt tube (Double.tubes currentConfig))
     * (1 + 0.5 * tubeAt tube (Double.tubeDrainRates metrics))).



(** Volatile, yet within half a point of the target edge; only the
    straight tube drains. *)
Definition volatileMetrics : Double.SimulationMetrics :=
  {| Double.houseEdge := 0.045;
     Double.volatilityIndex := 30;
     Double.tubeDrainRates :=
       {| atST := 0.5; atFL := 0; atFH := 0; atSF := 0; atRF := 0 |};
     Double.exploitableHTs := [];
     Double.playerReturnRate := 0.955;
     Double.bustRate := 0;
     Double.avgRoundDelta := 0 |}.

Lemma volatileMetrics_recommendations :
  Double.isOptimal doubleBalancer volatileMetrics = false
  /\ Double.generateRecommendations doubleBalancer Double.DEFAULT_ENGINE_CONFIG
       volatileMetrics
     = {| Double.rec_bustPenaltyMultiplier := None; Double.rec_tubes := None;
          Double.rec_refillAmount := None |}
  /\ (specifiedMultiplier doubleBalancer Double.DEFAULT_ENGINE_CONFIG volatileMetrics
      =? 1) = false
  /\ (1.004 <? specifiedMultiplier doubleBalancer Double.DEFAULT_ENGINE_CONFIG
                 volatileMetrics) = true
  /\ specifiedInitial Double.DEFAULT_ENGINE_CONFIG volatileMetrics ST = 6.
Proof. repeat split; vm_compute; reflexivity. Qed.


End DoubleRecommendations.

(** ** Ties at the showdown *)

(** A classifier for closed examples: it sees a high card and no draw in
    every hand and calls every showdown a tie. *)
Definition levelEvaluator : HandEvaluator :=
  {| evaluateHand := fun _ => {| hand_rank := high_card; hand_name := "High Card" |};
     has4CardFlushDraw := fun _ => {| hasFlushDraw := false; flush_cardsToHold := None |};
     has4CardStraightDraw :=
       fun _ => {| hasStraightDraw := false; straight_cardsToHold := None |};
     compareHands := fun _ _ => 0 |}.

(** The outcome pushed for a tie that the dealer does not win. *)
Definition tieOutcome (config : EngineConfig) (p : Participant)
    (playerResult : HandResult) : ParticipantOutcome :=
  {| participantId := participant_id p;
     outcome := tie;
     handRank := hand_rank playerResult;
     outcome_payout := ante config;
     tubePayout := 0;
     bustPenalty := 0 |}.

(** The ledger after [completeRound] hands it the round. *)
Definition ledgerAfter (ledger : HouseLedger) (round : RoundState) : HouseLedger :=
  processRoundOutcomes ledger (outcomes round) (tubePayouts round)
    (bustPenalties round) (anteCollected round).

(** The claim as the specification words it. *)
Definition tie_refund_as_specified : Prop :=
  forall (E : HandEvaluator) (Math_log : number -> number) (now : number)
         (config : EngineConfig) (dealerResult playerResult : HandResult)
         (round : RoundState) (registry : HTRegistryClass) (p : Participant),
    dealerWinsOnTie config = false ->
    isActive p = true ->
    handResult p = Some playerResult ->
    compareHands playerResult dealerResult == 0 ->
    exists round' registry' p',
      resolveParticipant Math_log now config dealerResult round registry p
      = Ok (round', registry', p')
      /\ outcomes round' = outcomes round ++ [tieOutcome config p playerResult]
      /\ (forall ledger,
             totalPayoutsGiven (ledgerAfter ledger round')
             == totalPayoutsGiven (ledgerAfter ledger round) + ante config)
      /\ registry' =
         recordOutcome (decisionIdOrDefault p) win (ante config) (ante config + 0)
           (option_map tubeName (handRankToTube (hand_rank playerResult)))
           registry.

Lemma resolveComparison_tie (Math_log : number -> number) (now : number)
    (config : EngineConfig) (round : RoundState) (p : Participant)
    (playerResult : HandResult) (comparison : number) :
  dealerWinsOnTie config = false ->
  comparison == 0 ->
  resolveComparison Math_log now config round p playerResult comparison =
  Ok {| res_outcome := tie; res_payout := ante config; res_tubePayout := 0;
        res_bustPenalty := 0; res_isBusted := isBusted p; res_round := round |}.
Proof.
  intros Hflag Hzero. unfold resolveComparison.
  assert (Hgt : gtb comparison 0 = false) by (apply gtb_false; lra).
  assert (Hlt : ltb comparison 0 = false) by (apply ltb_false; lra).
  now rewrite Hgt, Hlt, Hflag.
Qed.

Lemma resolveParticipant_tie `{HandEvaluator} (Math_log : number -> number)
    (now : number) (config : EngineConfig) (dealerResult playerResult : HandResult)
    (round : RoundState) (registry : HTRegistryClass) (p : Participant) :
  dealerWinsOnTie config = false ->
  isActive p = true ->
  handResult p = Some playerResult ->
  compareHands playerResult dealerResult == 0 ->
  resolveParticipant Math_log now config dealerResult round registry p =
  Ok (push_outcome (tieOutcome config p playerResult) round,
      recordOutcome (decisionIdOrDefault p) win (ante config) (ante config + 0)
        (option_map tubeName (handRankToTube (hand_rank playerResult))) registry,
      set_credits_busted (credits p + (ante config + 0)) (isBusted p) p).
Proof.
  intros Hflag Hactive Hresult Htie. unfold resolveParticipant.
  rewrite Hactive, Hresult.
  rewrite resolveComparison_tie by assumption.
  reflexivity.
Qed.

(** [processRoundOutcomes] passes over an outcome that is not a win. *)
Lemma processRegularPayouts_skips (ledger : HouseLedger)
    (outcomes : list ParticipantOutcome) (o : ParticipantOutcome) :
  outcome o <> win ->
  processRegularPayouts ledger (outcomes ++ [o])
  = processRegularPayouts ledger outcomes.
Proof.
  intros Hnot. unfold processRegularPayouts. rewrite fold_left_app. simpl.
  destruct (outcome o); try reflexivity. contradiction.
Qed.

Lemma ledgerAfter_skips (ledger : HouseLedger) (round : RoundState)
    (o : ParticipantOutcome) :
  outcome o <> win ->
  ledgerAfter ledger (push_outcome o round) = ledgerAfter ledger round.
Proof.
  intros Hnot. unfold ledgerAfter, processRoundOutcomes. simpl.
  now rewrite processRegularPayouts_skips.
Qed.

Definition tiedResult : HandResult :=
  {| hand_rank := pair; hand_name := "Pair" |}.

Definition tiedPlayer : Participant :=
  {| participant_id := "player_1"; name := "Player 1"; isDealer := false;
     credits := 995; seatPosition := 1;
     currentHand := []; heldCardIndices := Some [];
     finalHand := []; handResult := Some tiedResult;
     htDecision := Some fallbackDecision;
     isBusted := false; isActive := true |}.

Definition tiedDealer : Participant :=
  {| participant_id := "dealer"; name := "Dealer"; isDealer := true;
     credits := 9995; seatPosition := 0;
     currentHand := []; heldCardIndices := Some [];
     finalHand := []; handResult := Some tiedResult;
     htDecision := Some fallbackDecision;
     isBusted := false; isActive := true |}.

Definition tiedRound : RoundState :=
  {| roundNumber := 1; phase := phase_evaluate; deck := []; cardsDealt := 10;
     participants := [tiedPlayer]; dealer := tiedDealer;
     playPot := 10; anteCollected := 10;
     tubeBalances := {| atST := 5; atFL := 10; atFH := 15; atSF := 20; atRF := 25 |};
     outcomes := []; tubePayouts := []; bustPenalties := []; stackTriggers := [] |}.

Definition tiedState : GameOrchestratorState :=
  {| config := DEFAULT_ENGINE_CONFIG; currentRound := Some tiedRound;
     houseLedger := createHouseLedger; isRunning := true; isPaused := false;
     roundHistory := [] |}.

(** One player ties the dealer at an ante of 5: the showdown pushes a
    [tie] outcome paying 5, the player is credited 5, and the completed
    round leaves [totalPayoutsGiven] at 0. *)
Lemma tied_round_ledger :
  exists state1 registry1 state2 round1,
    resolveOutcomes (H := levelEvaluator) (fun x => x) 0 tiedState oneRuleRegistry
    = Ok (state1, registry1)
    /\ currentRound state1 = Some round1
    /\ outcomes round1 = [tieOutcome DEFAULT_ENGINE_CONFIG tiedPlayer tiedResult]
    /\ List.map credits (participants round1) = [995 + (5 + 0)]
    /\ completeRound state1 = Ok state2
    /\ totalAnteCollected (houseLedger state2) == 10
    /\ totalPayoutsGiven (houseLedger state2) == 0.
Proof.
  do 4 eexists. split; [reflexivity |].
  split; [reflexivity |]. split; [reflexivity |]. split; [reflexivity |].
  split; [reflexivity |]. split; reflexivity.
Qed.

(** C2, as specified, fails: the ledger does not record the refund of a
    tie. *)
Lemma tie_refund_not_as_specified : ~ tie_refund_as_specified.
Proof.
  intros Hclaim.
  destruct (Hclaim levelEvaluator (fun x => x) 0 DEFAULT_ENGINE_CONFIG
              tiedResult tiedResult tiedRound oneRuleRegistry tiedPlayer
              eq_refl eq_refl eq_refl (Qeq_refl 0))
    as [round' [registry' [p' [Hres [_ [Hledger _]]]]]].
  rewrite resolveParticipant_tie with (playerResult := tiedResult) in Hres
    by reflexivity.
  injection Hres as <- _ _.
  specialize (Hledger createHouseLedger).
  vm_compute in Hledger. discriminate.
Qed.

Lemma recordOutcome_win_stats (htId : string) (wagered won : number)
    (tubeType : option string) (registry : HTRegistryClass) (s : HTStats) :
  getStats htId registry = Some s ->
  exists s',
    getStats htId (recordOutcome htId win wagered won tubeType registry) = Some s'
    /\ usageCount s' = usageCount s + 1
    /\ winCount s' = winCount s + 1
    /\ lossCount s' = lossCount s
    /\ bustCount s' = bustCount s
    /\ totalWagered s' = totalWagered s + wagered
    /\ totalWon s' = totalWon s + won.
Proof.
  unfold getStats, recordOutcome. intros Hget. rewrite Hget.
  eexists. split; [apply Map_get_set_same |].
  cbn [usageCount winCount lossCount bustCount totalWagered totalWon].
  repeat split.
Qed.

(** C2, amended.  When [dealerWinsOnTie] is false and an active
    participant's hand ties the dealer's, the showdown pushes an outcome
    of kind [tie] whose payout is the ante and credits the participant
    with it, and the statistics of the participant's rule count a win (one
    more use, one more win, the ante wagered, the ante returned).  The
    ledger does not record the refund: [processRoundOutcomes] only records
    the payout of an outcome of kind [win], so the ledger after the round
    is the one it would be without the tie. *)
Theorem tie_refund `{HandEvaluator} (Math_log : number -> number) (now : number)
    (config : EngineConfig) (dealerResult playerResult : HandResult)
    (round : RoundState) (registry : HTRegistryClass) (p : Participant) :
  dealerWinsOnTie config = false ->
  isActive p = true ->
  handResult p = Some playerResult ->
  compareHands playerResult dealerResult == 0 ->
  exists round' registry' p',
    resolveParticipant Math_log now config dealerResult round registry p
    = Ok (round', registry', p')
    /\ outcomes round' = outcomes round ++ [tieOutcome config p playerResult]
    /\ credits p' = credits p + (ante config + 0)
    /\ (forall ledger, ledgerAfter ledger round' = ledgerAfter ledger round)
    /\ registry' =
       recordOutcome (decisionIdOrDefault p) win (ante config) (ante config + 0)
         (option_map tubeName (handRankToTube (hand_rank playerResult)))
         registry
    /\ (forall s,
           getStats (decisionIdOrDefault p) registry = Some s ->
           exists s',
             getStats (decisionIdOrDefault p) registry' = Some s'
             /\ usageCount s' = usageCount s + 1
             /\ winCount s' = winCount s + 1
             /\ lossCount s' = lossCount s
             /\ bustCount s' = bustCount s
             /\ totalWagered s' = totalWagered s + ante config
             /\ totalWon s' = totalWon s + (ante config + 0)).
Proof.
  intros Hflag Hactive Hresult Htie.
  do 3 eexists. split.
  - apply resolveParticipant_tie; eassumption.
  - split; [reflexivity |]. split; [reflexivity |]. split.
    + intros ledger. apply ledgerAfter_skips. discriminate.
    + split; [reflexivity |].
      intros s Hs. now apply recordOutcome_win_stats.
Qed.

Lemma tie_refund_witness :
  exists round' registry' p',
    resolveParticipant (H := levelEvaluator) (fun x => x) 0 DEFAULT_ENGINE_CONFIG
      tiedResult tiedRound oneRuleRegistry tiedPlayer
    = Ok (round', registry', p')
    /\ outcomes round'
       = outcomes tiedRound ++ [tieOutcome DEFAULT_ENGINE_CONFIG tiedPlayer tiedResult]
    /\ credits p' = credits tiedPlayer + (ante DEFAULT_ENGINE_CONFIG + 0)
    /\ (forall ledger, ledgerAfter ledger round' = ledgerAfter ledger tiedRound)
    /\ registry' =
       recordOutcome (decisionIdOrDefault tiedPlayer) win
         (ante DEFAULT_ENGINE_CONFIG) (ante DEFAULT_ENGINE_CONFIG + 0)
         (option_map tubeName (handRankToTube (hand_rank tiedResult)))
         oneRuleRegistry
    /\ (forall s,
           getStats (decisionIdOrDefault tiedPlayer) oneRuleRegistry = Some s ->
           exists s',
             getStats (decisionIdOrDefault tiedPlayer) registry' = Some s'
             /\ usageCount s' = usageCount s + 1
             /\ winCount s' = winCount s + 1
             /\ lossCount s' = lossCount s
             /\ bustCount s' = bustCount s
             /\ totalWagered s' = totalWagered s + ante DEFAULT_ENGINE_CONFIG
             /\ totalWon s' = totalWon s + (ante DEFAULT_ENGINE_CONFIG + 0)).
Proof.
  apply (@tie_refund levelEvaluator (fun x => x) 0 DEFAULT_ENGINE_CONFIG
           tiedResult tiedResult tiedRound oneRuleRegistry tiedPlayer).
  - reflexivity.
  - reflexivity.
  - reflexivity.
  - reflexivity.
Defined.

(** ** Worked examples *)

(** The scenario of the specification: [H1.HC] reported at an EV of 0.05
    against a ceiling of 0.02 is disabled, and nothing else is. *)
Lemma mitigateExploits_disables_witness :
  (forall k,
      enabledOf
        (fst (mitigateExploits defaultBalancer
                [{| exploit_htId := "H1.HC"; ev := 0.05 |}]
                (HTRegistry (H := levelEvaluator)))) k =
      if flagged defaultBalancer [{| exploit_htId := "H1.HC"; ev := 0.05 |}] k
      then option_map (fun _ => false)
             (enabledOf (HTRegistry (H := levelEvaluator)) k)
      else enabledOf (HTRegistry (H := levelEvaluator)) k)
  /\ stats (fst (mitigateExploits defaultBalancer
                   [{| exploit_htId := "H1.HC"; ev := 0.05 |}]
                   (HTRegistry (H := levelEvaluator))))
     = stats (HTRegistry (H := levelEvaluator))
  /\ (forall k cards decision,
         enabledOf
           (fst (mitigateExploits defaultBalancer
                   [{| exploit_htId := "H1.HC"; ev := 0.05 |}]
                   (HTRegistry (H := levelEvaluator)))) k = Some false ->
         decide (H := levelEvaluator) cards
           (fst (mitigateExploits defaultBalancer
                   [{| exploit_htId := "H1.HC"; ev := 0.05 |}]
                   (HTRegistry (H := levelEvaluator)))) = Ok decision ->
         htId decision = k ->
         k = "H0.DRAW5" /\ decision = fallbackDecision).
Proof.
  apply (@mitigateExploits_disables levelEvaluator defaultBalancer
           [{| exploit_htId := "H1.HC"; ev := 0.05 |}]
           (HTRegistry (H := levelEvaluator))).
  apply HTRegistry_wf.
Defined.

Example high_card_rule_disabled :
  enabledOf (HTRegistry (H := levelEvaluator)) "H1.HC" = Some true
  /\ enabledOf
       (fst (mitigateExploits defaultBalancer
               [{| exploit_htId := "H1.HC"; ev := 0.05 |}]
               (HTRegistry (H := levelEvaluator)))) "H1.HC" = Some false
  /\ List.map id (getAllRules
                    (fst (mitigateExploits defaultBalancer
                            [{| exploit_htId := "H1.HC"; ev := 0.05 |}]
                            (HTRegistry (H := levelEvaluator)))))
     = [ "H5.RF"; "H5.SF"; "H5.4K"; "H5.FH"; "H5.FL"; "H5.ST"; "H4.4FL";
         "H4.4ST"; "H3.3K"; "H2.2P"; "H2.1P"; "H0.DRAW5" ].
Proof. repeat split. Qed.

Definition drainedMetrics : SimulationMetrics :=
  {| houseEdge := 0.02;
     volatilityIndex := 10;
     tubeDrainRates :=
       {| atST := 0.5; atFL := 0.5; atFH := 0.5; atSF := 0.5; atRF := 0.2 |};
     exploitableHTs := [];
     playerReturnRate := 0.98;
     bustRate := 0;
     avgRoundDelta := 0 |}.

(** An edge gap of 0.03 and an average drain of 0.44: the multiplier
    becomes 1.03, the four draining tubes start at 6, 12, 18 and 25, and
    the refill amount becomes 2. *)
Example drained_recommendations :
  exists multiplier recommended,
    generateRecommendations defaultBalancer DEFAULT_ENGINE_CONFIG drainedMetrics
    = {| rec_bustPenaltyMultiplier := Some multiplier;
         rec_tubes := Some recommended;
         rec_refillAmount := Some 2 |}
    /\ multiplier == 1.03
    /\ List.map tube_initial (tubeValues recommended)
       = [inject_Z 6; inject_Z 12; inject_Z 18; inject_Z 25; 25].
Proof.
  do 2 eexists. split; [reflexivity |]. split; reflexivity.
Qed.

Example royal_flush_payout :
  calculateTubePayout "RF" 25 25 50 fixedStrategy
  = Ok {| payout := 25; newBalance := 25 - 25; wasEmpty := false;
          triggersBust := false |}.
Proof. reflexivity. Qed.

Example percentage_payout :
  exists result,
    calculateTubePayout "FL" (inject_Z 10) 10 20 (createPercentageStrategy 0.25)
    = Ok result
    /\ payout result == 2 /\ newBalance result == 8.
Proof. eexists. split; [reflexivity |]. split; reflexivity. Qed.

(** * Further properties *)

(** ** Sorting *)

Section SortOrder.

Variable A : Type.
Variable compareFn : A -> A -> number.

(** [before a b]: the comparator lets [a] stand before [b]. *)
Definition before (a b : A) : Prop := compareFn a b <= 0.

Hypothesis before_total : forall a b, before a b \/ before b a.
Hypothesis before_trans : forall a b c, before a b -> before b c -> before a c.

Lemma sort_insert_sorted (x : A) (l : list A) :
  StronglySorted before l -> StronglySorted before (sort_insert compareFn x l).
Proof.
  induction l as [| y l IH]; simpl; intros Hs.
  - constructor; [constructor | constructor].
  - inversion Hs as [| ? ? Hs' Hall]; subst.
    destruct (leb (compareFn x y) 0) eqn:Hle.
    + apply leb_true in Hle. constructor; [exact Hs |].
      constructor; [exact Hle |].
      rewrite Forall_forall in *. intros z Hz.
      apply before_trans with y; [exact Hle | now apply Hall].
    + apply leb_false in Hle.
      assert (Hyx : before y x).
      { destruct (before_total x y) as [Hxy | Hyx]; [| exact Hyx].
        unfold before in Hxy. lra. }
      constructor; [now apply IH |].
      rewrite Forall_forall in *. intros z Hz.
      apply In_sort_insert in Hz as [-> | Hz]; [exact Hyx | now apply Hall].
Qed.

Lemma Array_sort_sorted (l : list A) :
  StronglySorted before (Array_sort compareFn l).
Proof.
  induction l as [| x l IH]; simpl; [constructor |].
  now apply sort_insert_sorted.
Qed.

End SortOrder.

Section SortPermutation.

Variable A : Type.
Variable compareFn : A -> A -> number.

Lemma sort_insert_perm (x : A) (l : list A) :
  Permutation (sort_insert compareFn x l) (x :: l).
Proof.
  induction l as [| y l IH]; simpl; [reflexivity |].
  destruct (leb (compareFn x y) 0); [reflexivity |].
  rewrite IH. apply perm_swap.
Qed.

Lemma Array_sort_perm (l : list A) : Permutation (Array_sort compareFn l) l.
Proof.
  induction l as [| x l IH]; simpl; [reflexivity |].
  rewrite sort_insert_perm. now constructor.
Qed.

End SortPermutation.

(** ** The rule list *)

Definition byPriority (a b : HTRule) : number := priority b - priority a.

Lemma byPriority_total (a b : HTRule) :
  before byPriority a b \/ before byPriority b a.
Proof.
  unfold before, byPriority.
  destruct (Qlt_le_dec (priority a) (priority b)); [right | left]; lra.
Qed.

Lemma byPriority_trans (a b c : HTRule) :
  before byPriority a b -> before byPriority b c -> before byPriority a c.
Proof. unfold before, byPriority. intros. lra. Qed.

Lemma getAllRules_descending (registry : HTRegistryClass) :
  StronglySorted (fun a b => priority b <= priority a) (getAllRules registry).
Proof.
  pose proof (Array_sort_sorted byPriority_total byPriority_trans
                (filter enabled (Map_values (rules registry)))) as Hs.
  unfold getAllRules. fold byPriority.
  induction Hs as [| a l Hs IH Hall]; constructor; [exact IH |].
  rewrite Forall_forall in *. intros b Hb.
  specialize (Hall b Hb). unfold before, byPriority in Hall. lra.
Qed.

(** X1.  [getAllRules] returns the enabled rules and only them, each as
    often as it is registered, in an order in which the priority never
    increases. *)
Theorem getAllRules_sorted (registry : HTRegistryClass) :
  Permutation (getAllRules registry)
    (filter enabled (Map_values (rules registry)))
  /\ StronglySorted (fun a b => priority b <= priority a) (getAllRules registry)
  /\ Forall (fun rule => enabled rule = true) (getAllRules registry).
Proof.
  split; [apply Array_sort_perm | split].
  - apply getAllRules_descending.
  - rewrite Forall_forall. intros rule Hin.
    now apply In_getAllRules in Hin.
Qed.

Lemma StronglySorted_suffix (A : Type) (R : A -> A -> Prop) (l1 l2 : list A) :
  StronglySorted R (l1 ++ l2) -> StronglySorted R l2.
Proof.
  induction l1 as [| x l1 IH]; simpl; intros Hs; [exact Hs |].
  inversion Hs; subst. now apply IH.
Qed.

(** The decision [firstMatch] builds from a rule and its hold set. *)
Definition decisionOf (rule : HTRule) (held : option (list nat)) : HTDecision :=
  {| htId := id rule;
     decision_category := category rule;
     decision_description := description rule;
     cardsToHold := held;
     expectedValue := theoreticalEV rule;
     decision_bustPotential := bustPotential rule |}.

Lemma firstMatch_split (rs : list HTRule) (cards : list Card) (hr : HandResult)
    (d : HTDecision) :
  firstMatch rs cards hr = Some d ->
  exists skipped rule rest held,
    rs = skipped ++ rule :: rest
    /\ Forall (fun r => matcher r cards hr = NoMatch) skipped
    /\ matcher rule cards hr = Hold held
    /\ d = decisionOf rule held.
Proof.
  induction rs as [| r rs IH]; simpl; [discriminate |].
  destruct (matcher r cards hr) as [| held] eqn:Hm.
  - intros Hfm. destruct (IH Hfm) as (skipped & rule & rest & held & -> & Hall & Hrule).
    exists (r :: skipped), rule, rest, held.
    split; [reflexivity | split; [now constructor | exact Hrule]].
  - intros [= <-]. exists [], r, rs, held.
    split; [reflexivity | split; [constructor | split; [exact Hm | reflexivity]]].
Qed.

Lemma firstMatch_none (rs : list HTRule) (cards : list Card) (hr : HandResult) :
  firstMatch rs cards hr = None ->
  Forall (fun r => matcher r cards hr = NoMatch) rs.
Proof.
  induction rs as [| r rs IH]; simpl; [constructor |].
  destruct (matcher r cards hr) eqn:Hm; [| discriminate].
  intros Hfm. constructor; [exact Hm | now apply IH].
Qed.

(** X2.  On a five-card hand [decide] answers with the enabled rule of
    highest priority among those that match: either no enabled rule
    matches and the answer is the decision built after the loop, or the
    answer is built from an enabled, registered rule that matches, and
    every enabled rule of strictly higher priority does not match. *)
Theorem decide_highest_priority `{HandEvaluator} (cards : list Card)
    (registry : HTRegistryClass) :
  List.length cards = 5%nat ->
  exists decision,
    decide cards registry = Ok decision
    /\ ((decision = fallbackDecision
         /\ forall r, In r (Map_values (rules registry)) -> enabled r = true ->
                      matcher r cards (evaluateHand cards) = NoMatch)
        \/ exists rule held,
             In rule (Map_values (rules registry))
             /\ enabled rule = true
             /\ matcher rule cards (evaluateHand cards) = Hold held
             /\ decision = decisionOf rule held
             /\ forall r, In r (Map_values (rules registry)) -> enabled r = true ->
                          priority rule < priority r ->
                          matcher r cards (evaluateHand cards) = NoMatch).
Proof.
  intros Hfive. rewrite (@decide_five _ cards registry Hfive).
  eexists. split; [reflexivity |].
  destruct (firstMatch (getAllRules registry) cards (evaluateHand cards))
    as [d |] eqn:Hfm.
  - right.
    apply firstMatch_split in Hfm
      as (skipped & rule & rest & held & Hrs & Hskipped & Hmatch & ->).
    assert (Hin : In rule (getAllRules registry)).
    { rewrite Hrs. apply in_or_app. right. now left. }
    apply In_getAllRules in Hin as [Hreg Hen].
    exists rule, held. repeat (split; [assumption || reflexivity |]).
    intros r Hr Hren Hprio.
    assert (Hrin : In r (getAllRules registry)) by (now apply In_getAllRules).
    rewrite Hrs in Hrin. apply in_app_or in Hrin as [Hpre | [Heq | Hpost]].
    + rewrite Forall_forall in Hskipped. now apply Hskipped.
    + subst r. lra.
    + pose proof (getAllRules_descending registry) as Hsorted.
      rewrite Hrs in Hsorted.
      apply StronglySorted_suffix in Hsorted.
      inversion Hsorted as [| ? ? _ Hall]; subst.
      rewrite Forall_forall in Hall. specialize (Hall r Hpost). simpl in Hall. lra.
  - left. split; [reflexivity |].
    apply firstMatch_none in Hfm. rewrite Forall_forall in Hfm.
    intros r Hr Hren. apply Hfm. now apply In_getAllRules.
Qed.

Lemma decide_highest_priority_witness :
  exists decision,
    decide (H := levelEvaluator) lowHand (HTRegistry (H := levelEvaluator))
    = Ok decision
    /\ ((decision = fallbackDecision
         /\ forall r,
              In r (Map_values (rules (HTRegistry (H := levelEvaluator)))) ->
              enabled r = true ->
              matcher r lowHand (evaluateHand (HandEvaluator := levelEvaluator) lowHand)
              = NoMatch)
        \/ exists rule held,
             In rule (Map_values (rules (HTRegistry (H := levelEvaluator))))
             /\ enabled rule = true
             /\ matcher rule lowHand
                  (evaluateHand (HandEvaluator := levelEvaluator) lowHand)
                = Hold held
             /\ decision = decisionOf rule held
             /\ forall r,
                  In r (Map_values (rules (HTRegistry (H := levelEvaluator)))) ->
                  enabled r = true ->
                  priority rule < priority r ->
                  matcher r lowHand
                    (evaluateHand (HandEvaluator := levelEvaluator) lowHand)
                  = NoMatch).
Proof.
  apply (@decide_highest_priority levelEvaluator lowHand
           (HTRegistry (H := levelEvaluator))).
  reflexivity.
Defined.

(** ** Decisions of the singleton *)

(** The made hands and the rule that holds each. *)
Definition madeHandRule (r : HandRank) : option HTRule :=
  match r with
  | royal_flush => Some rule_H5_RF
  | straight_flush => Some rule_H5_SF
  | four_of_a_kind => Some rule_H5_4K
  | full_house => Some rule_H5_FH
  | flush => Some rule_H5_FL
  | straight => Some rule_H5_ST
  | _ => None
  end.

Lemma getAllRules_HTRegistry `{HandEvaluator} : getAllRules HTRegistry = defaultRules.
Proof. reflexivity. Qed.

(** X3.  With the default rules all enabled, a five-card hand that the
    classifier ranks as a made hand (straight or better) is decided by the
    [H5] rule of that rank, holding all five cards, whatever draws it also
    contains; any other hand with a four-card flush draw is decided by
    [H4.4FL], and without one but with a four-card straight draw by
    [H4.4ST], each holding the positions the classifier reports, so that
    a draw outranks three of a kind and pairs. *)
Theorem singleton_made_hands_and_draws `{HandEvaluator} (cards : list Card) :
  List.length cards = 5%nat ->
  (forall rule,
      madeHandRule (hand_rank (evaluateHand cards)) = Some rule ->
      decide cards HTRegistry = Ok (decisionOf rule (Some [0; 1; 2; 3; 4]%nat)))
  /\ (madeHandRule (hand_rank (evaluateHand cards)) = None ->
      hasFlushDraw (has4CardFlushDraw cards) = true ->
      decide cards HTRegistry
      = Ok (decisionOf rule_H4_4FL (flush_cardsToHold (has4CardFlushDraw cards))))
  /\ (madeHandRule (hand_rank (evaluateHand cards)) = None ->
      hasFlushDraw (has4CardFlushDraw cards) = false ->
      hasStraightDraw (has4CardStraightDraw cards) = true ->
      decide cards HTRegistry
      = Ok (decisionOf rule_H4_4ST
              (straight_cardsToHold (has4CardStraightDraw cards)))).
Proof.
  intros Hfive. rewrite (@decide_five _ cards HTRegistry Hfive).
  rewrite getAllRules_HTRegistry. unfold defaultRules.
  split; [| split].
  - intros rule Hrule.
    destruct (hand_rank (evaluateHand cards)) eqn:Hrank;
      simpl in Hrule; try discriminate; injection Hrule as <-;
      cbn -[evaluateHand has4CardFlushDraw has4CardStraightDraw];
      unfold holdAllOn; rewrite Hrank; reflexivity.
  - intros Hnone Hflush.
    destruct (hand_rank (evaluateHand cards)) eqn:Hrank;
      simpl in Hnone; try discriminate;
      cbn -[evaluateHand has4CardFlushDraw has4CardStraightDraw];
      unfold holdAllOn; rewrite Hrank;
      cbn -[evaluateHand has4CardFlushDraw has4CardStraightDraw];
      rewrite Hflush; reflexivity.
  - intros Hnone Hflush Hstraight.
    destruct (hand_rank (evaluateHand cards)) eqn:Hrank;
      simpl in Hnone; try discriminate;
      cbn -[evaluateHand has4CardFlushDraw has4CardStraightDraw];
      unfold holdAllOn; rewrite Hrank;
      cbn -[evaluateHand has4CardFlushDraw has4CardStraightDraw];
      rewrite Hflush, Hstraight; reflexivity.
Qed.

(** A classifier for closed examples that reads every hand as the rank
    and the draws it is given. *)
Definition readingEvaluator (r : HandRank) (flushHold straightHold : option (list nat))
  : HandEvaluator :=
  {| evaluateHand := fun _ => {| hand_rank := r; hand_name := "" |};
     has4CardFlushDraw :=
       fun _ => {| hasFlushDraw := match flushHold with Some _ => true | None => false end;
                   flush_cardsToHold := flushHold |};
     has4CardStraightDraw :=
       fun _ => {| hasStraightDraw :=
                     match straightHold with Some _ => true | None => false end;
                   straight_cardsToHold := straightHold |};
     compareHands := fun _ _ => 0 |}.

(** A straight that is also four hearts. *)
Definition straightHand : list Card :=
  [ {| rank := R5; suit := hearts |}; {| rank := R6; suit := hearts |};
    {| rank := R7; suit := hearts |}; {| rank := R8; suit := hearts |};
    {| rank := R9; suit := clubs |} ].

(** A pair of kings with four hearts. *)
Definition pairFlushHand : list Card :=
  [ {| rank := RK; suit := hearts |}; {| rank := RK; suit := diamonds |};
    {| rank := R7; suit := hearts |}; {| rank := R4; suit := hearts |};
    {| rank := R2; suit := hearts |} ].

(** A pair of eights with 5-6-7-8. *)
Definition pairStraightHand : list Card :=
  [ {| rank := R5; suit := clubs |}; {| rank := R6; suit := diamonds |};
    {| rank := R7; suit := hearts |}; {| rank := R8; suit := spades |};
    {| rank := R8; suit := clubs |} ].

Lemma singleton_made_hands_and_draws_witness :
  decide (H := readingEvaluator straight (Some [0; 1; 2; 3]%nat) (Some [0; 1; 2; 3]%nat))
    straightHand
    (HTRegistry (H := readingEvaluator straight (Some [0; 1; 2; 3]%nat)
                        (Some [0; 1; 2; 3]%nat)))
  = Ok (decisionOf
          rule_H5_ST
          (Some [0; 1; 2; 3; 4]%nat))
  /\ decide (H := readingEvaluator pair (Some [0; 2; 3; 4]%nat) None) pairFlushHand
       (HTRegistry (H := readingEvaluator pair (Some [0; 2; 3; 4]%nat) None))
     = Ok (decisionOf
             (rule_H4_4FL (H := readingEvaluator pair (Some [0; 2; 3; 4]%nat) None))
             (Some [0; 2; 3; 4]%nat))
  /\ decide (H := readingEvaluator pair None (Some [0; 1; 2; 3]%nat)) pairStraightHand
       (HTRegistry (H := readingEvaluator pair None (Some [0; 1; 2; 3]%nat)))
     = Ok (decisionOf
             (rule_H4_4ST (H := readingEvaluator pair None (Some [0; 1; 2; 3]%nat)))
             (Some [0; 1; 2; 3]%nat)).
Proof.
  split; [| split].
  - apply (proj1 (@singleton_made_hands_and_draws
                    (readingEvaluator straight (Some [0; 1; 2; 3]%nat)
                       (Some [0; 1; 2; 3]%nat))
                    straightHand eq_refl)).
    reflexivity.
  - apply (proj1 (proj2 (@singleton_made_hands_and_draws
                           (readingEvaluator pair (Some [0; 2; 3; 4]%nat) None)
                           pairFlushHand eq_refl))); reflexivity.
  - apply (proj2 (proj2 (@singleton_made_hands_and_draws
                           (readingEvaluator pair None (Some [0; 1; 2; 3]%nat))
                           pairStraightHand eq_refl))); reflexivity.
Defined.

(** ** Registration *)

Section MapUpdates.

Variable V : Type.
Implicit Types (m : Map V) (k : string) (v : V).

Lemma Map_get_delete_same k m :
  NoDup (Map_keys m) -> Map_get k (Map_delete k m) = None.
Proof.
  induction m as [| [k' v'] m IH]; simpl; intros Hnd; [reflexivity |].
  inversion Hnd as [| ? ? Hnotin Hnd']; subst.
  destruct (String.eqb k' k) eqn:E.
  - apply String.eqb_eq in E. subst k'. now apply Map_get_None.
  - simpl. rewrite E. now apply IH.
Qed.

Lemma Map_get_delete_other k k0 m :
  k <> k0 -> Map_get k0 (Map_delete k m) = Map_get k0 m.
Proof.
  intros Hne. induction m as [| [k' v'] m IH]; simpl; [reflexivity |].
  destruct (String.eqb k' k) eqn:E.
  - apply String.eqb_eq in E. subst k'.
    apply String.eqb_neq in Hne. now rewrite Hne.
  - simpl. destruct (String.eqb k' k0); [reflexivity | exact IH].
Qed.

Lemma Map_delete_set_fresh k v m :
  Map_get k m = None -> Map_delete k (Map_set k v m) = m.
Proof.
  induction m as [| [k' v'] m IH]; simpl.
  - intros _. now rewrite String.eqb_refl.
  - destruct (String.eqb k' k) eqn:E; [discriminate |].
    intros Hnone. simpl. rewrite E. now rewrite IH.
Qed.

Lemma Map_set_same_value k v m : Map_get k m = Some v -> Map_set k v m = m.
Proof.
  induction m as [| [k' v'] m IH]; simpl; [discriminate |].
  destruct (String.eqb k' k) eqn:E.
  - now intros [= ->].
  - intros Hget. now rewrite IH.
Qed.

Lemma Map_set_set k v1 v2 m : Map_set k v2 (Map_set k v1 m) = Map_set k v2 m.
Proof.
  induction m as [| [k' v'] m IH]; simpl.
  - now rewrite String.eqb_refl.
  - destruct (String.eqb k' k) eqn:E; simpl; rewrite E; [reflexivity | now rewrite IH].
Qed.

Lemma In_Map_set_present k k0 v v0 vold m :
  Map_get k m = Some vold ->
  NoDup (Map_keys m) ->
  (In (k0, v0) (Map_set k v m) <->
   (k0 = k /\ v0 = v) \/ (k0 <> k /\ In (k0, v0) m)).
Proof.
  induction m as [| [k' v'] m IH]; simpl; [discriminate |].
  intros Hget Hnd. inversion Hnd as [| ? ? Hnotin Hnd']; subst.
  destruct (String.eqb k' k) eqn:E.
  - apply String.eqb_eq in E. subst k'. simpl. split.
    + intros [[= -> ->] | Hin]; [now left |].
      right. split; [| now right].
      intros ->. apply Hnotin. change k with (fst (k, v0)). now apply in_map.
    + intros [[-> ->] | [Hne [[= -> ->] | Hin]]]; [now left | contradiction | now right].
  - apply String.eqb_neq in E. simpl. rewrite (IH Hget Hnd'). split.
    + intros [[= -> ->] | [[-> ->] | [Hne Hin]]].
      * right. split; [exact E | now left].
      * now left.
      * right. split; [exact Hne | now right].
    + intros [[-> ->] | [Hne [[= -> ->] | Hin]]].
      * right. now left.
      * now left.
      * right. right. now split.
Qed.

End MapUpdates.

(** X4.  [register] makes the rule retrievable under its identifier with
    fresh, empty statistics (so registering again resets the counters of
    a rule already present) and leaves every other rule and its
    statistics as they were; an identifier already present keeps its
    place in the registration order, a new one goes last. *)
Theorem register_lookup (rule : HTRule) (registry : HTRegistryClass) :
  getRule (id rule) (register rule registry) = Some rule
  /\ getStats (id rule) (register rule registry) = Some createEmptyStats
  /\ (forall k, k <> id rule ->
        getRule k (register rule registry) = getRule k registry
        /\ getStats k (register rule registry) = getStats k registry)
  /\ Map_keys (rules (register rule registry))
     = (if existsb (String.eqb (id rule)) (Map_keys (rules registry))
        then Map_keys (rules registry)
        else Map_keys (rules registry) ++ [id rule]).
Proof.
  unfold getRule, getStats, register. cbn [rules stats].
  split; [apply Map_get_set_same | split; [apply Map_get_set_same | split]].
  - intros k Hne. split; apply Map_get_set_other; congruence.
  - rewrite Map_keys_set. generalize (Map_keys (rules registry)) as ks.
    induction ks as [| k' ks IH]; simpl; [reflexivity |].
    rewrite (String.eqb_sym (id rule) k').
    destruct (String.eqb k' (id rule)); simpl; [reflexivity |].
    rewrite IH. now destruct (existsb (String.eqb (id rule)) ks).
Qed.

(** X5.  In a registry built by the class, [unregister] removes the rule
    and its statistics, touches no other identifier and answers [true]
    whether or not the identifier was present; unregistering a rule just
    registered under a new identifier gives the registry back. *)
Theorem unregister_lookup (htId : string) (registry : HTRegistryClass) :
  registry_wf registry ->
  snd (unregister htId registry) = true
  /\ getRule htId (fst (unregister htId registry)) = None
  /\ getStats htId (fst (unregister htId registry)) = None
  /\ (forall k, k <> htId ->
        getRule k (fst (unregister htId registry)) = getRule k registry
        /\ getStats k (fst (unregister htId registry)) = getStats k registry)
  /\ (forall rule,
        id rule = htId -> getRule htId registry = None ->
        fst (unregister htId (register rule registry)) = registry).
Proof.
  intros Hwf. unfold getRule, getStats, unregister. cbn [fst snd rules stats].
  split; [reflexivity |].
  split; [apply Map_get_delete_same, (wf_nodup Hwf) |].
  split; [apply Map_get_delete_same; rewrite (wf_stats Hwf); apply (wf_nodup Hwf) |].
  split.
  - intros k Hne. split; apply Map_get_delete_other; congruence.
  - intros rule Hid Hnone. unfold register. cbn [rules stats]. rewrite Hid.
    assert (Hstats : Map_get htId (stats registry) = None).
    { apply Map_get_None. rewrite (wf_stats Hwf). now apply Map_get_None. }
    rewrite !Map_delete_set_fresh by assumption. now destruct registry.
Qed.

Lemma unregister_lookup_witness :
  snd (unregister "H0.DRAW5" oneRuleRegistry) = true
  /\ getRule "H0.DRAW5" (fst (unregister "H0.DRAW5" oneRuleRegistry)) = None
  /\ getStats "H0.DRAW5" (fst (unregister "H0.DRAW5" oneRuleRegistry)) = None
  /\ (forall k, k <> "H0.DRAW5" ->
        getRule k (fst (unregister "H0.DRAW5" oneRuleRegistry))
        = getRule k oneRuleRegistry
        /\ getStats k (fst (unregister "H0.DRAW5" oneRuleRegistry))
           = getStats k oneRuleRegistry)
  /\ (forall rule,
        id rule = "H0.DRAW5" -> getRule "H0.DRAW5" oneRuleRegistry = None ->
        fst (unregister "H0.DRAW5" (register rule oneRuleRegistry))
        = oneRuleRegistry).
Proof.
  apply (@unregister_lookup "H0.DRAW5" oneRuleRegistry).
  apply register_wf, emptyRegistry_wf.
Defined.

(** ** Enabling and disabling *)

Lemma set_enabled_same (rule : HTRule) : set_enabled rule (enabled rule) = rule.
Proof. now destruct rule. Qed.

Lemma set_enabled_twice (rule : HTRule) (e1 e2 : bool) :
  set_enabled (set_enabled rule e1) e2 = set_enabled rule e2.
Proof. reflexivity. Qed.

(** X6.  [setEnabled] on an identifier that is not registered changes
    nothing.  On a registered one it replaces the rule by a copy that
    differs in the [enabled] flag only, in place, and leaves the other
    rules and all statistics alone; disabling an enabled rule and enabling
    it again gives the registry back. *)
Theorem setEnabled_effect (htId : string) (e : bool) (registry : HTRegistryClass) :
  (getRule htId registry = None -> setEnabled htId e registry = registry)
  /\ (forall rule, getRule htId registry = Some rule ->
        getRule htId (setEnabled htId e registry) = Some (set_enabled rule e))
  /\ (forall k, k <> htId ->
        getRule k (setEnabled htId e registry) = getRule k registry)
  /\ stats (setEnabled htId e registry) = stats registry
  /\ Map_keys (rules (setEnabled htId e registry)) = Map_keys (rules registry)
  /\ (enabledOf registry htId = Some e ->
      setEnabled htId e (setEnabled htId (negb e) registry) = registry).
Proof.
  unfold getRule, enabledOf, setEnabled.
  destruct (Map_get htId (rules registry)) as [rule |] eqn:Hget; cbn [rules stats].
  - split; [discriminate |].
    split; [intros r [= <-]; apply Map_get_set_same |].
    split; [intros k Hne; apply Map_get_set_other; congruence |].
    split; [reflexivity |].
    split; [eapply Map_keys_set_present; exact Hget |].
    unfold getRule. rewrite Hget. cbn [option_map]. intros [= He].
    rewrite Map_get_set_same. cbn [rules stats].
    rewrite Map_set_set, set_enabled_twice, <- He, set_enabled_same.
    rewrite (Map_set_same_value _ _ Hget). now destruct registry.
  - split; [reflexivity |].
    split; [discriminate |].
    split; [reflexivity |].
    split; [reflexivity |].
    split; [reflexivity |].
    unfold getRule. rewrite Hget. discriminate.
Qed.

(** X7.  In a registry built by the class, disabling a rule removes
    exactly the rule registered under that identifier from the list
    [decide] works on. *)
Theorem getAllRules_after_disable (htId : string) (registry : HTRegistryClass)
    (rule : HTRule) :
  registry_wf registry ->
  (In rule (getAllRules (setEnabled htId false registry))
   <-> In rule (getAllRules registry) /\ id rule <> htId).
Proof.
  intros Hwf. rewrite !In_getAllRules.
  pose proof (wf_keyed Hwf) as Hkeyed. rewrite Forall_forall in Hkeyed.
  unfold setEnabled.
  destruct (Map_get htId (rules registry)) as [old |] eqn:Hget; cbn [rules].
  - split.
    + intros [Hin Hen]. apply In_Map_values in Hin as [k Hin].
      apply (@In_Map_set_present HTRule htId k (set_enabled old false) rule old
               (rules registry) Hget (wf_nodup Hwf)) in Hin
        as [[-> ->] | [Hne Hin]]; [discriminate |].
      split; [split; [eapply Map_values_In; exact Hin | exact Hen] |].
      specialize (Hkeyed _ Hin). simpl in Hkeyed. congruence.
    + intros [[Hin Hen] Hne]. split; [| exact Hen].
      apply In_Map_values in Hin as [k Hin].
      apply Map_values_In with (k := k).
      apply (@In_Map_set_present HTRule htId k (set_enabled old false) rule old
               (rules registry) Hget (wf_nodup Hwf)). right.
      split; [| exact Hin].
      specialize (Hkeyed _ Hin). simpl in Hkeyed. congruence.
  - split.
    + intros [Hin Hen]. split; [now split |].
      apply In_Map_values in Hin as [k Hin].
      specialize (Hkeyed _ Hin). simpl in Hkeyed. intros Heq.
      apply Map_get_None in Hget. apply Hget.
      rewrite <- Heq, Hkeyed. change k with (fst (k, rule)). now apply in_map.
    + now intros [Hin _].
Qed.

(** The registry holding the high-card rule and the draw-five rule. *)
Definition twoRuleRegistry : HTRegistryClass :=
  register rule_H1_HC oneRuleRegistry.

Lemma getAllRules_after_disable_witness :
  registry_wf twoRuleRegistry
  /\ In rule_H1_HC (getAllRules twoRuleRegistry)
  /\ ~ In rule_H1_HC
         (getAllRules (setEnabled "H1.HC" false twoRuleRegistry))
  /\ In rule_H0_DRAW5 (getAllRules (setEnabled "H1.HC" false twoRuleRegistry)).
Proof.
  assert (Hwf : registry_wf twoRuleRegistry)
    by (apply register_wf, register_wf, emptyRegistry_wf).
  split; [exact Hwf |]. split; [simpl; auto |]. split.
  - intros Hin.
    apply (@getAllRules_after_disable "H1.HC" twoRuleRegistry
             rule_H1_HC Hwf) in Hin.
    destruct Hin as [_ Hne]. apply Hne. reflexivity.
  - apply (@getAllRules_after_disable "H1.HC" twoRuleRegistry rule_H0_DRAW5 Hwf).
    split; [simpl; auto | discriminate].
Defined.

Lemma setEnabled_getRule (htId k : string) (e : bool) (registry : HTRegistryClass) :
  getRule k (setEnabled htId e registry) =
  if String.eqb htId k
  then option_map (fun rule => set_enabled rule e) (getRule k registry)
  else getRule k registry.
Proof.
  unfold getRule, setEnabled.
  destruct (String.eqb htId k) eqn:E.
  - apply String.eqb_eq in E. subst k.
    destruct (Map_get htId (rules registry)) as [rule |] eqn:Hget; cbn [rules].
    + now rewrite Map_get_set_same.
    + now rewrite Hget.
  - apply String.eqb_neq in E.
    destruct (Map_get htId (rules registry)) as [rule |] eqn:Hget; cbn [rules].
    + now rewrite Map_get_set_other.
    + reflexivity.
Qed.

Lemma setEnabled_keys (htId : string) (e : bool) (registry : HTRegistryClass) :
  Map_keys (rules (setEnabled htId e registry)) = Map_keys (rules registry).
Proof.
  unfold setEnabled.
  destruct (Map_get htId (rules registry)) as [rule |] eqn:Hget; [| reflexivity].
  cbn [rules]. eapply Map_keys_set_present. exact Hget.
Qed.

(** A rule that is already disabled is not changed by disabling it. *)
Lemma setEnabled_disabled (htId : string) (registry : HTRegistryClass) :
  enabledOf registry htId <> Some true -> setEnabled htId false registry = registry.
Proof.
  unfold enabledOf, getRule, setEnabled.
  destruct (Map_get htId (rules registry)) as [rule |] eqn:Hget; [| reflexivity].
  cbn [option_map]. intros Hoff.
  assert (He : enabled rule = false) by (destruct (enabled rule); congruence).
  rewrite <- He, set_enabled_same, (Map_set_same_value _ _ Hget).
  now destruct registry.
Qed.

(** The rule registered under [k] after [mitigateExploits]. *)
Lemma mitigateExploits_getRule (this : AIBalancingEngine)
    (exploits : list Exploit) (k : string) :
  forall registry,
  getRule k (fst (mitigateExploits this exploits registry)) =
  if flagged this exploits k
  then option_map (fun rule => set_enabled rule false) (getRule k registry)
  else getRule k registry.
Proof.
  induction exploits as [| e es IH]; intros registry; simpl; [reflexivity |].
  destruct (gtb (ev e) (maxExploitEV (objective this) * 2)) eqn:Hgt.
  - specialize (IH (setEnabled (exploit_htId e) false registry)).
    destruct (mitigateExploits this es _) as [registry' warned].
    simpl in *. rewrite IH, setEnabled_getRule.
    rewrite andb_true_r.
    destruct (String.eqb (exploit_htId e) k); simpl.
    + destruct (flagged this es k); destruct (getRule k registry); reflexivity.
    + reflexivity.
  - rewrite andb_false_r. simpl. apply IH.
Qed.

Lemma mitigateExploits_keys (this : AIBalancingEngine) (exploits : list Exploit) :
  forall registry,
  Map_keys (rules (fst (mitigateExploits this exploits registry)))
  = Map_keys (rules registry).
Proof.
  induction exploits as [| e es IH]; intros registry; simpl; [reflexivity |].
  destruct (gtb (ev e) (maxExploitEV (objective this) * 2)).
  - specialize (IH (setEnabled (exploit_htId e) false registry)).
    destruct (mitigateExploits this es _) as [registry' warned].
    simpl in *. now rewrite IH, setEnabled_keys.
  - apply IH.
Qed.

(** A pass over exploits whose rules are all disabled already changes
    nothing. *)
Lemma mitigateExploits_settled (this : AIBalancingEngine) (exploits : list Exploit)
    (registry : HTRegistryClass) :
  (forall k, flagged this exploits k = true -> enabledOf registry k <> Some true) ->
  fst (mitigateExploits this exploits registry) = registry.
Proof.
  induction exploits as [| e es IH]; intros Hoff; simpl; [reflexivity |].
  destruct (gtb (ev e) (maxExploitEV (objective this) * 2)) eqn:Hgt.
  - assert (Hsame : setEnabled (exploit_htId e) false registry = registry).
    { apply setEnabled_disabled, Hoff. simpl.
      now rewrite String.eqb_refl, Hgt. }
    rewrite Hsame.
    assert (IH' : fst (mitigateExploits this es registry) = registry).
    { apply IH. intros k Hk. apply Hoff. simpl. rewrite Hk. apply orb_true_r. }
    destruct (mitigateExploits this es registry) as [registry' warned].
    exact IH'.
  - apply IH. intros k Hk. apply Hoff. simpl. rewrite Hk. apply orb_true_r.
Qed.

(** X8.  [mitigateExploits] only ever disables: every rule is afterwards
    the rule it was, with its [enabled] flag cleared when one of the
    exploits naming it has an EV above twice the ceiling, so that a rule
    enabled afterwards was enabled before; the registered identifiers,
    their order and the statistics are unchanged, and a second pass over
    the same exploits gives the same registry. *)
Theorem mitigateExploits_only_disables (this : AIBalancingEngine)
    (exploits : list Exploit) (registry : HTRegistryClass) :
  (forall k,
      getRule k (fst (mitigateExploits this exploits registry)) =
      if flagged this exploits k
      then option_map (fun rule => set_enabled rule false) (getRule k registry)
      else getRule k registry)
  /\ (forall k,
        enabledOf (fst (mitigateExploits this exploits registry)) k = Some true ->
        enabledOf registry k = Some true)
  /\ (forall k,
        enabledOf (fst (mitigateExploits this exploits registry)) k = None
        <-> enabledOf registry k = None)
  /\ Map_keys (rules (fst (mitigateExploits this exploits registry)))
     = Map_keys (rules registry)
  /\ stats (fst (mitigateExploits this exploits registry)) = stats registry
  /\ fst (mitigateExploits this exploits
            (fst (mitigateExploits this exploits registry)))
     = fst (mitigateExploits this exploits registry).
Proof.
  split; [intros k; apply mitigateExploits_getRule |].
  split; [| split].
  - intros k. rewrite mitigateExploits_enabledOf.
    destruct (flagged this exploits k); destruct (enabledOf registry k);
      simpl; congruence.
  - intros k. rewrite mitigateExploits_enabledOf.
    destruct (flagged this exploits k); destruct (enabledOf registry k);
      simpl; split; congruence.
  - split; [apply mitigateExploits_keys |].
    split; [apply mitigateExploits_stats |].
    apply mitigateExploits_settled. intros k Hk.
    rewrite mitigateExploits_enabledOf, Hk.
    destruct (enabledOf registry k); simpl; congruence.
Qed.

(** ** Statistics *)

Lemma Map_get_map_const (V : Type) (c : V) (k : string) (m : Map V) :
  Map_get k (List.map (fun kv => (fst kv, c)) m)
  = option_map (fun _ => c) (Map_get k m).
Proof.
  induction m as [| [k' v'] m IH]; simpl; [reflexivity |].
  destruct (String.eqb k' k); [reflexivity | exact IH].
Qed.

Definition byEv (a b : Exploit) : number := ev b - ev a.

Lemma byEv_total (a b : Exploit) : before byEv a b \/ before byEv b a.
Proof.
  unfold before, byEv. destruct (Qlt_le_dec (ev a) (ev b)); [right | left]; lra.
Qed.

Lemma byEv_trans (a b c : Exploit) :
  before byEv a b -> before byEv b c -> before byEv a c.
Proof. unfold before, byEv. intros. lra. Qed.

(** X9.  [getExploitableHTs] reports exactly the identifiers whose
    statistics show more than 100 uses and a calculated EV above the
    threshold, each with that EV, in an order in which the EV never
    increases. *)
Theorem getExploitableHTs_spec (threshold : number) (registry : HTRegistryClass) :
  (forall e,
      In e (getExploitableHTs threshold registry)
      <-> exists s,
            In (exploit_htId e, s) (stats registry)
            /\ ev e = calculatedEV s
            /\ 100 < usageCount s
            /\ threshold < calculatedEV s)
  /\ StronglySorted (fun a b => ev b <= ev a) (getExploitableHTs threshold registry).
Proof.
  unfold getExploitableHTs. fold byEv. split.
  - intros e. rewrite In_Array_sort, in_map_iff. split.
    + intros [[k s] [<- Hin]]. apply filter_In in Hin as [Hin Hok].
      apply andb_true_iff in Hok as [Huse Hev]. cbn [fst snd] in *.
      apply gtb_true in Huse, Hev. exists s. cbn [exploit_htId ev]. auto.
    + intros [s [Hin [Hev [Huse Hthr]]]]. exists (exploit_htId e, s). split.
      * cbn [fst snd]. destruct e as [k v]. cbn [exploit_htId ev] in *. now subst.
      * apply filter_In. split; [exact Hin |]. cbn [fst snd].
        apply andb_true_iff. split; now apply gtb_true.
  - match goal with |- StronglySorted _ (Array_sort _ ?l) =>
      pose proof (Array_sort_sorted byEv_total byEv_trans l) as Hs;
      induction Hs as [| a l' Hs IH Hall]
    end; constructor; [exact IH |].
    rewrite Forall_forall in *. intros b Hb.
    specialize (Hall b Hb). unfold before, byEv in Hall. lra.
Qed.

(** X10.  [resetStats] gives every registered identifier empty
    statistics, keeps the identifiers and the rules, and leaves no rule
    exploitable at any threshold. *)
Theorem resetStats_clears (registry : HTRegistryClass) :
  (forall k, getStats k (resetStats registry)
             = option_map (fun _ => createEmptyStats) (getStats k registry))
  /\ Map_keys (stats (resetStats registry)) = Map_keys (stats registry)
  /\ rules (resetStats registry) = rules registry
  /\ forall threshold, getExploitableHTs threshold (resetStats registry) = [].
Proof.
  unfold getStats, resetStats. cbn [rules stats].
  split; [intros k; apply Map_get_map_const |].
  split; [unfold Map_keys; rewrite map_map; reflexivity |].
  split; [reflexivity |].
  intros threshold. unfold getExploitableHTs. cbn [stats].
  induction (stats registry) as [| [k s] m IH]; [reflexivity |].
  simpl. exact IH.
Qed.

(** The counters of a rule add up, and its EV is the one of its totals. *)
Definition statsConsistent (s : HTStats) : Prop :=
  usageCount s == winCount s + lossCount s + bustCount s
  /\ (0 < totalWagered s ->
      calculatedEV s = (totalWon s - totalWagered s) / totalWagered s).

Lemma createEmptyStats_consistent : statsConsistent createEmptyStats.
Proof.
  split; [reflexivity |]. cbn [totalWagered createEmptyStats]. intros H. lra.
Qed.

(** X11.  [recordOutcome] with [win], [lose] or [bust] on a registered
    identifier adds one use, adds one to the counter of that outcome and
    leaves the other two counters as they were, adds the amounts to the
    two totals, and keeps the counters adding up to the use count; the EV
    is recomputed from the new totals whenever the total wagered is
    positive.  The rules and the statistics of every other identifier are
    untouched. *)
Theorem recordOutcome_counts (htId : string) (o : Outcome) (wagered won : number)
    (tubeType : option string) (registry : HTRegistryClass) (s : HTStats) :
  o <> tie ->
  getStats htId registry = Some s ->
  exists s',
    getStats htId (recordOutcome htId o wagered won tubeType registry) = Some s'
    /\ usageCount s' = usageCount s + 1
    /\ (winCount s', lossCount s', bustCount s')
       = match o with
         | win => (winCount s + 1, lossCount s, bustCount s)
         | lose => (winCount s, lossCount s + 1, bustCount s)
         | _ => (winCount s, lossCount s, bustCount s + 1)
         end
    /\ winCount s' + lossCount s' + bustCount s'
       == winCount s + lossCount s + bustCount s + 1
    /\ totalWagered s' = totalWagered s + wagered
    /\ totalWon s' = totalWon s + won
    /\ (statsConsistent s -> statsConsistent s')
    /\ rules (recordOutcome htId o wagered won tubeType registry) = rules registry
    /\ (forall k, k <> htId ->
          getStats k (recordOutcome htId o wagered won tubeType registry)
          = getStats k registry).
Proof.
  intros Hnot Hget. unfold getStats in *. unfold recordOutcome. rewrite Hget.
  cbn [rules stats]. eexists. split; [apply Map_get_set_same |].
  cbn [usageCount winCount lossCount bustCount totalWagered totalWon calculatedEV].
  split; [reflexivity |].
  split; [destruct o; try contradiction; reflexivity |].
  split; [destruct o; try contradiction; ring |].
  split; [reflexivity |]. split; [reflexivity |]. split.
  - intros [Hsum _]. split.
    + cbn [usageCount winCount lossCount bustCount].
      rewrite Hsum. destruct o; try contradiction; ring.
    + cbn [totalWagered totalWon calculatedEV]. intros Hpos.
      apply gtb_true in Hpos. now rewrite Hpos.
  - split; [reflexivity |].
    intros k Hne. apply Map_get_set_other. congruence.
Qed.

Lemma recordOutcome_counts_witness :
  exists s',
    getStats "H0.DRAW5" (recordOutcome "H0.DRAW5" lose 5 0 None oneRuleRegistry)
    = Some s'
    /\ usageCount s' = usageCount createEmptyStats + 1
    /\ (winCount s', lossCount s', bustCount s')
       = (winCount createEmptyStats, lossCount createEmptyStats + 1,
          bustCount createEmptyStats)
    /\ winCount s' + lossCount s' + bustCount s'
       == winCount createEmptyStats + lossCount createEmptyStats
          + bustCount createEmptyStats + 1
    /\ totalWagered s' = totalWagered createEmptyStats + 5
    /\ totalWon s' = totalWon createEmptyStats + 0
    /\ (statsConsistent createEmptyStats -> statsConsistent s')
    /\ rules (recordOutcome "H0.DRAW5" lose 5 0 None oneRuleRegistry)
       = rules oneRuleRegistry
    /\ (forall k, k <> "H0.DRAW5" ->
          getStats k (recordOutcome "H0.DRAW5" lose 5 0 None oneRuleRegistry)
          = getStats k oneRuleRegistry).
Proof.
  apply (@recordOutcome_counts "H0.DRAW5" lose 5 0 None oneRuleRegistry
           createEmptyStats).
  - discriminate.
  - reflexivity.
Defined.

(** ** Groups of equal rank *)

(** The positions [i], [i + 1], ... of the cards of rank [r]. *)
Fixpoint positionsFrom (i : nat) (r : Rank) (cards : list Card) : list nat :=
  match cards with
  | [] => []
  | card :: cards' =>
      if Rank_eqb (rank card) r then i :: positionsFrom (S i) r cards'
      else positionsFrom (S i) r cards'
  end.

(** The entry of rank [r] in [groups], empty when there is none. *)
Fixpoint groupOf (r : Rank) (groups : list (Rank * list nat)) : list nat :=
  match groups with
  | [] => []
  | (r', positions) :: groups' =>
      if Rank_eqb r' r then positions else groupOf r groups'
  end.

Lemma Rank_eqb_eq (a b : Rank) : Rank_eqb a b = true <-> a = b.
Proof. destruct a, b; simpl; split; intros; congruence. Qed.

Lemma Rank_eqb_refl (a : Rank) : Rank_eqb a a = true.
Proof. now apply Rank_eqb_eq. Qed.

Lemma Rank_eqb_neq (a b : Rank) : Rank_eqb a b = false <-> a <> b.
Proof.
  rewrite <- Rank_eqb_eq. destruct (Rank_eqb a b); split; congruence.
Qed.

Lemma groupOf_push (r r' : Rank) (i : nat) (groups : list (Rank * list nat)) :
  groupOf r (group_push r' i groups)
  = if Rank_eqb r' r then groupOf r groups ++ [i] else groupOf r groups.
Proof.
  induction groups as [| [r0 ps] groups IH]; simpl.
  - now destruct (Rank_eqb r' r).
  - destruct (Rank_eqb r0 r') eqn:E0; simpl.
    + apply Rank_eqb_eq in E0. subst r0.
      now destruct (Rank_eqb r' r).
    + destruct (Rank_eqb r0 r) eqn:E1; [| exact IH].
      apply Rank_eqb_eq in E1. subst r0.
      apply Rank_eqb_neq in E0.
      assert (Rank_eqb r' r = false) as -> by (apply Rank_eqb_neq; congruence).
      reflexivity.
Qed.

Lemma groupOf_groupByRank (r : Rank) (cards : list Card) :
  forall i groups,
  groupOf r (groupByRank i cards groups)
  = groupOf r groups ++ positionsFrom i r cards.
Proof.
  induction cards as [| c cards IH]; intros i groups; simpl.
  - now rewrite app_nil_r.
  - rewrite IH, groupOf_push.
    destruct (Rank_eqb (rank c) r); [now rewrite <- app_assoc | reflexivity].
Qed.

(** The groups an insertion sequence builds: distinct ranks, no empty
    entry. *)
Definition groups_ok (groups : list (Rank * list nat)) : Prop :=
  NoDup (List.map fst groups) /\ Forall (fun g => snd g <> []) groups.

Lemma In_group_push_keys (r r' : Rank) (i : nat) (groups : list (Rank * list nat)) :
  In r (List.map fst (group_push r' i groups)) ->
  r = r' \/ In r (List.map fst groups).
Proof.
  induction groups as [| [r0 ps] groups IH]; simpl.
  - intros [<- | []]. now left.
  - destruct (Rank_eqb r0 r'); simpl.
    + intros H. now right.
    + intros [<- | Hin]; [right; now left |].
      destruct (IH Hin); [now left | right; now right].
Qed.

Lemma group_push_ok (r : Rank) (i : nat) (groups : list (Rank * list nat)) :
  groups_ok groups -> groups_ok (group_push r i groups).
Proof.
  intros [Hnd Hne]. induction groups as [| [r0 ps] groups IH]; simpl.
  - split; [constructor; [intros [] | constructor] |].
    constructor; [discriminate | constructor].
  - inversion Hnd as [| ? ? Hnotin Hnd']; subst.
    inversion Hne as [| ? ? Hps Hne']; subst.
    destruct (IH Hnd' Hne') as [IHnd IHne].
    destruct (Rank_eqb r0 r) eqn:E; simpl.
    + split; [exact Hnd |]. constructor; [| exact Hne'].
      simpl. now destruct ps.
    + split.
      * constructor; [| exact IHnd].
        intros Hin. apply In_group_push_keys in Hin as [Heq | Hin].
        -- simpl in Heq. rewrite Heq, Rank_eqb_refl in E. discriminate.
        -- exact (Hnotin Hin).
      * constructor; [exact Hps | exact IHne].
Qed.

Lemma groupByRank_ok (cards : list Card) :
  forall i groups, groups_ok groups -> groups_ok (groupByRank i cards groups).
Proof.
  induction cards as [| c cards IH]; intros i groups Hok; simpl; [exact Hok |].
  apply IH. now apply group_push_ok.
Qed.

Lemma In_groupOf (r : Rank) (ps : list nat) (groups : list (Rank * list nat)) :
  NoDup (List.map fst groups) -> In (r, ps) groups -> groupOf r groups = ps.
Proof.
  induction groups as [| [r0 ps0] groups IH]; simpl; [intros _ [] |].
  intros Hnd [Heq | Hin].
  - injection Heq as -> ->. now rewrite Rank_eqb_refl.
  - inversion Hnd as [| ? ? Hnotin Hnd']; subst.
    destruct (Rank_eqb r0 r) eqn:E; [| now apply IH].
    apply Rank_eqb_eq in E. subst r0. exfalso. apply Hnotin.
    change r with (fst (r, ps)). now apply in_map.
Qed.

Lemma groupOf_In (r : Rank) (groups : list (Rank * list nat)) :
  groupOf r groups <> [] -> In (r, groupOf r groups) groups.
Proof.
  induction groups as [| [r0 ps0] groups IH]; simpl; [congruence |].
  destruct (Rank_eqb r0 r) eqn:E.
  - apply Rank_eqb_eq in E. subst r0. now left.
  - intros Hne. right. now apply IH.
Qed.

Lemma In_insert_integer (k k0 : nat) (v v0 : list nat) (l : list (nat * list nat)) :
  In (k0, v0) (insert_integer k v l) <-> (k0, v0) = (k, v) \/ In (k0, v0) l.
Proof.
  induction l as [| [k' v'] l IH]; simpl.
  - split; [intros [H | []]; left; congruence | intros [H | []]; left; congruence].
  - destruct (Nat.leb k k'); simpl.
    + split; [intros [H | H]; [left; congruence | now right]
             | intros [H | H]; [left; congruence | now right]].
    + rewrite IH. split.
      * intros [H | [H | H]]; [right; now left | now left | right; now right].
      * intros [H | [H | H]]; [right; now left | now left | right; now right].
Qed.

(** [Object.values] lists the value of every entry, and nothing else. *)
Lemma In_Object_values (v : list nat) (groups : list (Rank * list nat)) :
  In v (Object_values groups) <-> exists r, In (r, v) groups.
Proof.
  unfold Object_values. rewrite in_app_iff, in_map_iff.
  induction groups as [| [r0 v0] groups IH]; simpl.
  - split; [intros [[x [_ []]] | []] | intros [r []]].
  - destruct (integerKey r0) as [k |] eqn:Hk.
    + split.
      * intros [[[k1 v1] [<- Hin]] | Hin].
        -- apply In_insert_integer in Hin as [Heq | Hin].
           ++ injection Heq as -> ->. exists r0. now left.
           ++ destruct (proj1 IH) as [r Hr];
                [left; exists (k1, v1); now split |].
              exists r. now right.
        -- destruct (proj1 IH) as [r Hr]; [now right |]. exists r. now right.
      * intros [r [Heq | Hin]].
        -- injection Heq as -> ->. left. exists (k, v). split; [reflexivity |].
           apply In_insert_integer. now left.
        -- destruct (proj2 IH) as [[[k1 v1] [Hv Hin1]] | Hin1];
             [now exists r | |].
           ++ left. exists (k1, v1). split; [exact Hv |].
              apply In_insert_integer. now right.
           ++ now right.
    + simpl. split.
      * intros [[[k1 v1] [<- Hin]] | [-> | Hin]].
        -- destruct (proj1 IH) as [r Hr];
             [left; exists (k1, v1); now split |].
           exists r. now right.
        -- exists r0. now left.
        -- destruct (proj1 IH) as [r Hr]; [now right |]. exists r. now right.
      * intros [r [Heq | Hin]].
        -- injection Heq as -> ->. right. now left.
        -- destruct (proj2 IH) as [Hl | Hr]; [now exists r | now left |].
           right. now right.
Qed.

Lemma In_positionsFrom (r : Rank) (cards : list Card) :
  forall i j,
  In j (positionsFrom i r cards)
  <-> (i <= j)%nat /\ exists card, nth_error cards (j - i) = Some card /\ rank card = r.
Proof.
  induction cards as [| c cards IH]; intros i j; simpl.
  - split; [intros [] |]. intros [_ [card [Hnth _]]].
    now destruct (j - i)%nat.
  - assert (Hstep : In j (positionsFrom (S i) r cards)
                    <-> (i < j)%nat
                        /\ exists card, nth_error (c :: cards) (j - i) = Some card
                                        /\ rank card = r).
    { rewrite IH. split.
      - intros [Hle [card Hcard]]. split; [lia |]. exists card.
        replace (j - i)%nat with (S (j - S i)) by lia. exact Hcard.
      - intros [Hlt [card Hcard]]. split; [lia |]. exists card.
        replace (j - i)%nat with (S (j - S i)) in Hcard by lia. exact Hcard. }
    destruct (Rank_eqb (rank c) r) eqn:E.
    + apply Rank_eqb_eq in E. simpl. rewrite Hstep. split.
      * intros [<- | [Hlt Hcard]].
        -- split; [lia |]. exists c. now rewrite Nat.sub_diag.
        -- split; [lia | exact Hcard].
      * intros [Hle Hcard].
        destruct (Nat.eq_dec i j) as [-> | Hne]; [now left |].
        right. split; [lia | exact Hcard].
    + apply Rank_eqb_neq in E. rewrite Hstep. split.
      * intros [Hlt Hcard]. split; [lia | exact Hcard].
      * intros [Hle [card [Hnth Hrank]]].
        destruct (Nat.eq_dec i j) as [-> | Hne].
        -- rewrite Nat.sub_diag in Hnth. simpl in Hnth. congruence.
        -- split; [lia |]. now exists card.
Qed.

Lemma findNOfAKind_group (cards : list Card) (n : nat) (l : list nat) :
  findNOfAKind cards n = Some l ->
  List.length l = n /\ exists r, l = positionsFrom 0 r cards.
Proof.
  unfold findNOfAKind. intros Hfind.
  apply find_some in Hfind as [Hin Hlen].
  apply Nat.eqb_eq in Hlen. split; [exact Hlen |].
  apply In_Object_values in Hin as [r Hin]. exists r.
  assert (Hok : groups_ok (groupByRank 0 cards [])).
  { apply groupByRank_ok. split; constructor. }
  rewrite <- (@In_groupOf r l _ (proj1 Hok) Hin).
  now rewrite groupOf_groupByRank.
Qed.

(** X12.  When [findNOfAKind] finds something, it is the list of all
    positions of the cards of one rank, and that rank occurs exactly [n]
    times in the hand; for [n > 0] it finds nothing only when no rank
    occurs exactly [n] times. *)
Theorem findNOfAKind_spec (cards : list Card) (n : nat) :
  (forall l,
      findNOfAKind cards n = Some l ->
      List.length l = n
      /\ exists r, forall j,
           In j l <-> exists card, nth_error cards j = Some card /\ rank card = r)
  /\ (findNOfAKind cards n = None ->
      forall r, List.length (positionsFrom 0 r cards) = n -> n = 0%nat).
Proof.
  split.
  - intros l Hfind. apply findNOfAKind_group in Hfind as [Hlen [r ->]].
    split; [exact Hlen |]. exists r. intros j.
    rewrite In_positionsFrom, Nat.sub_0_r. split.
    + now intros [_ Hcard].
    + intros Hcard. split; [lia | exact Hcard].
  - intros Hnone r Hlen.
    destruct (positionsFrom 0 r cards) as [| j ps] eqn:Hpos; [now subst n |].
    exfalso. unfold findNOfAKind in Hnone.
    pose proof (find_none _ _ Hnone (positionsFrom 0 r cards)) as Hno.
    rewrite Hpos in Hno. rewrite <- Hlen in Hno.
    rewrite Nat.eqb_refl in Hno. 
    assert (Hin : In (j :: ps) (Object_values (groupByRank 0 cards []))).
    { apply In_Object_values. exists r. rewrite <- Hpos.
      replace (positionsFrom 0 r cards)
        with (groupOf r (groupByRank 0 cards []))
        by (now rewrite groupOf_groupByRank).
      apply groupOf_In. rewrite groupOf_groupByRank. simpl. now rewrite Hpos. }
    specialize (Hno Hin). discriminate.
Qed.

Lemma insert_integer_perm (k : nat) (v : list nat) (l : list (nat * list nat)) :
  Permutation (insert_integer k v l) ((k, v) :: l).
Proof.
  induction l as [| [k' v'] l IH]; simpl; [reflexivity |].
  destruct (Nat.leb k k'); [reflexivity |].
  rewrite IH. apply perm_swap.
Qed.

Lemma Object_values_perm (groups : list (Rank * list nat)) :
  Permutation (Object_values groups) (List.map snd groups).
Proof.
  unfold Object_values. induction groups as [| [r v] groups IH]; simpl; [reflexivity |].
  destruct (integerKey r) as [k |].
  - rewrite insert_integer_perm. simpl. now constructor.
  - rewrite <- Permutation_middle. now constructor.
Qed.

Lemma groupByRank_values_nodup (cards : list Card) :
  NoDup (List.map snd (groupByRank 0 cards [])).
Proof.
  assert (Hok : groups_ok (groupByRank 0 cards [])).
  { apply groupByRank_ok. split; constructor. }
  destruct Hok as [Hnd Hne].
  assert (Hval : forall r v, In (r, v) (groupByRank 0 cards []) ->
                             v = positionsFrom 0 r cards).
  { intros r v Hin. rewrite <- (@In_groupOf r v _ Hnd Hin).
    now rewrite groupOf_groupByRank. }
  revert Hnd Hne Hval. generalize (groupByRank 0 cards []) as groups.
  induction groups as [| [r v] groups IH]; simpl; intros Hnd Hne Hval; [constructor |].
  inversion Hnd as [| ? ? Hnotin Hnd']; subst.
  inversion Hne as [| ? ? Hv Hne']; subst. simpl in Hv.
  constructor.
  - intros Hin. apply in_map_iff in Hin as [[r' v'] [Heq Hin]].
    simpl in Heq. subst v'. apply Hnotin.
    assert (r' = r) as <-.
    { pose proof (Hval r v (or_introl eq_refl)) as H1.
      pose proof (Hval r' v (or_intror Hin)) as H2.
      destruct v as [| j v]; [congruence |].
      assert (Hj1 : In j (positionsFrom 0 r cards)) by (rewrite <- H1; now left).
      assert (Hj2 : In j (positionsFrom 0 r' cards)) by (rewrite <- H2; now left).
      apply In_positionsFrom in Hj1 as [_ [c1 [Hn1 Hr1]]].
      apply In_positionsFrom in Hj2 as [_ [c2 [Hn2 Hr2]]].
      congruence. }
    change r' with (fst (r', v)). now apply in_map.
  - apply IH; [exact Hnd' | exact Hne' |].
    intros r' v' Hin. apply Hval. now right.
Qed.

(** X13.  When [findTwoPairs] finds something, it is the positions of
    the cards of one rank followed by those of another rank, each of the
    two ranks occurring exactly twice in the hand. *)
Theorem findTwoPairs_spec (cards : list Card) (l : list nat) :
  findTwoPairs cards = Some l ->
  exists r1 r2,
    r1 <> r2
    /\ l = positionsFrom 0 r1 cards ++ positionsFrom 0 r2 cards
    /\ List.length (positionsFrom 0 r1 cards) = 2%nat
    /\ List.length (positionsFrom 0 r2 cards) = 2%nat
    /\ forall j,
         In j l <-> exists card, nth_error cards j = Some card
                                 /\ (rank card = r1 \/ rank card = r2).
Proof.
  unfold findTwoPairs. intros Hfind.
  set (values := Object_values (groupByRank 0 cards [])) in *.
  assert (Hnd : NoDup (filter (fun g => Nat.eqb (List.length g) 2) values)).
  { apply NoDup_filter.
    apply (Permutation_NoDup (l := List.map snd (groupByRank 0 cards []))).
    - symmetry. apply Object_values_perm.
    - apply groupByRank_values_nodup. }
  assert (Hgroup : forall p,
             In p (filter (fun g => Nat.eqb (List.length g) 2) values) ->
             List.length p = 2%nat /\ exists r, p = positionsFrom 0 r cards).
  { intros p Hin. apply filter_In in Hin as [Hin Hlen].
    apply Nat.eqb_eq in Hlen. split; [exact Hlen |].
    apply In_Object_values in Hin as [r Hin]. exists r.
    assert (Hok : groups_ok (groupByRank 0 cards [])).
    { apply groupByRank_ok. split; constructor. }
    rewrite <- (@In_groupOf r p _ (proj1 Hok) Hin).
    now rewrite groupOf_groupByRank. }
  destruct (filter (fun g => Nat.eqb (List.length g) 2) values)
    as [| p0 [| p1 rest]]; try discriminate.
  injection Hfind as <-.
  destruct (Hgroup p0 (or_introl eq_refl)) as [Hlen0 [r1 Hp0]].
  destruct (Hgroup p1 (or_intror (or_introl eq_refl))) as [Hlen1 [r2 Hp1]].
  exists r1, r2.
  split.
  { intros ->. inversion Hnd as [| ? ? Hnotin _]; subst.
    apply Hnotin. left. congruence. }
  subst p0 p1. split; [reflexivity |]. split; [exact Hlen0 |]. split; [exact Hlen1 |].
  intros j. rewrite in_app_iff, !In_positionsFrom, Nat.sub_0_r. split.
  - intros [[_ [card [Hnth Hr]]] | [_ [card [Hnth Hr]]]]; exists card; auto.
  - intros [card [Hnth [Hr | Hr]]]; [left | right]; (split; [lia | now exists card]).
Qed.

Definition twoPairHand : list Card :=
  [ {| rank := R9; suit := clubs |}; {| rank := RK; suit := diamonds |};
    {| rank := R9; suit := hearts |}; {| rank := R4; suit := spades |};
    {| rank := RK; suit := clubs |} ].

Lemma findTwoPairs_spec_witness :
  exists r1 r2,
    r1 <> r2
    /\ [0; 2; 1; 4]%nat = positionsFrom 0 r1 twoPairHand ++ positionsFrom 0 r2 twoPairHand
    /\ List.length (positionsFrom 0 r1 twoPairHand) = 2%nat
    /\ List.length (positionsFrom 0 r2 twoPairHand) = 2%nat
    /\ forall j,
         In j [0; 2; 1; 4]%nat
         <-> exists card, nth_error twoPairHand j = Some card
                          /\ (rank card = r1 \/ rank card = r2).
Proof.
  apply (@findTwoPairs_spec twoPairHand [0; 2; 1; 4]%nat). reflexivity.
Defined.

Example findTwoPairs_numerals_first :
  findTwoPairs
    [ {| rank := RK; suit := clubs |}; {| rank := R9; suit := diamonds |};
      {| rank := RK; suit := hearts |}; {| rank := R9; suit := spades |};
      {| rank := R4; suit := clubs |} ]
  = Some [1; 3; 0; 2]%nat.
Proof. reflexivity. Qed.

(** ** The built-in strategies *)

Lemma Qfloor_unit (x : number) : 0 <= x -> x < 1 -> Qfloor x = 0%Z.
Proof.
  intros Hlo Hhi.
  pose proof (Qfloor_le x) as Hle. pose proof (Qlt_floor x) as Hlt.
  assert (H1 : (Qfloor x < 1)%Z).
  { apply Z.lt_nge. intros Hge.
    assert (1 <= inject_Z (Qfloor x)) by (now rewrite <- (Zle_Qle 1)). lra. }
  assert (H0 : (0 <= Qfloor x)%Z).
  { apply Z.le_ngt. intros Hneg.
    assert (inject_Z (Qfloor x + 1) <= 0) by (rewrite <- (Zle_Qle _ 0); lia). lra. }
  lia.
Qed.

(** X14.  Under the percentage strategy a tube holding less than 4 pays
    nothing and keeps its balance; a tube holding 4 or more pays at least
    1, at most a quarter of its balance, and its balance goes down. *)
Theorem percentage_small_balances (tubeType : string)
    (currentBalance initialBalance maxBalance : number) :
  0 < currentBalance ->
  exists result,
    calculateTubePayout tubeType currentBalance initialBalance maxBalance
      (createPercentageStrategy 0.25) = Ok result
    /\ payout result <= currentBalance * 0.25
    /\ (currentBalance < 4 ->
        payout result == 0 /\ newBalance result == currentBalance)
    /\ (4 <= currentBalance ->
        1 <= payout result /\ newBalance result < currentBalance).
Proof.
  intros Hpos. eexists. split.
  - apply calculateTubePayout_positive; [exact Hpos | reflexivity].
  - cbn [payout newBalance current]. unfold Math_floor.
    pose proof (Qfloor_le (currentBalance * 0.25)) as Hfloor.
    pose proof (Q.le_min_l (inject_Z (Qfloor (currentBalance * 0.25)))
                  currentBalance) as Hmin.
    split; [lra |]. split.
    + intros Hsmall.
      rewrite (@Qfloor_unit (currentBalance * 0.25)) by lra.
      assert (Hz : Qmin (inject_Z 0) currentBalance == 0).
      { rewrite Q.min_l; [reflexivity | unfold inject_Z; lra]. }
      rewrite Hz. split; [reflexivity | ring].
    + intros Hbig.
      assert (Hone : 1 <= inject_Z (Qfloor (currentBalance * 0.25))).
      { rewrite <- (Zle_Qle 1). rewrite <- (Qfloor_Z 1).
        apply Qfloor_resp_le. unfold inject_Z. lra. }
      assert (H1 : 1 <= Qmin (inject_Z (Qfloor (currentBalance * 0.25)))
                         currentBalance)
        by (apply Q.min_glb; lra).
      split; [exact H1 | lra].
Qed.

Lemma percentage_small_balances_witness :
  exists result,
    calculateTubePayout "ST" 3 5 10 (createPercentageStrategy 0.25) = Ok result
    /\ payout result <= 3 * 0.25
    /\ (3 < 4 -> payout result == 0 /\ newBalance result == 3)
    /\ (4 <= 3 -> 1 <= payout result /\ newBalance result < 3).
Proof.
  apply (@percentage_small_balances "ST" 3 5 10). reflexivity.
Defined.

(** X15.  Under the fixed strategy a tube holding no more than its
    initial balance pays out everything it holds, and the next win on
    that tube turns into a bust. *)
Theorem fixed_drains_then_busts (tubeType : string)
    (currentBalance initialBalance maxBalance : number) :
  0 < currentBalance ->
  currentBalance <= initialBalance ->
  exists first,
    calculateTubePayout tubeType currentBalance initialBalance maxBalance
      fixedStrategy = Ok first
    /\ payout first == currentBalance
    /\ newBalance first == 0
    /\ triggersBust first = false
    /\ calculateTubePayout tubeType (newBalance first) initialBalance maxBalance
         fixedStrategy = Ok emptyTubeResult.
Proof.
  intros Hpos Hle. eexists. split.
  - apply calculateTubePayout_positive; [exact Hpos | reflexivity].
  - cbn [payout newBalance triggersBust initial].
    assert (Hmin : Qmin initialBalance currentBalance == currentBalance)
      by (now apply Q.min_r).
    split; [exact Hmin |]. split; [rewrite Hmin; ring |]. split; [reflexivity |].
    apply calculateTubePayout_nonpositive. rewrite Hmin. lra.
Qed.

Lemma fixed_drains_then_busts_witness :
  exists first,
    calculateTubePayout "RF" 25 25 50 fixedStrategy = Ok first
    /\ payout first == 25
    /\ newBalance first == 0
    /\ triggersBust first = false
    /\ calculateTubePayout "RF" (newBalance first) 25 50 fixedStrategy
       = Ok emptyTubeResult.
Proof.
  apply (@fixed_drains_then_busts "RF" 25 25 50).
  - reflexivity.
  - unfold Qle; simpl; lia.
Defined.

(** The progressive multiplier. *)
Definition progressiveMultiplier (threshold fillRatio : number) : number :=
  if gtb fillRatio threshold then 1 + (fillRatio - threshold) * 2 else 1.

Lemma progressiveMultiplier_mono (threshold f1 f2 : number) :
  f1 <= f2 ->
  1 <= progressiveMultiplier threshold f1
  /\ progressiveMultiplier threshold f1 <= progressiveMultiplier threshold f2.
Proof.
  intros Hle. unfold progressiveMultiplier.
  destruct (gtb f1 threshold) eqn:H1; destruct (gtb f2 threshold) eqn:H2;
    try apply gtb_true in H1; try apply gtb_true in H2;
    try apply gtb_false in H1; try apply gtb_false in H2; split; lra.
Qed.

(** X16.  The progressive strategy never pays less for a fuller tube:
    with a positive maximum and an initial balance that is not negative,
    the payout is [floor(initial)] up to the threshold, never below it,
    and does not decrease as the balance grows. *)
Theorem progressive_monotone (threshold initialBalance maxBalance c1 c2 : number) :
  0 < maxBalance ->
  0 <= initialBalance ->
  c1 <= c2 ->
  exists p1 p2,
    calculate (createProgressiveStrategy threshold)
      {| current := c1; initial := initialBalance; max := maxBalance |} = Ok p1
    /\ calculate (createProgressiveStrategy threshold)
         {| current := c2; initial := initialBalance; max := maxBalance |} = Ok p2
    /\ Math_floor initialBalance <= p1
    /\ p1 <= p2
    /\ (c1 / maxBalance <= threshold -> p1 == Math_floor initialBalance).
Proof.
  intros Hmax Hinit Hle. do 2 eexists.
  split; [reflexivity |]. split; [reflexivity |].
  cbn [current initial max].
  assert (Hfill : c1 / maxBalance <= c2 / maxBalance).
  { unfold Qdiv. apply Qmult_le_compat_r; [exact Hle |].
    apply Qlt_le_weak, Qinv_lt_0_compat. exact Hmax. }
  fold (progressiveMultiplier threshold (c1 / maxBalance)).
  fold (progressiveMultiplier threshold (c2 / maxBalance)).
  destruct (@progressiveMultiplier_mono threshold _ _ Hfill) as [Hone Hmono].
  assert (Hscale : forall a b : Q, a <= b -> initialBalance * a <= initialBalance * b).
  { intros a b Hab. rewrite !(Qmult_comm initialBalance).
    now apply Qmult_le_compat_r. }
  unfold Math_floor. split; [| split].
  - rewrite <- Zle_Qle. apply Qfloor_resp_le.
    apply Qle_trans with (initialBalance * 1);
      [rewrite Qmult_1_r; apply Qle_refl | exact (Hscale _ _ Hone)].
  - rewrite <- Zle_Qle. apply Qfloor_resp_le.
    apply Hscale. exact Hmono.
  - intros Hlow. unfold progressiveMultiplier.
    apply gtb_false in Hlow. rewrite Hlow.
    assert (Hsame : initialBalance * 1 == initialBalance) by ring.
    now rewrite (Qfloor_comp _ _ Hsame).
Qed.

Lemma progressive_monotone_witness :
  exists p1 p2,
    calculate (createProgressiveStrategy 0.5)
      {| current := 20; initial := 10; max := 50 |} = Ok p1
    /\ calculate (createProgressiveStrategy 0.5)
         {| current := 50; initial := 10; max := 50 |} = Ok p2
    /\ Math_floor 10 <= p1
    /\ p1 <= p2
    /\ (20 / 50 <= 0.5 -> p1 == Math_floor 10).
Proof.
  apply (@progressive_monotone 0.5 10 50 20 50).
  - reflexivity.
  - unfold Qle; simpl; lia.
  - unfold Qle; simpl; lia.
Defined.

Example progressive_full_tube :
  calculateTubePayout "RF" 50 25 50 (createProgressiveStrategy 0.5)
  = Ok {| payout := Qmin (inject_Z 50) 50; newBalance := 50 - Qmin (inject_Z 50) 50;
          wasEmpty := false; triggersBust := false |}.
Proof. reflexivity. Qed.

(** ** Ledger totals *)

Lemma sumOf_app (l : list number) (a : number) : sumOf (l ++ [a]) == sumOf l + a.
Proof.
  induction l as [| x l IH]; simpl; [ring |]. rewrite IH. ring.
Qed.

(** The totals are the sums of the histories. *)
Definition ledger_balanced (ledger : HouseLedger) : Prop :=
  totalAnteCollected ledger == sumOf (anteHistory ledger)
  /\ totalPayoutsGiven ledger == sumOf (payoutHistory ledger)
  /\ totalBustPenaltiesCollected ledger == sumOf (bustHistory ledger).

Lemma recordAnteCollection_balanced ledger amount :
  ledger_balanced ledger -> ledger_balanced (recordAnteCollection ledger amount).
Proof.
  intros (Ha & Hp & Hb). repeat split; simpl; try assumption.
  rewrite sumOf_app, Ha. reflexivity.
Qed.

Lemma recordPayout_balanced ledger amount :
  ledger_balanced ledger -> ledger_balanced (recordPayout ledger amount).
Proof.
  intros (Ha & Hp & Hb). repeat split; simpl; try assumption.
  rewrite sumOf_app, Hp. reflexivity.
Qed.

Lemma recordTubePayout_balanced ledger amount :
  ledger_balanced ledger -> ledger_balanced (recordTubePayout ledger amount).
Proof.
  intros (Ha & Hp & Hb). repeat split; simpl; try assumption.
  rewrite sumOf_app, Hp. reflexivity.
Qed.

Lemma recordBustPenalty_balanced ledger amount :
  ledger_balanced ledger -> ledger_balanced (recordBustPenalty ledger amount).
Proof.
  intros (Ha & Hp & Hb). repeat split; simpl; try assumption.
  rewrite sumOf_app, Hb. reflexivity.
Qed.

Lemma processRoundOutcomes_balanced ledger outcomes tubePayouts bustPenalties
    anteCollected :
  ledger_balanced ledger ->
  ledger_balanced (processRoundOutcomes ledger outcomes tubePayouts bustPenalties
                     anteCollected).
Proof.
  intros Hb. unfold processRoundOutcomes.
  assert (H1 : ledger_balanced (recordAnteCollection ledger anteCollected))
    by now apply recordAnteCollection_balanced.
  revert H1. generalize (recordAnteCollection ledger anteCollected) as l1.
  unfold processTubePayouts.
  induction tubePayouts as [| t ts IHt]; simpl.
  - unfold processBustPenalties.
    induction bustPenalties as [| b bs IHb]; simpl.
    + unfold processRegularPayouts.
      induction outcomes as [| o os IHo]; simpl.
      * intros l1 H1. exact H1.
      * intros l1 H1. apply IHo.
        destruct (isWin (outcome o) && gtb (outcome_payout o) 0);
          [now apply recordPayout_balanced | exact H1].
    + intros l1 H1. apply IHb. now apply recordBustPenalty_balanced.
  - intros l1 H1. apply IHt. now apply recordTubePayout_balanced.
Qed.

Lemma reachable_conserved (ledger : HouseLedger) :
  reachable ledger -> conserved ledger.
Proof.
  intros Hreach. induction Hreach;
    try apply updateNetProfit_conserved;
    [reflexivity | now apply recordRoundComplete_conserved
     | apply processRoundOutcomes_conserved].
Qed.

(** X17.  In every ledger reached from [createHouseLedger] the three
    totals are the sums of the three histories, so that the net profit is
    the sum of the antes and the bust penalties recorded less the sum of
    the payouts recorded. *)
Theorem ledger_totals_are_history_sums (ledger : HouseLedger) :
  reachable ledger ->
  totalAnteCollected ledger == sumOf (anteHistory ledger)
  /\ totalPayoutsGiven ledger == sumOf (payoutHistory ledger)
  /\ totalBustPenaltiesCollected ledger == sumOf (bustHistory ledger)
  /\ netProfit ledger
     == sumOf (anteHistory ledger) + sumOf (bustHistory ledger)
        - sumOf (payoutHistory ledger).
Proof.
  intros Hreach.
  assert (Hbal : ledger_balanced ledger).
  { induction Hreach.
    - repeat split; reflexivity.
    - now apply recordAnteCollection_balanced.
    - now apply recordPayout_balanced.
    - now apply recordTubePayout_balanced.
    - now apply recordBustPenalty_balanced.
    - exact IHHreach.
    - now apply processRoundOutcomes_balanced. }
  destruct Hbal as (Ha & Hp & Hb).
  pose proof (reachable_conserved Hreach) as Hcons.
  repeat (split; [assumption |]).
  rewrite Hcons, Ha, Hp, Hb. reflexivity.
Qed.

Lemma ledger_totals_are_history_sums_witness :
  totalAnteCollected sampleLedger == sumOf (anteHistory sampleLedger)
  /\ totalPayoutsGiven sampleLedger == sumOf (payoutHistory sampleLedger)
  /\ totalBustPenaltiesCollected sampleLedger == sumOf (bustHistory sampleLedger)
  /\ netProfit sampleLedger
     == sumOf (anteHistory sampleLedger) + sumOf (bustHistory sampleLedger)
        - sumOf (payoutHistory sampleLedger).
Proof.
  apply (@ledger_totals_are_history_sums sampleLedger).
  unfold sampleLedger. apply reach_payout, reach_round, reach_create.
Defined.

(** What a batch of record calls adds to the totals of a ledger: the
    payouts, the bust penalties and the tube payouts. *)
Definition ledger_shift (before after : HouseLedger) (dPay dBust dTube : number)
  : Prop :=
  totalAnteCollected after = totalAnteCollected before
  /\ totalPayoutsGiven after == totalPayoutsGiven before + dPay
  /\ totalBustPenaltiesCollected after == totalBustPenaltiesCollected before + dBust
  /\ totalTubePayouts after == totalTubePayouts before + dTube
  /\ roundsPlayed after = roundsPlayed before.

Lemma processTubePayouts_shift (tubePayouts : list TubePayoutRecord) :
  forall ledger,
  ledger_shift ledger (processTubePayouts ledger tubePayouts)
    (sumOf (List.map tube_amount tubePayouts)) 0
    (sumOf (List.map tube_amount tubePayouts)).
Proof.
  unfold processTubePayouts, ledger_shift.
  induction tubePayouts as [| t ts IH]; intros ledger; simpl.
  - repeat split; try reflexivity; lra.
  - destruct (IH (recordTubePayout ledger (tube_amount t)))
      as (Ha & Hp & Hb & Ht & Hr).
    rewrite Ha, Hp, Hb, Ht, Hr. simpl. repeat split; try reflexivity; lra.
Qed.

Lemma processBustPenalties_shift (bustPenalties : list BustPenaltyRecord) :
  forall ledger,
  ledger_shift ledger (processBustPenalties ledger bustPenalties)
    0 (sumOf (List.map bust_amount bustPenalties)) 0.
Proof.
  unfold processBustPenalties, ledger_shift.
  induction bustPenalties as [| b bs IH]; intros ledger; simpl.
  - repeat split; try reflexivity; lra.
  - destruct (IH (recordBustPenalty ledger (bust_amount b)))
      as (Ha & Hp & Hb & Ht & Hr).
    rewrite Ha, Hp, Hb, Ht, Hr. simpl. repeat split; try reflexivity; lra.
Qed.

(** The payouts of the outcomes the ledger records: wins that pay. *)
Definition recordedPayouts (outcomes : list ParticipantOutcome) : list number :=
  List.map outcome_payout
    (filter (fun o => isWin (outcome o) && gtb (outcome_payout o) 0) outcomes).

Lemma processRegularPayouts_shift (outcomes : list ParticipantOutcome) :
  forall ledger,
  ledger_shift ledger (processRegularPayouts ledger outcomes)
    (sumOf (recordedPayouts outcomes)) 0 0.
Proof.
  unfold processRegularPayouts, ledger_shift, recordedPayouts.
  induction outcomes as [| o os IH]; intros ledger; simpl.
  - repeat split; try reflexivity; lra.
  - destruct (isWin (outcome o) && gtb (outcome_payout o) 0).
    + destruct (IH (recordPayout ledger (outcome_payout o)))
        as (Ha & Hp & Hb & Ht & Hr).
      rewrite Ha, Hp, Hb, Ht, Hr. simpl. repeat split; try reflexivity; lra.
    + apply IH.
Qed.

Lemma processRoundOutcomes_sums (ledger : HouseLedger)
    (outcomes : list ParticipantOutcome) (tubePayouts : list TubePayoutRecord)
    (bustPenalties : list BustPenaltyRecord) (anteCollected : number) :
  totalAnteCollected
    (processRoundOutcomes ledger outcomes tubePayouts bustPenalties anteCollected)
  = totalAnteCollected ledger + anteCollected
  /\ totalPayoutsGiven
       (processRoundOutcomes ledger outcomes tubePayouts bustPenalties anteCollected)
     == totalPayoutsGiven ledger + sumOf (List.map tube_amount tubePayouts)
        + sumOf (recordedPayouts outcomes)
  /\ totalBustPenaltiesCollected
       (processRoundOutcomes ledger outcomes tubePayouts bustPenalties anteCollected)
     == totalBustPenaltiesCollected ledger
        + sumOf (List.map bust_amount bustPenalties)
  /\ totalTubePayouts
       (processRoundOutcomes ledger outcomes tubePayouts bustPenalties anteCollected)
     == totalTubePayouts ledger + sumOf (List.map tube_amount tubePayouts)
  /\ roundsPlayed
       (processRoundOutcomes ledger outcomes tubePayouts bustPenalties anteCollected)
     = roundsPlayed ledger + 1.
Proof.
  unfold processRoundOutcomes.
  set (l1 := recordAnteCollection ledger anteCollected).
  destruct (processTubePayouts_shift tubePayouts l1) as (Ha2 & Hp2 & Hb2 & Ht2 & Hr2).
  set (l2 := processTubePayouts l1 tubePayouts) in *.
  destruct (processBustPenalties_shift bustPenalties l2)
    as (Ha3 & Hp3 & Hb3 & Ht3 & Hr3).
  set (l3 := processBustPenalties l2 bustPenalties) in *.
  destruct (processRegularPayouts_shift outcomes l3)
    as (Ha4 & Hp4 & Hb4 & Ht4 & Hr4).
  set (l4 := processRegularPayouts l3 outcomes) in *.
  cbn [recordRoundComplete totalAnteCollected totalPayoutsGiven
       totalBustPenaltiesCollected totalTubePayouts roundsPlayed].
  rewrite Ha4, Ha3, Ha2, Hp4, Hp3, Hp2, Hb4, Hb3, Hb2, Ht4, Ht3, Ht2, Hr4, Hr3, Hr2.
  subst l1. simpl. repeat split; try reflexivity; lra.
Qed.

(** X18.  [processRoundOutcomes] adds the ante to [totalAnteCollected],
    the bust penalties to [totalBustPenaltiesCollected], the tube payouts
    to [totalTubePayouts], the tube payouts and the positive payouts of
    the [win] outcomes to [totalPayoutsGiven], and one to [roundsPlayed];
    outcomes of any other kind, and the [tubePayout] and [bustPenalty]
    fields of the outcomes, are not read. *)
Theorem processRoundOutcomes_totals (ledger : HouseLedger)
    (outcomes : list ParticipantOutcome) (tubePayouts : list TubePayoutRecord)
    (bustPenalties : list BustPenaltyRecord) (anteCollected : number) :
  totalAnteCollected
    (processRoundOutcomes ledger outcomes tubePayouts bustPenalties anteCollected)
  = totalAnteCollected ledger + anteCollected
  /\ totalPayoutsGiven
       (processRoundOutcomes ledger outcomes tubePayouts bustPenalties anteCollected)
     == totalPayoutsGiven ledger + sumOf (List.map tube_amount tubePayouts)
        + sumOf (recordedPayouts outcomes)
  /\ totalBustPenaltiesCollected
       (processRoundOutcomes ledger outcomes tubePayouts bustPenalties anteCollected)
     == totalBustPenaltiesCollected ledger
        + sumOf (List.map bust_amount bustPenalties)
  /\ totalTubePayouts
       (processRoundOutcomes ledger outcomes tubePayouts bustPenalties anteCollected)
     == totalTubePayouts ledger + sumOf (List.map tube_amount tubePayouts)
  /\ roundsPlayed
       (processRoundOutcomes ledger outcomes tubePayouts bustPenalties anteCollected)
     = roundsPlayed ledger + 1.
Proof.
  apply processRoundOutcomes_sums.
Qed.

(** ** Ledger analytics *)

(** X19.  [analyzeLedger] never divides by zero: with nothing collected
    the house edge is 0, and before the first round the averages are the
    totals.  With something collected the edge is the share of it that
    was not paid out, which for a ledger that conserves is the net profit
    over the amount collected, and it is at most 1 when the payouts are
    not negative.  The ledger is healthy exactly when the edge lies in
    [[0.03, 0.07]]. *)
Theorem analyzeLedger_edge (ledger : HouseLedger) :
  (totalAnteCollected ledger + totalBustPenaltiesCollected ledger <= 0 ->
   analytics_houseEdge (analyzeLedger ledger) = 0)
  /\ (0 < totalAnteCollected ledger + totalBustPenaltiesCollected ledger ->
      (conserved ledger ->
       analytics_houseEdge (analyzeLedger ledger)
       == netProfit ledger
          / (totalAnteCollected ledger + totalBustPenaltiesCollected ledger))
      /\ (0 <= totalPayoutsGiven ledger ->
          analytics_houseEdge (analyzeLedger ledger) <= 1))
  /\ (roundsPlayed ledger == 0 ->
      avgAntePerRound (analyzeLedger ledger) == totalAnteCollected ledger
      /\ avgPayoutPerRound (analyzeLedger ledger) == totalPayoutsGiven ledger
      /\ profitPerRound (analyzeLedger ledger) == netProfit ledger)
  /\ (isHealthy (analyzeLedger ledger) = true
      <-> 0.03 <= analytics_houseEdge (analyzeLedger ledger) <= 0.07)
  /\ houseEdgePercent (analyzeLedger ledger)
     = analytics_houseEdge (analyzeLedger ledger) * 100.
Proof.
  unfold analyzeLedger.
  cbn [analytics_houseEdge avgAntePerRound avgPayoutPerRound profitPerRound
       isHealthy houseEdgePercent].
  set (totalInput := totalAnteCollected ledger + totalBustPenaltiesCollected ledger).
  split; [| split; [| split; [| split]]].
  - intros Hle. apply gtb_false in Hle. now rewrite Hle.
  - intros Hpos. pose proof Hpos as Hgt. apply gtb_true in Hgt. rewrite Hgt.
    split.
    + intros Hcons. rewrite Hcons. fold totalInput. reflexivity.
    + intros Hpay.
      apply Qle_shift_div_r; [exact Hpos |]. lra.
  - intros Hzero. unfold orOne.
    assert (Hq : Qeq_bool (roundsPlayed ledger) 0 = true)
      by (now apply Qeq_bool_iff).
    rewrite Hq. repeat split; field.
  - destruct (ltb _ 0.03) eqn:Hlow.
    + apply ltb_true in Hlow. split; [discriminate | intros [H1 H2]; lra].
    + apply ltb_false in Hlow.
      destruct (gtb _ 0.07) eqn:Hhigh.
      * apply gtb_true in Hhigh. split; [discriminate | intros [H1 H2]; lra].
      * apply gtb_false in Hhigh. split; [intros _; split; assumption | reflexivity].
  - reflexivity.
Qed.

Example analyzeLedger_sample :
  analytics_houseEdge (analyzeLedger sampleLedger) == -1 # 10
  /\ healthStatus (analyzeLedger sampleLedger) = health_low_edge
  /\ healthStatus (analyzeLedger createHouseLedger) = health_low_edge
  /\ analytics_bustRate (analyzeLedger sampleLedger) == 1.
Proof. repeat split. Qed.

(** ** The showdown *)

(** A participant the showdown resolves: active, with an evaluated hand. *)
Definition resolvable (p : Participant) : bool :=
  isActive p && match handResult p with Some _ => true | None => false end.

Lemma builtin_strategy_returns (Math_log : number -> number)
    (t : PayoutStrategyType) (arg : TubeArg) :
  exists raw, calculate (getPayoutStrategy Math_log t) arg = Ok raw.
Proof.
  destruct t; simpl; try (eexists; reflexivity).
  destruct (leb (current arg) 0); eexists; reflexivity.
Qed.

Lemma calculateTubePayout_cases (tubeType : string) (cur ini mx : number)
    (strategy : PayoutStrategy) (raw : number) :
  calculate strategy {| current := cur; initial := ini; max := mx |} = Ok raw ->
  (cur <= 0
   /\ calculateTubePayout tubeType cur ini mx strategy = Ok emptyTubeResult)
  \/ (0 < cur
      /\ calculateTubePayout tubeType cur ini mx strategy
         = Ok {| payout := Qmin raw cur; newBalance := cur - Qmin raw cur;
                 wasEmpty := false; triggersBust := false |}).
Proof.
  intros Hraw. destruct (Qlt_le_dec 0 cur) as [Hpos | Hle].
  - right. split; [exact Hpos | now apply calculateTubePayout_positive].
  - left. split; [exact Hle | now apply calculateTubePayout_nonpositive].
Qed.

Lemma tubeAt_tubeSet_nonneg (k k' : TubeKey) (v : number) (t : TubeBalances) :
  0 <= v -> 0 <= tubeAt k t -> 0 <= tubeAt k (tubeSet k' v t).
Proof.
  intros Hv Ht. rewrite tubeAt_tubeSet. now destruct (TubeKey_eqb k k').
Qed.

(** What one pass of the showdown callback keeps and adds. *)
Definition showdown_step (round : RoundState) (p : Participant)
    (round' : RoundState) (p' : Participant) : Prop :=
  participant_id p' = participant_id p
  /\ (exists new,
         outcomes round' = outcomes round ++ new
         /\ List.map participantId new
            = if resolvable p then [participant_id p] else [])
  /\ (forall k, 0 <= tubeAt k (tubeBalances round) ->
                0 <= tubeAt k (tubeBalances round'))
  /\ anteCollected round' = anteCollected round
  /\ dealer round' = dealer round
  /\ phase round' = phase round.

Section Showdown.

Context `{HandEvaluator}.
Variable Math_log : number -> number.
Variable now : number.

Lemma resolveComparison_returns (config : EngineConfig) (round : RoundState)
    (p : Participant) (playerResult : HandResult) (comparison : number) :
  exists r,
    resolveComparison Math_log now config round p playerResult comparison = Ok r
    /\ outcomes (res_round r) = outcomes round
    /\ (forall k, 0 <= tubeAt k (tubeBalances round) ->
                  0 <= tubeAt k (tubeBalances (res_round r)))
    /\ anteCollected (res_round r) = anteCollected round
    /\ dealer (res_round r) = dealer round
    /\ phase (res_round r) = phase round.
Proof.
  unfold resolveComparison.
  destruct (gtb comparison 0).
  - destruct (handRankToTube (hand_rank playerResult)) as [tube |].
    + destruct (builtin_strategy_returns Math_log (payoutStrategy config)
                  {| current := tubeAt tube (tubeBalances round);
                     initial := tube_initial (tubeAt tube (tubes config));
                     max := tube_max (tubeAt tube (tubes config)) |})
        as [raw Hraw].
      destruct (calculateTubePayout_cases (tubeName tube) _ _ _ _ Hraw)
        as [[Hle ->] | [Hpos ->]]; simpl.
      * eexists. split; [reflexivity |]. simpl. repeat split; auto.
      * eexists. split; [reflexivity |]. simpl. repeat split; auto.
        intros k Hk. apply tubeAt_tubeSet_nonneg; [| exact Hk].
        pose proof (Q.le_min_r raw (tubeAt tube (tubeBalances round))). lra.
    + eexists. split; [reflexivity |]. simpl. repeat split; auto.
  - destruct (ltb comparison 0).
    + eexists. split; [reflexivity |]. simpl. repeat split; auto.
    + eexists. split; [reflexivity |]. simpl. repeat split; auto.
Qed.

Lemma resolveParticipant_returns (config : EngineConfig) (dealerResult : HandResult)
    (round : RoundState) (registry : HTRegistryClass) (p : Participant) :
  exists round' registry' p',
    resolveParticipant Math_log now config dealerResult round registry p
    = Ok (round', registry', p')
    /\ showdown_step round p round' p'.
Proof.
  unfold resolveParticipant, showdown_step, resolvable.
  destruct (isActive p); [| do 3 eexists; split; [reflexivity |];
                            simpl; repeat split; auto; exists []; split;
                            [now rewrite app_nil_r | reflexivity]].
  destruct (handResult p) as [playerResult |];
    [| do 3 eexists; split; [reflexivity |];
       simpl; repeat split; auto; exists []; split;
       [now rewrite app_nil_r | reflexivity]].
  destruct (resolveComparison_returns config round p playerResult
              (compareHands playerResult dealerResult))
    as (r & -> & Hout & Htubes & Hante & Hdealer & Hphase).
  simpl. do 3 eexists. split; [reflexivity |]. simpl.
  split; [reflexivity |]. split.
  - eexists. split; [rewrite Hout; reflexivity | reflexivity].
  - repeat split; assumption.
Qed.

Lemma forEachParticipant_returns (config : EngineConfig) (dealerResult : HandResult)
    (ps : list Participant) :
  forall (round : RoundState) (registry : HTRegistryClass),
  exists round' registry' ps',
    forEachParticipant Math_log now config dealerResult round registry ps
    = Ok (round', registry', ps')
    /\ List.map participant_id ps' = List.map participant_id ps
    /\ (exists new,
           outcomes round' = outcomes round ++ new
           /\ List.map participantId new
              = List.map participant_id (filter resolvable ps))
    /\ (forall k, 0 <= tubeAt k (tubeBalances round) ->
                  0 <= tubeAt k (tubeBalances round'))
    /\ anteCollected round' = anteCollected round
    /\ dealer round' = dealer round
    /\ phase round' = phase round.
Proof.
  induction ps as [| p ps IH]; intros round registry; simpl.
  - do 3 eexists. split; [reflexivity |]. repeat split; auto.
    exists []. split; [now rewrite app_nil_r | reflexivity].
  - destruct (resolveParticipant_returns config dealerResult round registry p)
      as (round1 & registry1 & p1 & -> & Hid & [new1 [Hout1 Hnew1]] & Htubes1
          & Hante1 & Hdealer1 & Hphase1).
    simpl.
    destruct (IH round1 registry1)
      as (round2 & registry2 & ps2 & -> & Hids & [new2 [Hout2 Hnew2]] & Htubes2
          & Hante2 & Hdealer2 & Hphase2).
    simpl. do 3 eexists. split; [reflexivity |].
    split; [simpl; now rewrite Hid, Hids |]. split.
    + exists (new1 ++ new2). split.
      * now rewrite Hout2, Hout1, app_assoc.
      * rewrite map_app, Hnew1, Hnew2. now destruct (resolvable p).
    + split; [intros k Hk; now apply Htubes2, Htubes1 |].
      repeat split; congruence.
Qed.

(** X20.  [resolveOutcomes] raises in two cases only: without a current
    round, and with a dealer whose hand is not evaluated.  Otherwise it
    returns, having pushed one outcome for each active participant with
    an evaluated hand, in seat order, and none for the others; it keeps
    the participants and their order, leaves no tube balance negative
    that was not negative before, and does not touch the configuration,
    the ledger or the ante collected. *)
Theorem resolveOutcomes_returns (state : GameOrchestratorState)
    (registry : HTRegistryClass) :
  (currentRound state = None ->
   resolveOutcomes Math_log now state registry = Throw "No active round")
  /\ (forall round,
        currentRound state = Some round ->
        handResult (dealer round) = None ->
        resolveOutcomes Math_log now state registry
        = Throw "Dealer hand not evaluated")
  /\ (forall round dealerResult,
        currentRound state = Some round ->
        handResult (dealer round) = Some dealerResult ->
        exists state' registry' round' new,
          resolveOutcomes Math_log now state registry = Ok (state', registry')
          /\ currentRound state' = Some round'
          /\ config state' = config state
          /\ houseLedger state' = houseLedger state
          /\ phase round' = phase_showdown
          /\ anteCollected round' = anteCollected round
          /\ List.map participant_id (participants round')
             = List.map participant_id (participants round)
          /\ outcomes round' = outcomes round ++ new
          /\ List.map participantId new
             = List.map participant_id (filter resolvable (participants round))
          /\ (forall k, 0 <= tubeAt k (tubeBalances round) ->
                        0 <= tubeAt k (tubeBalances round'))).
Proof.
  unfold resolveOutcomes, requireRound.
  split; [intros ->; reflexivity |]. split.
  - intros round -> Hdealer. simpl. now rewrite Hdealer.
  - intros round dealerResult -> Hdealer. simpl. rewrite Hdealer.
    destruct (forEachParticipant_returns (config state) dealerResult
                (participants round) (set_phase phase_showdown round) registry)
      as (round1 & registry1 & ps1 & -> & Hids & [new [Hout Hnew]] & Htubes
          & Hante & _ & Hphase).
    simpl. do 4 eexists. split; [reflexivity |]. simpl.
    repeat (split; [first [reflexivity | eassumption] |]).
    exact Htubes.
Qed.

Lemma resolveParticipant_from (config : EngineConfig) (dealerResult playerResult : HandResult)
    (round : RoundState) (registry : HTRegistryClass) (p : Participant)
    (r : Resolution) :
  isActive p = true ->
  handResult p = Some playerResult ->
  resolveComparison Math_log now config round p playerResult
    (compareHands playerResult dealerResult) = Ok r ->
  resolveParticipant Math_log now config dealerResult round registry p =
  Ok (push_outcome
        {| participantId := participant_id p; outcome := res_outcome r;
           handRank := hand_rank playerResult; outcome_payout := res_payout r;
           tubePayout := res_tubePayout r; bustPenalty := res_bustPenalty r |}
        (res_round r),
      recordOutcome (decisionIdOrDefault p)
        (match res_outcome r with tie => win | o => o end)
        (ante config) (res_payout r + res_tubePayout r)
        (option_map tubeName (handRankToTube (hand_rank playerResult))) registry,
      set_credits_busted (credits p + (res_payout r + res_tubePayout r))
        (res_isBusted r) p).
Proof.
  intros Hactive Hresult Hr. unfold resolveParticipant.
  now rewrite Hactive, Hresult, Hr.
Qed.

Lemma ledgerAfter_sums (ledger : HouseLedger) (round : RoundState) :
  totalPayoutsGiven (ledgerAfter ledger round)
  == totalPayoutsGiven ledger + sumOf (List.map tube_amount (tubePayouts round))
     + sumOf (recordedPayouts (outcomes round))
  /\ totalBustPenaltiesCollected (ledgerAfter ledger round)
     == totalBustPenaltiesCollected ledger
        + sumOf (List.map bust_amount (bustPenalties round))
  /\ totalTubePayouts (ledgerAfter ledger round)
     == totalTubePayouts ledger + sumOf (List.map tube_amount (tubePayouts round)).
Proof.
  unfold ledgerAfter.
  destruct (processRoundOutcomes_sums ledger (outcomes round) (tubePayouts round)
              (bustPenalties round) (anteCollected round))
    as (_ & Hp & Hb & Ht & _).
  now repeat split.
Qed.

Lemma recordedPayouts_app (outcomes : list ParticipantOutcome) (o : ParticipantOutcome) :
  recordedPayouts (outcomes ++ [o])
  = recordedPayouts outcomes
    ++ (if isWin (outcome o) && gtb (outcome_payout o) 0
        then [outcome_payout o] else []).
Proof.
  unfold recordedPayouts. rewrite filter_app, map_app. simpl.
  now destruct (isWin (outcome o) && gtb (outcome_payout o) 0).
Qed.

(** The ledger of the completed round, by what the callback pushed. *)
Lemma ledgerAfter_pushed (ledger : HouseLedger) (round round' : RoundState)
    (o : ParticipantOutcome) (newTube : list TubePayoutRecord)
    (newBust : list BustPenaltyRecord) :
  outcomes round' = outcomes round ++ [o] ->
  tubePayouts round' = tubePayouts round ++ newTube ->
  bustPenalties round' = bustPenalties round ++ newBust ->
  totalPayoutsGiven (ledgerAfter ledger round')
  == totalPayoutsGiven (ledgerAfter ledger round)
     + sumOf (List.map tube_amount newTube)
     + (if isWin (outcome o) && gtb (outcome_payout o) 0
        then outcome_payout o else 0)
  /\ totalBustPenaltiesCollected (ledgerAfter ledger round')
     == totalBustPenaltiesCollected (ledgerAfter ledger round)
        + sumOf (List.map bust_amount newBust)
  /\ totalTubePayouts (ledgerAfter ledger round')
     == totalTubePayouts (ledgerAfter ledger round)
        + sumOf (List.map tube_amount newTube).
Proof.
  intros Hout Htube Hbust.
  destruct (ledgerAfter_sums ledger round) as (Hp & Hb & Ht).
  destruct (ledgerAfter_sums ledger round') as (Hp' & Hb' & Ht').
  rewrite Hp', Hb', Ht', Hp, Hb, Ht, Hout, Htube, Hbust.
  rewrite recordedPayouts_app, !map_app.
  assert (Happ : forall l1 l2 : list number, sumOf (l1 ++ l2) == sumOf l1 + sumOf l2).
  { intros l1 l2. induction l1 as [| x l1 IH]; simpl; [lra | rewrite IH; lra]. }
  rewrite !Happ.
  destruct (isWin (outcome o) && gtb (outcome_payout o) 0); simpl;
    repeat split; lra.
Qed.

(** X21.  A participant who beats the dealer with a tube hand while that
    tube is empty busts: the outcome is [bust] with no payout, a penalty
    of [ante * bustPenaltyMultiplier] is entered in the round's bust
    penalties, the participant is marked busted, and the statistics of the
    rule count a bust.  The participant's credits and the tube balances do
    not change.  In the ledger of the completed round the penalty is added
    to [totalBustPenaltiesCollected] and [totalPayoutsGiven] is
    unaffected. *)
Theorem showdown_empty_tube (config : EngineConfig)
    (dealerResult playerResult : HandResult) (round : RoundState)
    (registry : HTRegistryClass) (p : Participant) (tube : TubeKey) :
  isActive p = true ->
  handResult p = Some playerResult ->
  0 < compareHands playerResult dealerResult ->
  handRankToTube (hand_rank playerResult) = Some tube ->
  tubeAt tube (tubeBalances round) <= 0 ->
  exists round' registry' p',
    resolveParticipant Math_log now config dealerResult round registry p
    = Ok (round', registry', p')
    /\ outcomes round'
       = outcomes round
         ++ [ {| participantId := participant_id p; outcome := bust;
                 handRank := hand_rank playerResult; outcome_payout := 0;
                 tubePayout := 0;
                 bustPenalty := ante config * bustPenaltyMultiplier config |} ]
    /\ bustPenalties round'
       = bustPenalties round
         ++ [ {| bust_participantId := participant_id p;
                 bust_amount := ante config * bustPenaltyMultiplier config;
                 reason := tubeName tube ++ " tube empty";
                 bust_timestamp := now |} ]
    /\ tubePayouts round' = tubePayouts round
    /\ tubeBalances round' = tubeBalances round
    /\ credits p' == credits p
    /\ isBusted p' = true
    /\ registry' = recordOutcome (decisionIdOrDefault p) bust (ante config) (0 + 0)
                     (Some (tubeName tube)) registry
    /\ forall ledger,
         totalBustPenaltiesCollected (ledgerAfter ledger round')
         == totalBustPenaltiesCollected (ledgerAfter ledger round)
            + ante config * bustPenaltyMultiplier config
         /\ totalPayoutsGiven (ledgerAfter ledger round')
            == totalPayoutsGiven (ledgerAfter ledger round).
Proof.
  intros Hactive Hresult Hwin Htube Hempty.
  set (penalty := {| bust_participantId := participant_id p;
                     bust_amount := ante config * bustPenaltyMultiplier config;
                     reason := tubeName tube ++ " tube empty";
                     bust_timestamp := now |}).
  set (o := {| participantId := participant_id p; outcome := bust;
               handRank := hand_rank playerResult; outcome_payout := 0;
               tubePayout := 0;
               bustPenalty := ante config * bustPenaltyMultiplier config |}).
  assert (Hr : resolveComparison Math_log now config round p playerResult
                 (compareHands playerResult dealerResult)
               = Ok {| res_outcome := bust; res_payout := 0; res_tubePayout := 0;
                       res_bustPenalty := ante config * bustPenaltyMultiplier config;
                       res_isBusted := true;
                       res_round := push_bustPenalty penalty round |}).
  { unfold resolveComparison. apply gtb_true in Hwin. rewrite Hwin, Htube.
    now rewrite calculateTubePayout_nonpositive. }
  pose proof (@resolveParticipant_from config dealerResult playerResult round
                registry p _ Hactive Hresult Hr) as Hres.
  do 3 eexists. split; [exact Hres |].
  cbn [res_round res_outcome res_payout res_tubePayout res_bustPenalty res_isBusted].
  rewrite Htube.
  split; [reflexivity |]. split; [reflexivity |]. split; [reflexivity |].
  split; [reflexivity |]. split; [simpl; ring |]. split; [reflexivity |].
  split; [reflexivity |].
  intros ledger.
  destruct (@ledgerAfter_pushed ledger round
              (push_outcome o (push_bustPenalty penalty round)) o [] [penalty]
              eq_refl (eq_sym (app_nil_r _)) eq_refl)
    as (Hp & Hb & _).
  cbn [List.map sumOf fold_right isWin outcome outcome_payout bust_amount andb
       o penalty] in Hp, Hb.
  split; [eapply Qeq_trans; [exact Hb | lra] | eapply Qeq_trans; [exact Hp | lra]].
Qed.

(** X22.  A participant who beats the dealer with a tube hand while the
    tube holds something wins what the configured strategy pays, clamped
    by the balance: the tube pays out exactly what the participant is
    credited, its balance goes down by that amount and stays
    non-negative, the other tubes are untouched, and the statistics count
    a win.  In the ledger of the completed round the amount is added to
    both [totalTubePayouts] and [totalPayoutsGiven]. *)
Theorem showdown_tube_win (config : EngineConfig)
    (dealerResult playerResult : HandResult) (round : RoundState)
    (registry : HTRegistryClass) (p : Participant) (tube : TubeKey) :
  isActive p = true ->
  handResult p = Some playerResult ->
  0 < compareHands playerResult dealerResult ->
  handRankToTube (hand_rank playerResult) = Some tube ->
  0 < tubeAt tube (tubeBalances round) ->
  exists round' registry' p' raw paid,
    resolveParticipant Math_log now config dealerResult round registry p
    = Ok (round', registry', p')
    /\ calculate (getPayoutStrategy Math_log (payoutStrategy config))
         {| current := tubeAt tube (tubeBalances round);
            initial := tube_initial (tubeAt tube (tubes config));
            max := tube_max (tubeAt tube (tubes config)) |} = Ok raw
    /\ paid = Qmin raw (tubeAt tube (tubeBalances round))
    /\ outcomes round'
       = outcomes round
         ++ [ {| participantId := participant_id p; outcome := win;
                 handRank := hand_rank playerResult; outcome_payout := 0;
                 tubePayout := paid; bustPenalty := 0 |} ]
    /\ tubePayouts round'
       = tubePayouts round
         ++ [ {| tubeType := tube; tube_amount := paid;
                 tube_participantId := participant_id p;
                 tube_timestamp := now |} ]
    /\ bustPenalties round' = bustPenalties round
    /\ tubeAt tube (tubeBalances round') = tubeAt tube (tubeBalances round) - paid
    /\ 0 <= tubeAt tube (tubeBalances round')
    /\ (forall k, k <> tube ->
          tubeAt k (tubeBalances round') = tubeAt k (tubeBalances round))
    /\ credits p' == credits p + paid
    /\ isBusted p' = isBusted p
    /\ registry' = recordOutcome (decisionIdOrDefault p) win (ante config) (0 + paid)
                     (Some (tubeName tube)) registry
    /\ forall ledger,
         totalTubePayouts (ledgerAfter ledger round')
         == totalTubePayouts (ledgerAfter ledger round) + paid
         /\ totalPayoutsGiven (ledgerAfter ledger round')
            == totalPayoutsGiven (ledgerAfter ledger round) + paid
         /\ totalBustPenaltiesCollected (ledgerAfter ledger round')
            == totalBustPenaltiesCollected (ledgerAfter ledger round).
Proof.
  intros Hactive Hresult Hwin Htube Hpos.
  destruct (builtin_strategy_returns Math_log (payoutStrategy config)
              {| current := tubeAt tube (tubeBalances round);
                 initial := tube_initial (tubeAt tube (tubes config));
                 max := tube_max (tubeAt tube (tubes config)) |})
    as [raw Hraw].
  set (paid := Qmin raw (tubeAt tube (tubeBalances round))).
  set (record := {| tubeType := tube; tube_amount := paid;
                    tube_participantId := participant_id p;
                    tube_timestamp := now |}).
  set (o := {| participantId := participant_id p; outcome := win;
               handRank := hand_rank playerResult; outcome_payout := 0;
               tubePayout := paid; bustPenalty := 0 |}).
  set (round1 := push_tubePayout record
                   (set_tubeBalances
                      (tubeSet tube (tubeAt tube (tubeBalances round) - paid)
                         (tubeBalances round)) round)).
  assert (Hr : resolveComparison Math_log now config round p playerResult
                 (compareHands playerResult dealerResult)
               = Ok {| res_outcome := win; res_payout := 0; res_tubePayout := paid;
                       res_bustPenalty := 0; res_isBusted := isBusted p;
                       res_round := round1 |}).
  { unfold resolveComparison. apply gtb_true in Hwin. rewrite Hwin, Htube.
    erewrite calculateTubePayout_positive; [reflexivity | exact Hpos | exact Hraw]. }
  pose proof (@resolveParticipant_from config dealerResult playerResult round
                registry p _ Hactive Hresult Hr) as Hres.
  do 3 eexists. exists raw, paid. split; [exact Hres |].
  cbn [res_round res_outcome res_payout res_tubePayout res_bustPenalty res_isBusted].
  rewrite Htube.
  split; [exact Hraw |]. split; [reflexivity |]. split; [reflexivity |].
  split; [reflexivity |]. split; [reflexivity |].
  split; [cbn; apply tubeAt_tubeSet_same |].
  split.
  { cbn. rewrite tubeAt_tubeSet_same.
    pose proof (Q.le_min_r raw (tubeAt tube (tubeBalances round))).
    unfold paid. lra. }
  split.
  { intros k Hne. cbn. rewrite tubeAt_tubeSet.
    destruct (TubeKey_eqb k tube) eqn:E; [| reflexivity].
    exfalso. apply Hne. destruct k, tube; simpl in E; congruence. }
  split; [cbn; ring |]. split; [reflexivity |]. split; [reflexivity |].
  intros ledger.
  destruct (@ledgerAfter_pushed ledger round (push_outcome o round1) o [record] []
              eq_refl eq_refl (eq_sym (app_nil_r _)))
    as (Hp & Hb & Ht).
  cbn [List.map sumOf fold_right isWin outcome outcome_payout tube_amount andb
       o record] in Hp, Hb, Ht.
  assert (Hzero : gtb 0 0 = false) by reflexivity.
  rewrite Hzero in Hp.
  split; [eapply Qeq_trans; [exact Ht | lra] |].
  split; [eapply Qeq_trans; [exact Hp | lra] | eapply Qeq_trans; [exact Hb | lra]].
Qed.

(** X23.  A participant who beats the dealer with a hand that has no
    tube wins the ante, and nothing more; one who loses, or ties a dealer
    who wins ties, gets nothing.  Neither case touches a tube or enters a
    bust penalty; the ledger of the completed round records the ante of
    the win as a payout when it is positive, and nothing for the loss. *)
Theorem showdown_plain_outcomes (config : EngineConfig)
    (dealerResult playerResult : HandResult) (round : RoundState)
    (registry : HTRegistryClass) (p : Participant) :
  isActive p = true ->
  handResult p = Some playerResult ->
  (0 < compareHands playerResult dealerResult ->
   handRankToTube (hand_rank playerResult) = None ->
   resolveParticipant Math_log now config dealerResult round registry p
   = Ok (push_outcome
           {| participantId := participant_id p; outcome := win;
              handRank := hand_rank playerResult; outcome_payout := ante config;
              tubePayout := 0; bustPenalty := 0 |} round,
         recordOutcome (decisionIdOrDefault p) win (ante config) (ante config + 0)
           None registry,
         set_credits_busted (credits p + (ante config + 0)) (isBusted p) p)
   /\ forall ledger,
        0 < ante config ->
        totalPayoutsGiven
          (ledgerAfter ledger
             (push_outcome
                {| participantId := participant_id p; outcome := win;
                   handRank := hand_rank playerResult;
                   outcome_payout := ante config;
                   tubePayout := 0; bustPenalty := 0 |} round))
        == totalPayoutsGiven (ledgerAfter ledger round) + ante config)
  /\ (compareHands playerResult dealerResult < 0
      \/ (compareHands playerResult dealerResult == 0
          /\ dealerWinsOnTie config = true) ->
      resolveParticipant Math_log now config dealerResult round registry p
      = Ok (push_outcome
              {| participantId := participant_id p; outcome := lose;
                 handRank := hand_rank playerResult; outcome_payout := 0;
                 tubePayout := 0; bustPenalty := 0 |} round,
            recordOutcome (decisionIdOrDefault p) lose (ante config) (0 + 0)
              (option_map tubeName (handRankToTube (hand_rank playerResult)))
              registry,
            set_credits_busted (credits p + (0 + 0)) (isBusted p) p)
      /\ forall ledger,
           ledgerAfter ledger
             (push_outcome
                {| participantId := participant_id p; outcome := lose;
                   handRank := hand_rank playerResult; outcome_payout := 0;
                   tubePayout := 0; bustPenalty := 0 |} round)
           = ledgerAfter ledger round).
Proof.
  intros Hactive Hresult. split.
  - intros Hwin Hnone. split.
    + assert (Hr : resolveComparison Math_log now config round p playerResult
                     (compareHands playerResult dealerResult)
                   = Ok {| res_outcome := win; res_payout := ante config;
                           res_tubePayout := 0; res_bustPenalty := 0;
                           res_isBusted := isBusted p; res_round := round |}).
      { unfold resolveComparison. apply gtb_true in Hwin. now rewrite Hwin, Hnone. }
      rewrite (@resolveParticipant_from config dealerResult playerResult round
                 registry p _ Hactive Hresult Hr).
      cbn [res_round res_outcome res_payout res_tubePayout res_bustPenalty
           res_isBusted]. now rewrite Hnone.
    + intros ledger Hante.
      match goal with |- context [push_outcome ?o round] =>
        destruct (@ledgerAfter_pushed ledger round (push_outcome o round) o [] []
                    eq_refl (eq_sym (app_nil_r _)) (eq_sym (app_nil_r _)))
          as (Hp & _ & _)
      end.
      cbn [List.map sumOf fold_right isWin outcome outcome_payout andb] in Hp.
      apply gtb_true in Hante. rewrite Hante in Hp.
      eapply Qeq_trans; [exact Hp | lra].
  - intros Hlose. split.
    + assert (Hr : resolveComparison Math_log now config round p playerResult
                     (compareHands playerResult dealerResult)
                   = Ok {| res_outcome := lose; res_payout := 0;
                           res_tubePayout := 0; res_bustPenalty := 0;
                           res_isBusted := isBusted p; res_round := round |}).
      { unfold resolveComparison. destruct Hlose as [Hlt | [Hzero Hflag]].
        - assert (Hgt : gtb (compareHands playerResult dealerResult) 0 = false)
            by (apply gtb_false; lra).
          apply ltb_true in Hlt. now rewrite Hgt, Hlt.
        - assert (Hgt : gtb (compareHands playerResult dealerResult) 0 = false)
            by (apply gtb_false; lra).
          assert (Hlt : ltb (compareHands playerResult dealerResult) 0 = false)
            by (apply ltb_false; lra).
          now rewrite Hgt, Hlt, Hflag. }
      rewrite (@resolveParticipant_from config dealerResult playerResult round
                 registry p _ Hactive Hresult Hr).
      reflexivity.
    + intros ledger. apply ledgerAfter_skips. discriminate.
Qed.

End Showdown.

(** A classifier for closed examples that gives every hand the rank [r]
    and every showdown the verdict [comparison]. *)
Definition verdictEvaluator (r : HandRank) (comparison : number) : HandEvaluator :=
  {| evaluateHand := fun _ => {| hand_rank := r; hand_name := "" |};
     has4CardFlushDraw := fun _ => {| hasFlushDraw := false; flush_cardsToHold := None |};
     has4CardStraightDraw :=
       fun _ => {| hasStraightDraw := false; straight_cardsToHold := None |};
     compareHands := fun _ _ => comparison |}.

Definition royalResult : HandResult :=
  {| hand_rank := royal_flush; hand_name := "Royal Flush" |}.

Definition royalPlayer : Participant :=
  {| participant_id := "player_1"; name := "Player 1"; isDealer := false;
     credits := 995; seatPosition := 1;
     currentHand := []; heldCardIndices := Some [0; 1; 2; 3; 4]%nat;
     finalHand := []; handResult := Some royalResult;
     htDecision := Some (decisionOf rule_H5_RF (Some [0; 1; 2; 3; 4]%nat));
     isBusted := false; isActive := true |}.

Definition pairPlayer : Participant :=
  {| participant_id := "player_2"; name := "Player 2"; isDealer := false;
     credits := 995; seatPosition := 2;
     currentHand := []; heldCardIndices := Some [];
     finalHand := []; handResult := Some tiedResult;
     htDecision := Some fallbackDecision;
     isBusted := false; isActive := true |}.

(** A round in which the royal-flush tube is already empty. *)
Definition drainedRound : RoundState :=
  set_tubeBalances {| atST := 5; atFL := 10; atFH := 15; atSF := 20; atRF := 0 |}
    tiedRound.

Lemma showdown_empty_tube_witness :
  exists round' registry' p',
    resolveParticipant (H := verdictEvaluator royal_flush 1) (fun x => x) 0
      DEFAULT_ENGINE_CONFIG tiedResult drainedRound oneRuleRegistry royalPlayer
    = Ok (round', registry', p')
    /\ List.map bust_amount (bustPenalties round') = [5 * 1.0]
    /\ isBusted p' = true.
Proof.
  destruct (@showdown_empty_tube (verdictEvaluator royal_flush 1) (fun x => x) 0
              DEFAULT_ENGINE_CONFIG tiedResult royalResult drainedRound
              oneRuleRegistry royalPlayer RF
              eq_refl eq_refl eq_refl eq_refl (Qle_refl 0))
    as (round' & registry' & p' & Hres & _ & Hbust & _ & _ & _ & Hflag & _).
  exists round', registry', p'.
  split; [exact Hres |]. split; [now rewrite Hbust | exact Hflag].
Defined.

Lemma showdown_tube_win_witness :
  exists round' registry' p',
    resolveParticipant (H := verdictEvaluator royal_flush 1) (fun x => x) 0
      DEFAULT_ENGINE_CONFIG tiedResult tiedRound oneRuleRegistry royalPlayer
    = Ok (round', registry', p')
    /\ 0 <= tubeAt RF (tubeBalances round')
    /\ isBusted p' = false.
Proof.
  destruct (@showdown_tube_win (verdictEvaluator royal_flush 1) (fun x => x) 0
              DEFAULT_ENGINE_CONFIG tiedResult royalResult tiedRound
              oneRuleRegistry royalPlayer RF
              eq_refl eq_refl eq_refl eq_refl eq_refl)
    as (round' & registry' & p' & raw & paid & Hres & _ & _ & _ & _ & _ & _
        & Hnonneg & _ & _ & Hflag & _).
  exists round', registry', p'.
  split; [exact Hres |]. split; [exact Hnonneg | exact Hflag].
Defined.

Example royal_flush_scenario :
  exists round' registry' p',
    resolveParticipant (H := verdictEvaluator royal_flush 1) (fun x => x) 0
      DEFAULT_ENGINE_CONFIG tiedResult tiedRound oneRuleRegistry royalPlayer
    = Ok (round', registry', p')
    /\ List.map tube_amount (tubePayouts round') = [25]
    /\ tubeAt RF (tubeBalances round') == 0
    /\ credits p' == 1020
    /\ totalTubePayouts (ledgerAfter createHouseLedger round') == 25.
Proof.
  do 3 eexists. split; [reflexivity |]. repeat split.
Qed.

Lemma showdown_plain_outcomes_witness :
  exists round' registry' p',
    resolveParticipant (H := verdictEvaluator pair 1) (fun x => x) 0
      DEFAULT_ENGINE_CONFIG tiedResult tiedRound oneRuleRegistry pairPlayer
    = Ok (round', registry', p')
    /\ List.map outcome_payout (outcomes round') = [5].
Proof.
  destruct (@showdown_plain_outcomes (verdictEvaluator pair 1) (fun x => x) 0
              DEFAULT_ENGINE_CONFIG tiedResult tiedResult tiedRound
              oneRuleRegistry pairPlayer eq_refl eq_refl)
    as [Hwin _].
  destruct (Hwin eq_refl eq_refl) as [Hres _].
  do 3 eexists. split; [exact Hres | reflexivity].
Defined.

(** ** Completing the round *)

(** The balance of a tube after the refill pass. *)
Definition refilled (config : EngineConfig) (balances : TubeBalances) (k : TubeKey)
  : number :=
  if ltb (tubeAt k balances) (tube_max (tubeAt k (tubes config)))
  then Qmin (tubeAt k balances + refillAmount config)
         (tube_max (tubeAt k (tubes config)))
  else tubeAt k balances.

Lemma TubeKey_eqb_eq (a b : TubeKey) : TubeKey_eqb a b = true <-> a = b.
Proof. destruct a, b; simpl; split; congruence. Qed.

Lemma refillTube_balances (config : EngineConfig) (round : RoundState)
    (k k' : TubeKey) :
  tubeAt k (tubeBalances (refillTube config round k'))
  = if TubeKey_eqb k k' then refilled config (tubeBalances round) k
    else tubeAt k (tubeBalances round).
Proof.
  unfold refillTube, refilled, Math_min.
  destruct (TubeKey_eqb k k') eqn:E.
  - apply TubeKey_eqb_eq in E. subst k'.
    destruct (ltb _ _); destruct (leb _ _); cbn;
      try rewrite tubeAt_tubeSet_same; reflexivity.
  - destruct (ltb _ _); destruct (leb _ _); cbn;
      try rewrite tubeAt_tubeSet, E; reflexivity.
Qed.

Lemma refillTube_triggers (config : EngineConfig) (round : RoundState) (k : TubeKey) :
  stackTriggers (refillTube config round k)
  = stackTriggers round
    ++ (if leb (tubeAt k (tubeBalances round)) (autoRefillThreshold config)
        then [k] else []).
Proof.
  unfold refillTube.
  destruct (ltb _ _); destruct (leb _ _); cbn; now rewrite ?app_nil_r.
Qed.

Lemma refillTube_keeps (config : EngineConfig) (round : RoundState) (k : TubeKey) :
  outcomes (refillTube config round k) = outcomes round
  /\ tubePayouts (refillTube config round k) = tubePayouts round
  /\ bustPenalties (refillTube config round k) = bustPenalties round
  /\ anteCollected (refillTube config round k) = anteCollected round
  /\ participants (refillTube config round k) = participants round.
Proof.
  unfold refillTube. destruct (ltb _ _); destruct (leb _ _); now cbn.
Qed.

(** The tubes at or below the stack-trigger threshold. *)
Definition triggered (config : EngineConfig) (balances : TubeBalances)
  : list TubeKey :=
  filter (fun k => leb (tubeAt k balances) (autoRefillThreshold config)) tubeKeys.

Lemma refill_pass_keeps (config : EngineConfig) (keys : list TubeKey) :
  forall round,
  outcomes (fold_left (refillTube config) keys round) = outcomes round
  /\ tubePayouts (fold_left (refillTube config) keys round) = tubePayouts round
  /\ bustPenalties (fold_left (refillTube config) keys round) = bustPenalties round
  /\ anteCollected (fold_left (refillTube config) keys round) = anteCollected round.
Proof.
  induction keys as [| k keys IH]; intros round; simpl; [now repeat split |].
  destruct (IH (refillTube config round k)) as (-> & -> & -> & ->).
  destruct (refillTube_keeps config round k) as (-> & -> & -> & -> & _).
  now repeat split.
Qed.

Lemma refill_pass (config : EngineConfig) (round : RoundState) :
  (forall k,
      tubeAt k (tubeBalances (fold_left (refillTube config) tubeKeys round))
      = refilled config (tubeBalances round) k)
  /\ stackTriggers (fold_left (refillTube config) tubeKeys round)
     = stackTriggers round ++ triggered config (tubeBalances round)
  /\ outcomes (fold_left (refillTube config) tubeKeys round) = outcomes round
  /\ tubePayouts (fold_left (refillTube config) tubeKeys round) = tubePayouts round
  /\ bustPenalties (fold_left (refillTube config) tubeKeys round)
     = bustPenalties round
  /\ anteCollected (fold_left (refillTube config) tubeKeys round)
     = anteCollected round.
Proof.
  unfold tubeKeys. cbn [fold_left].
  set (r1 := refillTube config round ST).
  set (r2 := refillTube config r1 FL).
  set (r3 := refillTube config r2 FH).
  set (r4 := refillTube config r3 SF).
  assert (Hb : forall k k', TubeKey_eqb k k' = false ->
             forall r, tubeAt k (tubeBalances (refillTube config r k'))
                       = tubeAt k (tubeBalances r)).
  { intros k k' E r. now rewrite refillTube_balances, E. }
  assert (Hs : forall k r,
             tubeAt k (tubeBalances r) = tubeAt k (tubeBalances round) ->
             tubeAt k (tubeBalances (refillTube config r k))
             = refilled config (tubeBalances round) k).
  { intros k r Hsame. rewrite refillTube_balances.
    assert (TubeKey_eqb k k = true) as -> by now apply TubeKey_eqb_eq.
    unfold refilled. now rewrite Hsame. }
  split; [| split].
  - intros k. unfold r4, r3, r2, r1.
    destruct k; rewrite ?Hb by reflexivity; apply Hs;
      rewrite ?Hb by reflexivity; reflexivity.
  - unfold r4, r3, r2, r1. rewrite !refillTube_triggers.
    rewrite ?Hb by reflexivity. unfold triggered, tubeKeys. cbn [filter].
    rewrite <- ?app_assoc.
    destruct (leb (tubeAt ST _) _); destruct (leb (tubeAt FL _) _);
      destruct (leb (tubeAt FH _) _); destruct (leb (tubeAt SF _) _);
      destruct (leb (tubeAt RF _) _); reflexivity.
  - unfold r4, r3, r2, r1.
    change (refillTube config
              (refillTube config
                 (refillTube config
                    (refillTube config (refillTube config round ST) FL) FH) SF) RF)
      with (fold_left (refillTube config) [ST; FL; FH; SF; RF] round).
    destruct (refill_pass_keeps config [ST; FL; FH; SF; RF] round)
      as (-> & -> & -> & ->).
    repeat split.
Qed.

(** X24.  [completeRound] raises without a current round.  Otherwise,
    when one of the two refill flags is set, every tube below its maximum
    gains [refillAmount], capped at the maximum, and every tube that was
    at or below [autoRefillThreshold] before the refill is entered in the
    stack triggers, in the order ST, FL, FH, SF, RF; with neither flag set
    nothing is refilled or triggered.  The ledger becomes
    [processRoundOutcomes] of the round's records, the round is appended
    to the history, and [isRunning] is cleared.  A tube within its maximum
    stays within it, and with a refill amount that is not negative no
    balance goes down. *)
Theorem completeRound_effect (state : GameOrchestratorState) :
  (currentRound state = None -> completeRound state = Throw "No active round")
  /\ (forall round,
        currentRound state = Some round ->
        exists state' round',
          completeRound state = Ok state'
          /\ currentRound state' = Some round'
          /\ roundHistory state' = roundHistory state ++ [round']
          /\ isRunning state' = false
          /\ config state' = config state
          /\ phase round' = phase_complete
          /\ outcomes round' = outcomes round
          /\ houseLedger state'
             = processRoundOutcomes (houseLedger state) (outcomes round)
                 (tubePayouts round) (bustPenalties round) (anteCollected round)
          /\ (forall k,
                tubeAt k (tubeBalances round')
                = if playerRefillsOnWin (config state)
                     || houseRefillsOnEmpty (config state)
                  then refilled (config state) (tubeBalances round) k
                  else tubeAt k (tubeBalances round))
          /\ stackTriggers round'
             = stackTriggers round
               ++ (if playerRefillsOnWin (config state)
                      || houseRefillsOnEmpty (config state)
                   then triggered (config state) (tubeBalances round)
                   else [])
          /\ (forall k,
                tubeAt k (tubeBalances round)
                <= tube_max (tubeAt k (tubes (config state))) ->
                tubeAt k (tubeBalances round')
                <= tube_max (tubeAt k (tubes (config state))))
          /\ (0 <= refillAmount (config state) ->
              forall k, tubeAt k (tubeBalances round)
                        <= tubeAt k (tubeBalances round'))).
Proof.
  unfold completeRound, requireRound.
  split; [intros ->; reflexivity |].
  intros round ->. cbn [bind].
  do 2 eexists. split; [reflexivity |].
  cbn [currentRound roundHistory isRunning config houseLedger].
  destruct (refill_pass (config state) (set_phase phase_payout round))
    as (Hbal & Htrig & Hout & Htube & Hbust & Hante).
  assert (Hcases :
            forall k,
              tubeAt k (tubeBalances
                          (if playerRefillsOnWin (config state)
                              || houseRefillsOnEmpty (config state)
                           then fold_left (refillTube (config state)) tubeKeys
                                  (set_phase phase_payout round)
                           else set_phase phase_payout round))
              = if playerRefillsOnWin (config state)
                   || houseRefillsOnEmpty (config state)
                then refilled (config state) (tubeBalances round) k
                else tubeAt k (tubeBalances round)).
  { intros k.
    destruct (playerRefillsOnWin (config state) || houseRefillsOnEmpty (config state));
      [apply Hbal | reflexivity]. }
  split; [reflexivity |]. split; [reflexivity |]. split; [reflexivity |].
  split; [reflexivity |]. split; [reflexivity |].
  split.
  { cbn. destruct (playerRefillsOnWin (config state)
                   || houseRefillsOnEmpty (config state));
           [exact Hout | reflexivity]. }
  split.
  { destruct (playerRefillsOnWin (config state)
              || houseRefillsOnEmpty (config state));
      [now rewrite Hout, Htube, Hbust, Hante | reflexivity]. }
  split; [exact Hcases |].
  split.
  { cbn. destruct (playerRefillsOnWin (config state)
                   || houseRefillsOnEmpty (config state));
           [exact Htrig | now rewrite app_nil_r]. }
  split.
  - intros k Hle. cbn. rewrite Hcases.
    destruct (playerRefillsOnWin (config state) || houseRefillsOnEmpty (config state));
      [| exact Hle].
    unfold refilled. destruct (ltb _ _); [apply Q.le_min_r | exact Hle].
  - intros Hrefill k. cbn. rewrite Hcases.
    destruct (playerRefillsOnWin (config state) || houseRefillsOnEmpty (config state));
      [| apply Qle_refl].
    unfold refilled. destruct (ltb _ _) eqn:Hlt; [| apply Qle_refl].
    apply ltb_true in Hlt. apply Q.min_glb; lra.
Qed.

(** ** The phases before the showdown *)

Lemma sumOf_debited (a : number) (ps : list Participant) :
  sumOf (List.map credits (List.map (fun p => set_credits (credits p - a) p) ps))
  == sumOf (List.map credits ps) - a * inject_Z (Z.of_nat (List.length ps)).
Proof.
  assert (Hcons : forall x l, sumOf (x :: l) = x + sumOf l) by reflexivity.
  induction ps as [| p ps IH].
  - cbn [List.map sumOf fold_right List.length Z.of_nat]. unfold inject_Z. lra.
  - cbn [List.map List.length]. rewrite !Hcons, IH.
    rewrite Nat2Z.inj_succ, <- Z.add_1_r, inject_Z_plus.
    cbn [credits set_credits set_credits_busted].
    change (inject_Z 1) with 1. lra.
Qed.

(** X25.  [collectAntes] raises without a current round.  Otherwise it
    takes the ante from every participant and from the dealer, whatever
    their credits, and sets the pot and the ante collected to the ante
    times the number of seats, dealer included: what the seats lose is
    what the round collects.  The ledger is not touched at this point. *)
Theorem collectAntes_conserves (state : GameOrchestratorState) :
  (currentRound state = None -> collectAntes state = Throw "No active round")
  /\ (forall round,
        currentRound state = Some round ->
        exists state' round',
          collectAntes state = Ok state'
          /\ currentRound state' = Some round'
          /\ phase round' = phase_ante
          /\ houseLedger state' = houseLedger state
          /\ anteCollected round'
             = ante (config state)
               * (inject_Z (Z.of_nat (List.length (participants round))) + 1)
          /\ playPot round' = anteCollected round'
          /\ List.map credits (participants round')
             = List.map (fun p => credits p - ante (config state))
                 (participants round)
          /\ credits (dealer round') = credits (dealer round) - ante (config state)
          /\ sumOf (List.map credits (participants round)) + credits (dealer round)
             - (sumOf (List.map credits (participants round'))
                + credits (dealer round'))
             == anteCollected round').
Proof.
  unfold collectAntes, requireRound.
  split; [intros ->; reflexivity |].
  intros round ->. cbn [bind]. do 2 eexists. split; [reflexivity |].
  cbn [currentRound with_round houseLedger].
  split; [reflexivity |]. split; [reflexivity |]. split; [reflexivity |].
  split; [reflexivity |]. split; [reflexivity |].
  split; [cbn; now rewrite map_map |]. split; [reflexivity |].
  cbn [participants dealer anteCollected set_pot set_dealer set_participants
       set_phase credits set_credits set_credits_busted].
  rewrite sumOf_debited. lra.
Qed.

(** The number of positions among [i], ..., [i + count - 1] that are not
    held, which is the number of cards taken from the deck. *)
Fixpoint drawnCount (count i : nat) (held : list nat) : nat :=
  match count with
  | O => O
  | S count' =>
      if existsb (Nat.eqb i) held then drawnCount count' (S i) held
      else S (drawnCount count' (S i) held)
  end.

Lemma nth_error_tl (A : Type) (l : list A) (n : nat) :
  nth_error (List.tl l) n = nth_error l (S n).
Proof. destruct l; [now destruct n | reflexivity]. Qed.

Lemma skipn_tl (A : Type) (l : list A) (n : nat) :
  skipn n (List.tl l) = skipn (S n) l.
Proof. destruct l; [now destruct n | reflexivity]. Qed.

Lemma drawnCount_split (held : list nat) (j : nat) :
  forall i,
  drawnCount (S j) i held
  = ((if existsb (Nat.eqb i) held then 0 else 1) + drawnCount j (S i) held)%nat.
Proof. intros i. simpl. now destruct (existsb (Nat.eqb i) held). Qed.

Lemma drawLoop_spec (held : list nat) (currentHand : list Card) (count : nat) :
  forall (i : nat) (deck : list Card),
  List.length (fst (drawLoop count i held currentHand deck)) = count
  /\ snd (drawLoop count i held currentHand deck)
     = skipn (drawnCount count i held) deck
  /\ forall j, (j < count)%nat ->
       nth_error (fst (drawLoop count i held currentHand deck)) j
       = Some (if existsb (Nat.eqb (i + j)) held
               then nth_error currentHand (i + j)
               else nth_error deck (drawnCount j i held)).
Proof.
  induction count as [| count IH]; intros i deck; simpl.
  - split; [reflexivity | split; [reflexivity | intros j Hj; lia]].
  - destruct (existsb (Nat.eqb i) held) eqn:Hheld.
    + destruct (IH (S i) deck) as (Hlen & Hdeck & Hnth).
      destruct (drawLoop count (S i) held currentHand deck) as [hand deck'].
      simpl in *. split; [now rewrite Hlen | split; [exact Hdeck |]].
      intros [| j] Hj; simpl.
      * now rewrite Nat.add_0_r, Hheld.
      * rewrite Hnth by lia. rewrite Hheld.
        now replace (i + S j)%nat with (S i + j)%nat by lia.
    + destruct (IH (S i) (List.tl deck)) as (Hlen & Hdeck & Hnth).
      destruct (drawLoop count (S i) held currentHand (List.tl deck))
        as [hand deck'].
      simpl in *. split; [now rewrite Hlen |].
      split; [now rewrite Hdeck, skipn_tl |].
      intros [| j] Hj; simpl.
      * rewrite Nat.add_0_r, Hheld. now destruct deck.
      * rewrite Hnth by lia. rewrite Hheld.
        replace (i + S j)%nat with (S i + j)%nat by lia.
        now rewrite nth_error_tl.
Qed.

Lemma drawnCount_le (held : list nat) (count : nat) :
  forall i, (drawnCount count i held <= count)%nat.
Proof.
  induction count as [| count IH]; intros i; simpl; [lia |].
  specialize (IH (S i)). destruct (existsb (Nat.eqb i) held); lia.
Qed.

(** The hold set of a participant, empty when [heldCardIndices] is
    [undefined]. *)
Definition heldSet (p : Participant) : list nat :=
  match heldCardIndices p with Some held => held | None => [] end.

(** X26.  The draw builds a hand of five entries: a held position keeps
    the card dealt there, every other position takes the next card from
    the top of the deck, in order, and the deck loses exactly as many
    cards as there are positions not held (the whole deck if it has
    fewer); an entry is [undefined] only where the dealt hand or the deck
    has no card. *)
Theorem drawHand_spec (p : Participant) (deck : list Card) :
  List.length (fst (drawHand p deck)) = 5%nat
  /\ snd (drawHand p deck) = skipn (drawnCount 5 0 (heldSet p)) deck
  /\ (drawnCount 5 0 (heldSet p) <= 5)%nat
  /\ (forall j, (j < 5)%nat ->
        nth_error (fst (drawHand p deck)) j
        = Some (if existsb (Nat.eqb j) (heldSet p)
                then nth_error (currentHand p) j
                else nth_error deck (drawnCount j 0 (heldSet p))))
  /\ (List.length (currentHand p) = 5%nat ->
      (5 <= List.length deck)%nat ->
      Forall (fun entry => entry <> None) (fst (drawHand p deck))).
Proof.
  unfold drawHand. fold (heldSet p).
  destruct (drawLoop_spec (heldSet p) (currentHand p) 5 0 deck)
    as (Hlen & Hdeck & Hnth).
  split; [exact Hlen |]. split; [exact Hdeck |].
  split; [apply drawnCount_le |]. split; [exact Hnth |].
  intros Hhand Hdecklen. apply Forall_forall. intros entry Hin.
  apply In_nth_error in Hin as [j Hj].
  assert (Hlt : (j < 5)%nat).
  { rewrite <- Hlen. apply nth_error_Some. congruence. }
  rewrite (Hnth j Hlt) in Hj. simpl in Hj. injection Hj as <-.
  destruct (existsb (Nat.eqb j) (heldSet p)).
  - apply nth_error_Some. lia.
  - apply nth_error_Some. pose proof (drawnCount_le (heldSet p) j 0). lia.
Qed.

Example draw_keeps_held_cards :
  drawHand
    {| participant_id := "player_1"; name := "Player 1"; isDealer := false;
       credits := 995; seatPosition := 1;
       currentHand := twoPairHand; heldCardIndices := Some [0; 2; 1; 4]%nat;
       finalHand := []; handResult := None; htDecision := None;
       isBusted := false; isActive := true |}
    lowHand
  = ([ Some {| rank := R9; suit := clubs |}; Some {| rank := RK; suit := diamonds |};
       Some {| rank := R9; suit := hearts |}; Some {| rank := R2; suit := clubs |};
       Some {| rank := RK; suit := clubs |} ],
     List.tl lowHand).
Proof. reflexivity. Qed.

Section HoldPhase.

Context `{HandEvaluator}.

(** What the hold phase does to one seat. *)
Definition decided (registry : HTRegistryClass) (p p' : Participant) : Prop :=
  if isActive p
  then exists decision,
         decide (currentHand p) registry = Ok decision
         /\ p' = set_decision decision p
  else p' = p.

Definition fiveIfActive (p : Participant) : Prop :=
  isActive p = true -> List.length (currentHand p) = 5%nat.

Lemma applyDecision_returns (registry : HTRegistryClass) (p : Participant) :
  fiveIfActive p ->
  exists p', applyDecision registry p = Ok p' /\ decided registry p p'.
Proof.
  unfold fiveIfActive, applyDecision, decided. intros Hfive.
  destruct (isActive p); simpl; [| now exists p].
  rewrite (@decide_five _ (currentHand p) registry (Hfive eq_refl)). simpl.
  eexists. split; [reflexivity |]. eexists. split; reflexivity.
Qed.

Lemma applyDecision_raises (registry : HTRegistryClass) (p : Participant) :
  isActive p = true -> List.length (currentHand p) <> 5%nat ->
  applyDecision registry p = Throw "HT decision requires exactly 5 cards".
Proof.
  intros Hactive Hlen. unfold applyDecision. rewrite Hactive. simpl.
  now rewrite (@decide_wrong_count _ (currentHand p) registry Hlen).
Qed.

Lemma applyDecisions_returns (registry : HTRegistryClass) (ps : list Participant) :
  Forall fiveIfActive ps ->
  exists ps', applyDecisions registry ps = Ok ps'
              /\ Forall2 (decided registry) ps ps'.
Proof.
  induction ps as [| p ps IH]; intros Hall; simpl.
  - exists []. split; [reflexivity | constructor].
  - inversion Hall as [| ? ? Hp Hps]; subst.
    destruct (@applyDecision_returns registry _ Hp) as [p' [-> Hdec]].
    destruct (IH Hps) as [ps' [-> Hdecs]]. simpl.
    exists (p' :: ps'). split; [reflexivity | now constructor].
Qed.

Lemma applyDecision_throws_or_returns (registry : HTRegistryClass) (p : Participant) :
  (exists p', applyDecision registry p = Ok p')
  \/ applyDecision registry p = Throw "HT decision requires exactly 5 cards".
Proof.
  destruct (isActive p) eqn:Hactive.
  - destruct (Nat.eq_dec (List.length (currentHand p)) 5) as [Hfive | Hne].
    + left. destruct (@applyDecision_returns registry p (fun _ => Hfive))
        as [p' [Hok _]]. now exists p'.
    + right. now apply applyDecision_raises.
  - left. exists p. unfold applyDecision. now rewrite Hactive.
Qed.

Lemma applyDecisions_raises (registry : HTRegistryClass) (ps : list Participant) :
  Exists (fun p => isActive p = true /\ List.length (currentHand p) <> 5%nat) ps ->
  applyDecisions registry ps = Throw "HT decision requires exactly 5 cards".
Proof.
  induction ps as [| p ps IH]; intros Hex; [inversion Hex |]. simpl.
  destruct (applyDecision_throws_or_returns registry p) as [[p' Hok] | Hthrow];
    [| now rewrite Hthrow].
  rewrite Hok. simpl. inversion Hex as [? ? [Hactive Hlen] | ? ? Hrest]; subst.
  - rewrite (@applyDecision_raises registry p Hactive Hlen) in Hok. discriminate.
  - now rewrite (IH Hrest).
Qed.

(** X27.  With a current round, [applyHTDecisions] returns when every
    active seat, dealer included, holds exactly five cards: each active
    seat then carries the decision [decide] takes on its hand, with the
    hold positions of that decision, and an inactive seat is unchanged.
    It raises when some active seat holds another number of cards. *)
Theorem applyHTDecisions_effect (state : GameOrchestratorState)
    (registry : HTRegistryClass) (round : RoundState) :
  currentRound state = Some round ->
  (Forall fiveIfActive (participants round) -> fiveIfActive (dealer round) ->
   exists state' round',
     applyHTDecisions state registry = Ok state'
     /\ currentRound state' = Some round'
     /\ phase round' = phase_hold
     /\ Forall2 (decided registry) (participants round) (participants round')
     /\ decided registry (dealer round) (dealer round'))
  /\ (Exists (fun p => isActive p = true /\ List.length (currentHand p) <> 5%nat)
        (participants round ++ [dealer round]) ->
      applyHTDecisions state registry
      = Throw "HT decision requires exactly 5 cards").
Proof.
  intros Hround. unfold applyHTDecisions, requireRound. rewrite Hround.
  cbn [bind]. split.
  - intros Hps Hdealer.
    destruct (@applyDecisions_returns registry _ Hps) as [ps' [Hok Hdecs]].
    destruct (@applyDecision_returns registry _ Hdealer) as [d' [Hokd Hdecd]].
    cbn [participants dealer set_phase]. rewrite Hok. cbn [bind].
    rewrite Hokd. cbn [bind].
    do 2 eexists. split; [reflexivity |]. cbn.
    split; [reflexivity |]. split; [reflexivity |]. split; assumption.
  - intros Hex. cbn [participants dealer set_phase].
    apply Exists_app in Hex as [Hps | Hd].
    + now rewrite (@applyDecisions_raises registry _ Hps).
    + inversion Hd as [? ? [Hactive Hlen] | ? ? Hnil]; subst; [| inversion Hnil].
      destruct (Exists_dec (fun p => isActive p = true
                                     /\ List.length (currentHand p) <> 5%nat)
                  (participants round)) as [Hps | Hnone].
      * intros p. destruct (isActive p);
          destruct (Nat.eq_dec (List.length (currentHand p)) 5);
          [right | left | right | right]; intuition congruence.
      * now rewrite (@applyDecisions_raises registry _ Hps).
      * assert (Hall : Forall fiveIfActive (participants round)).
        { apply Forall_forall. intros p Hin Hactive'.
          destruct (Nat.eq_dec (List.length (currentHand p)) 5) as [E | E];
            [exact E |].
          exfalso. apply Hnone. apply Exists_exists. exists p. auto. }
        destruct (@applyDecisions_returns registry _ Hall) as [ps' [-> _]].
        cbn [bind]. now rewrite (@applyDecision_raises registry _ Hactive Hlen).
Qed.

End HoldPhase.

Definition heldRound : RoundState :=
  set_dealer
    {| participant_id := "dealer"; name := "Dealer"; isDealer := true;
       credits := 9995; seatPosition := 0;
       currentHand := twoPairHand; heldCardIndices := None;
       finalHand := []; handResult := None; htDecision := None;
       isBusted := false; isActive := true |}
    (set_participants
       [ {| participant_id := "player_1"; name := "Player 1"; isDealer := false;
            credits := 995; seatPosition := 1;
            currentHand := lowHand; heldCardIndices := None;
            finalHand := []; handResult := None; htDecision := None;
            isBusted := false; isActive := true |} ]
       tiedRound).

Lemma applyHTDecisions_effect_witness :
  exists state',
    applyHTDecisions (H := levelEvaluator) (with_round heldRound tiedState)
      (HTRegistry (H := levelEvaluator)) = Ok state'
    /\ List.map (option_map htId)
         (List.map htDecision
            (match currentRound state' with
             | Some round' => participants round'
             | None => []
             end))
       = [Some "H0.DRAW5"].
Proof.
  destruct (@applyHTDecisions_effect levelEvaluator (with_round heldRound tiedState)
              (HTRegistry (H := levelEvaluator)) heldRound eq_refl)
    as [Hok _].
  destruct Hok as (state' & round' & Hres & Hround & _).
  - constructor; [intros _; reflexivity | constructor].
  - intros _. reflexivity.
  - exists state'. split; [exact Hres |].
    vm_compute in Hres. injection Hres as <-. reflexivity.
Defined.

(** ** Issues and optimality *)

Section DoubleIssues.

Import Floats.
Local Open Scope float_scope.

Variable toFixed : float -> nat -> string.

Lemma optimal_no_volatility_issue (this : Double.AIBalancingEngine)
    (metrics : Double.SimulationMetrics) :
  Double.leb (Double.volatilityIndex metrics)
    (Double.maxVolatility (Double.objective this)) = true ->
  Double.volatilityIssues toFixed this metrics = [].
Proof.
  unfold Double.leb, Double.volatilityIssues, Double.gtb. intros Hle.
  now rewrite (double_leb_not_gtb Hle).
Qed.

Lemma optimal_no_exploit_issue (this : Double.AIBalancingEngine)
    (metrics : Double.SimulationMetrics) :
  forallb (fun ht => Double.leb (Double.ev ht)
                       (Double.maxExploitEV (Double.objective this)))
    (Double.exploitableHTs metrics) = true ->
  Double.exploitIssues toFixed this metrics = [].
Proof.
  unfold Double.exploitIssues, Double.leb, Double.gtb.
  induction (Double.exploitableHTs metrics) as [| ht hts IH]; simpl;
    [reflexivity |].
  intros Hall. apply andb_true_iff in Hall as [Hle Hall].
  rewrite (double_leb_not_gtb Hle). simpl. now apply IH.
Qed.

(** X28.  In the double arithmetic of the code, metrics that [isOptimal]
    accepts raise no volatility issue and no exploit issue in
    [identifyIssues].  On the edge band the two do not agree: with the
    default objective a house edge of 0.07 raises no edge issue, and with
    no other issue no issue at all, and is yet not optimal, since 0.05 +
    0.02 rounds to 0.07 while |0.07 - 0.05| rounds to
    0.020000000000000004; and a house edge of 0.03 is reported as
    [low_edge], 0.05 - 0.02 rounding to 0.030000000000000002. *)
Theorem isOptimal_issues_double :
  (forall this metrics,
      Double.isOptimal this metrics = true ->
      Double.volatilityIssues toFixed this metrics = []
      /\ Double.exploitIssues toFixed this metrics = [])
  /\ (forall metrics,
        Double.houseEdge metrics = 0.07 ->
        Double.edgeIssues toFixed doubleBalancer metrics = []
        /\ Double.isOptimal doubleBalancer metrics = false)
  /\ Double.identifyIssues toFixed doubleBalancer (metricsAt 0.07 (everyTube 0)) = []
  /\ List.map issue_type
       (Double.edgeIssues toFixed doubleBalancer (metricsAt 0.03 (everyTube 0)))
     = [low_edge].
Proof.
  split; [| split; [| split]].
  - intros this metrics Hopt. unfold Double.isOptimal in Hopt.
    apply andb_true_iff in Hopt as [Hopt Hexploit].
    apply andb_true_iff in Hopt as [_ Hvol].
    split; [now apply optimal_no_volatility_issue
           | now apply optimal_no_exploit_issue].
  - intros metrics Hedge.
    unfold Double.edgeIssues, Double.isOptimal. rewrite Hedge. split.
    + reflexivity.
    + reflexivity.
  - reflexivity.
  - reflexivity.
Qed.

End DoubleIssues.

(** ** The optimization loop *)

(** What a tuned configuration can differ in from the one it started
    from: the bust penalty multiplier (within [[0.5, 2]] once changed),
    the refill amount (at most 5 once changed) and the tubes' initial
    balances. *)
Definition tunedFrom (c c' : EngineConfig) : Prop :=
  playerCount c' = playerCount c
  /\ ante c' = ante c
  /\ dealerDrawAllowed c' = dealerDrawAllowed c
  /\ dealerBustAllowed c' = dealerBustAllowed c
  /\ dealerWinsOnTie c' = dealerWinsOnTie c
  /\ dealerAggression c' = dealerAggression c
  /\ payoutStrategy c' = payoutStrategy c
  /\ playerRefillsOnWin c' = playerRefillsOnWin c
  /\ houseRefillsOnEmpty c' = houseRefillsOnEmpty c
  /\ autoRefillThreshold c' = autoRefillThreshold c
  /\ bonusPayoutThreshold c' = bonusPayoutThreshold c
  /\ (forall k, tube_max (tubeAt k (tubes c')) = tube_max (tubeAt k (tubes c)))
  /\ (bustPenaltyMultiplier c' = bustPenaltyMultiplier c
      \/ 0.5 <= bustPenaltyMultiplier c' <= 2)
  /\ (refillAmount c' = refillAmount c \/ refillAmount c' <= 5).

Lemma tunedFrom_refl (c : EngineConfig) : tunedFrom c c.
Proof. unfold tunedFrom. repeat split; auto. Qed.

Lemma tunedFrom_step (this : AIBalancingEngine) (metrics : SimulationMetrics)
    (c c' : EngineConfig) :
  tunedFrom c c' ->
  tunedFrom c (applyRecommendations c' (generateRecommendations this c' metrics)).
Proof.
  unfold tunedFrom.
  intros (H1 & H2 & H3 & H4 & H5 & H6 & H7 & H8 & H9 & H10 & H11 & Hmax & Hmul & Hre).
  cbn [applyRecommendations generateRecommendations playerCount ante
       dealerDrawAllowed dealerBustAllowed dealerWinsOnTie dealerAggression
       payoutStrategy playerRefillsOnWin houseRefillsOnEmpty autoRefillThreshold
       bonusPayoutThreshold tubes bustPenaltyMultiplier refillAmount
       rec_bustPenaltyMultiplier rec_tubes rec_refillAmount].
  do 11 (split; [assumption |]).
  split; [| split].
  - intros k. destruct (gtb (avgDrainOf metrics) 0.3); cbn [orDefault].
    + rewrite adjusted_tube.
      destruct (gtb (tubeAt k (tubeDrainRates metrics)) 0.3); cbn [tube_max];
        apply Hmax.
    + apply Hmax.
  - destruct (gtb (Math_abs (targetEdge (objective this) - houseEdge metrics)) 0.01);
      cbn [orDefault]; [| exact Hmul].
    right. unfold Math_max, Math_min. split.
    + apply Q.le_max_l.
    + apply Q.max_lub; [lra |].
      eapply Qle_trans; [apply Q.le_min_l | lra].
  - destruct (gtb (avgDrainOf metrics) 0.4); cbn [orDefault]; [| exact Hre].
    right. unfold Math_min. apply Q.le_min_l.
Qed.

Section OptimizeFacts.

Variable Host : Type.
Variable toFixed : number -> nat -> string.

(** The loop variables stay consistent: the best score is the score of
    the best metrics, and both configurations are tuned from [c]. *)
Definition loopInvariant (this : AIBalancingEngine) (c : EngineConfig)
    (st : OptimizeState) : Prop :=
  tunedFrom c (bestConfig st)
  /\ tunedFrom c (loop_config st)
  /\ bestScore st = option_map (calculateScore this) (bestMetrics st).

Lemma trackBest_spec (this : AIBalancingEngine) (c : EngineConfig)
    (metrics : SimulationMetrics) (st : OptimizeState) :
  loopInvariant this c st ->
  loopInvariant this c (trackBest this metrics st)
  /\ loop_config (trackBest this metrics st) = loop_config st
  /\ loop_iterations (trackBest this metrics st) = loop_iterations st + 1
  /\ exists s', bestScore (trackBest this metrics st) = Some s'
                /\ s' <= calculateScore this metrics
                /\ forall s, bestScore st = Some s -> s' <= s.
Proof.
  intros (Hbest & Hcur & Hscore). unfold trackBest, loopInvariant.
  cbn [bestScore bestConfig bestMetrics loop_config loop_iterations].
  destruct (bestScore st) as [best |] eqn:Hb.
  - destruct (ltb (calculateScore this metrics) best) eqn:Hlt.
    + apply ltb_true in Hlt.
      split; [split; [exact Hcur | split; [exact Hcur | reflexivity]] |].
      split; [reflexivity |]. split; [reflexivity |].
      exists (calculateScore this metrics).
      split; [reflexivity |]. split; [lra |].
      intros s [= <-]. lra.
    + apply ltb_false in Hlt.
      split; [split; [exact Hbest | split; [exact Hcur | exact Hscore]] |].
      split; [reflexivity |]. split; [reflexivity |].
      exists best.
      split; [reflexivity |]. split; [exact Hlt |].
      intros s [= <-]. lra.
  - split; [split; [exact Hcur | split; [exact Hcur | reflexivity]] |].
    split; [reflexivity |]. split; [reflexivity |].
    exists (calculateScore this metrics).
    split; [reflexivity |]. split; [lra |].
    intros s [=].
Qed.

Lemma inject_succ (n : nat) :
  inject_Z (Z.of_nat (S n)) == inject_Z (Z.of_nat n) + 1.
Proof. rewrite Nat2Z.inj_succ. unfold Z.succ. now rewrite inject_Z_plus. Qed.

Lemma optimizeLoop_spec (this : AIBalancingEngine) (simulationFn : SimulationFn Host)
    (c : EngineConfig) (passes : nat) :
  forall (st : OptimizeState) (world : World Host) (warned : list Exploit),
    loopInvariant this c st ->
    let st' := fst (fst (optimizeLoop passes this simulationFn st world warned)) in
    loopInvariant this c st'
    /\ (exists n, (n <= passes)%nat /\ (passes <> O -> n <> O)
                  /\ loop_iterations st' == loop_iterations st + inject_Z (Z.of_nat n))
    /\ (forall s, bestScore st = Some s ->
                  exists s', bestScore st' = Some s' /\ s' <= s)
    /\ (passes <> O ->
        exists s', bestScore st' = Some s'
                   /\ s' <= calculateScore this
                              (fst (simulationFn (loop_config st) 20000 world))).
Proof.
  induction passes as [| passes IH]; intros st world warned Hinv.
  - cbn [optimizeLoop fst]. split; [exact Hinv |]. split; [| split].
    + exists O. split; [lia |]. split; [tauto |].
      change (inject_Z (Z.of_nat 0)) with 0. lra.
    + intros s Hs. exists s. split; [exact Hs | lra].
    + intros Hne. now contradiction Hne.
  - cbn [optimizeLoop].
    destruct (simulationFn (loop_config st) 20000 world) as [metrics world1] eqn:Hsim.
    cbn [fst].
    destruct (trackBest_spec metrics Hinv)
      as (Hinv1 & Hcfg1 & Hit1 & s1 & Hs1 & Hle1 & Hmono1).
    destruct (isOptimal this metrics) eqn:Hopt.
    + cbn [fst]. split; [exact Hinv1 |]. split; [| split].
      * exists 1%nat. split; [lia |]. split; [lia |].
        rewrite Hit1. change (inject_Z (Z.of_nat 1)) with 1. lra.
      * intros s Hs. exists s1. split; [exact Hs1 | now apply Hmono1].
      * intros _. exists s1. split; [exact Hs1 | exact Hle1].
    + destruct (mitigateExploits this (exploitableHTs metrics) (fst world1))
        as [registry' lines].
      set (st2 := set_loop_config
                    (applyRecommendations (loop_config st)
                       (generateRecommendations this (loop_config st) metrics))
                    (trackBest this metrics st)).
      assert (Hinv2 : loopInvariant this c st2).
      { destruct Hinv1 as (Hb & Hc & Hsc). destruct Hinv as (_ & Hc0 & _).
        unfold loopInvariant, st2.
        cbn [set_loop_config bestConfig loop_config bestScore bestMetrics].
        split; [exact Hb | split; [| exact Hsc]].
        now apply tunedFrom_step. }
      destruct (IH st2 (registry', snd world1) (warned ++ lines) Hinv2)
        as (Hinv' & (n & Hn & _ & Hit) & Hmono & _).
      split; [exact Hinv' |]. split; [| split].
      * exists (S n). split; [lia |]. split; [lia |].
        rewrite Hit, inject_succ. unfold st2.
        cbn [set_loop_config loop_iterations]. rewrite Hit1. lra.
      * intros s Hs. destruct (Hmono s1 Hs1) as (s' & Hs' & Hle').
        exists s'. split; [exact Hs' |].
        apply Qle_trans with s1; [exact Hle' | now apply Hmono1].
      * intros _. destruct (Hmono s1 Hs1) as (s' & Hs' & Hle').
        exists s'. split; [exact Hs' |].
        apply Qle_trans with s1; [exact Hle' | exact Hle1].
Qed.

Lemma loopCount_constructed (o : PartialObjective) :
  loopCount (maxIterations (new_AIBalancingEngine o)) = 100%nat.
Proof. reflexivity. Qed.

Lemma optimizeLoop_stops (this : AIBalancingEngine) (simulationFn : SimulationFn Host)
    (passes : nat) (st : OptimizeState) (world : World Host) (warned : list Exploit) :
  isOptimal this (fst (simulationFn (loop_config st) 20000 world)) = true ->
  optimizeLoop (S passes) this simulationFn st world warned =
  (trackBest this (fst (simulationFn (loop_config st) 20000 world)) st,
   snd (simulationFn (loop_config st) 20000 world), warned).
Proof.
  intros Hopt. cbn [optimizeLoop].
  destruct (simulationFn (loop_config st) 20000 world) as [metrics world1].
  cbn [fst snd] in *. now rewrite Hopt.
Qed.

(** X29.  For an engine made by the constructor, [optimize] runs between
    1 and 100 passes; the score it returns is the score of the metrics it
    returns and is not above the score of the first simulation, which is
    run on the current configuration; the recommended configuration
    differs from the current one at most in the bust penalty multiplier
    (within [[0.5, 2]] once changed), the refill amount (at most 5 once
    changed) and the tubes' initial balances.  When the first simulation
    is already optimal, the loop stops after one pass: the current
    configuration is returned, no rule is disabled and the simulation has
    run once. *)
Theorem optimize_result (o : PartialObjective) (currentConfig : EngineConfig)
    (simulationFn : SimulationFn Host) (world : World Host) :
  let this := new_AIBalancingEngine o in
  let result := fst (fst (optimize toFixed this currentConfig simulationFn world)) in
  let first := simulationFn currentConfig 20000 world in
  score result = Some (calculateScore this (result_metrics result))
  /\ calculateScore this (result_metrics result) <= calculateScore this (fst first)
  /\ (exists n, (1 <= n <= 100)%nat /\ iterations result == inject_Z (Z.of_nat n))
  /\ result_isOptimal result = isOptimal this (result_metrics result)
  /\ issues result = identifyIssues toFixed this (result_metrics result)
  /\ tunedFrom currentConfig (recommendedConfig result)
  /\ (isOptimal this (fst first) = true ->
      optimize toFixed this currentConfig simulationFn world =
      ({| score := Some (calculateScore this (fst first));
          result_isOptimal := true;
          result_metrics := fst first;
          recommendedConfig := currentConfig;
          issues := identifyIssues toFixed this (fst first);
          iterations := 1 |},
       snd first, [])).
Proof.
  intros this result first.
  set (st0 := {| bestScore := None; bestConfig := currentConfig;
                 bestMetrics := None; loop_iterations := 0;
                 loop_config := currentConfig |}).
  assert (Hinv0 : loopInvariant this currentConfig st0).
  { unfold loopInvariant, st0. cbn [bestConfig loop_config bestScore bestMetrics].
    split; [apply tunedFrom_refl | split; [apply tunedFrom_refl | reflexivity]]. }
  pose proof (@optimizeLoop_spec this simulationFn currentConfig 100 st0 world []
                Hinv0) as Hloop.
  cbv zeta in Hloop.
  split; [| split; [| split; [| split; [| split; [| split]]]]].
  7: {
    intros Hfirst. unfold optimize.
    change (loopCount (maxIterations this)) with 100%nat. fold st0.
    rewrite (@optimizeLoop_stops this simulationFn 99 st0 world [] Hfirst).
    change (loop_config st0) with currentConfig. fold first.
    unfold trackBest, st0.
    cbn [bestScore bestMetrics bestConfig loop_config loop_iterations].
    rewrite Hfirst. reflexivity. }
  all: subst result; unfold optimize;
    change (loopCount (maxIterations this)) with 100%nat; fold st0;
    destruct (optimizeLoop 100 this simulationFn st0 world [])
      as [[st world1] warned];
    cbn [fst] in Hloop;
    destruct Hloop as ((Hb & _ & Hsc) & (n & Hn & Hn0 & Hit) & _ & Hfirst);
    destruct (Hfirst ltac:(discriminate)) as (s' & Hs' & Hle');
    rewrite Hs' in Hsc;
    destruct (bestMetrics st) as [m |] eqn:Hm; [| discriminate];
    cbn [option_map] in Hsc; injection Hsc as Hsc;
    cbn [fst score result_metrics iterations result_isOptimal issues
         recommendedConfig].
  - rewrite Hs', Hsc. reflexivity.
  - rewrite <- Hsc. exact Hle'.
  - exists n. split; [split; [| exact Hn] |].
    + assert (n <> O) by (apply Hn0; discriminate). lia.
    + rewrite Hit. unfold st0. cbn [loop_iterations]. lra.
  - reflexivity.
  - reflexivity.
  - exact Hb.
Qed.

End OptimizeFacts.

(** ** Monte Carlo *)

Definition ascending (a b : number) : number := a - b.

Lemma ascending_total (a b : number) :
  before ascending a b \/ before ascending b a.
Proof.
  unfold before, ascending.
  destruct (Qlt_le_dec a b); [left | right]; lra.
Qed.

Lemma ascending_trans (a b c : number) :
  before ascending a b -> before ascending b c -> before ascending a c.
Proof. unfold before, ascending. intros. lra. Qed.

(** The first element of a sorted array stands before every element. *)
Lemma sorted_first (l : list number) (w : number) :
  StronglySorted (before ascending) l -> List.hd_error l = Some w ->
  In w l /\ forall e, In e l -> w <= e.
Proof.
  intros Hs Hhd. destruct l as [| a l]; [discriminate |].
  injection Hhd as ->. split; [now left |].
  inversion Hs as [| ? ? _ Hall]; subst.
  rewrite Forall_forall in Hall.
  intros e [<- | He]; [lra |].
  specialize (Hall e He). unfold before, ascending in Hall. lra.
Qed.

(** The last element of a sorted array stands after every element. *)
Lemma sorted_last (l : list number) (b : number) :
  StronglySorted (before ascending) l -> List.hd_error (List.rev l) = Some b ->
  In b l /\ forall e, In e l -> e <= b.
Proof.
  intros Hs. induction Hs as [| a l Hs IH Hall]; [discriminate |].
  cbn [List.rev]. intros Hhd.
  destruct (List.rev l) as [| c r] eqn:Hrev.
  - assert (l = []) as ->.
    { apply (f_equal (@List.rev number)) in Hrev.
      now rewrite rev_involutive in Hrev. }
    injection Hhd as ->. split; [now left |].
    intros e [<- | []]. lra.
  - cbn [app List.hd_error] in Hhd.
    destruct (IH Hhd) as [Hin Hle]. split; [now right |].
    intros e [<- | He]; [| now apply Hle].
    rewrite Forall_forall in Hall. specialize (Hall b Hin).
    unfold before, ascending in Hall. lra.
Qed.

(** A [reduce] that adds one term per element, bounded below termwise. *)
Lemma reduce_lower (f : number -> number) (lo : number) (l : list number) :
  (forall e, In e l -> lo <= f e) ->
  forall acc,
    acc + arrayLength l * lo <= fold_left (fun sum e => sum + f e) l acc.
Proof.
  unfold arrayLength.
  induction l as [| x l IH]; intros Hf acc.
  - cbn [fold_left List.length]. change (inject_Z (Z.of_nat 0)) with 0. lra.
  - cbn [fold_left List.length].
    assert (Hx : lo <= f x) by (apply Hf; now left).
    assert (Hl : forall e, In e l -> lo <= f e)
      by (intros e He; apply Hf; now right).
    pose proof (IH Hl (acc + f x)) as H1.
    rewrite Nat2Z.inj_succ. unfold Z.succ. rewrite inject_Z_plus.
    change (inject_Z 1) with 1.
    eapply Qle_trans; [| exact H1]. lra.
Qed.

Lemma arrayLength_pos (A : Type) (l : list A) : l <> [] -> 0 < arrayLength l.
Proof.
  intros Hne. destruct l as [| x l]; [congruence |].
  unfold arrayLength. change 0 with (inject_Z 0). rewrite <- Zlt_Qlt.
  cbn [List.length]. lia.
Qed.

Lemma square_nonneg (x : number) : 0 <= x ^ 2.
Proof. change (x ^ 2) with (x * x). nra. Qed.

Lemma loopCount_pos (n : number) : 0 < n -> loopCount n <> O.
Proof.
  intros Hn. unfold loopCount.
  assert (0 < Qceiling n)%Z; [| lia].
  rewrite Zlt_Qlt. eapply Qlt_le_trans; [exact Hn | apply Qle_ceiling].
Qed.

Section MonteCarloFacts.

Variable Host : Type.
Variable Math_sqrt : number -> number.

Lemma collectEdges_length (simulationFn : SimulationFn Host) (config : EngineConfig)
    (roundsPerRun : number) (passes : nat) :
  forall world,
    List.length (fst (collectEdges passes simulationFn config roundsPerRun world))
    = passes.
Proof.
  induction passes as [| passes IH]; intros world; [reflexivity |].
  cbn [collectEdges].
  destruct (simulationFn config roundsPerRun world) as [metrics world1].
  specialize (IH world1).
  destruct (collectEdges passes simulationFn config roundsPerRun world1)
    as [edges world2].
  cbn [fst List.length] in *. now rewrite IH.
Qed.

Lemma summarizeEdges_bounds (runs : number) (edges : list number) :
  edges <> [] ->
  exists worst best,
    worstCase (summarizeEdges Math_sqrt runs edges) = Some worst
    /\ bestCase (summarizeEdges Math_sqrt runs edges) = Some best
    /\ In worst edges /\ In best edges
    /\ (forall e, In e edges -> worst <= e <= best)
    /\ 0 <= edgeVariance (summarizeEdges Math_sqrt runs edges).
Proof.
  intros Hne.
  pose proof (Array_sort_sorted ascending_total ascending_trans edges) as Hsorted.
  pose proof (Array_sort_perm ascending edges) as Hperm.
  pose proof (arrayLength_pos Hne) as Hlen.
  set (sorted := Array_sort ascending edges) in *.
  set (mean := fold_left Qplus edges 0 / arrayLength edges).
  assert (Hw : worstCase (summarizeEdges Math_sqrt runs edges)
               = List.hd_error sorted) by reflexivity.
  assert (Hb : bestCase (summarizeEdges Math_sqrt runs edges)
               = List.hd_error (List.rev sorted)) by reflexivity.
  assert (Hv : edgeVariance (summarizeEdges Math_sqrt runs edges)
               = fold_left (fun sum e => sum + (e - mean) ^ 2) edges 0
                 / arrayLength edges) by reflexivity.
  rewrite Hw, Hb, Hv. clear Hw Hb Hv.
  assert (Hsne : sorted <> []).
  { intros Hnil. rewrite Hnil in Hperm.
    apply Permutation_nil in Hperm. contradiction. }
  destruct (List.hd_error sorted) as [worst |] eqn:Hworst;
    [| destruct sorted; [congruence | discriminate]].
  destruct (List.hd_error (List.rev sorted)) as [best |] eqn:Hbest.
  2: { destruct (List.rev sorted) eqn:Hrev; [| discriminate].
       apply (f_equal (@List.rev number)) in Hrev.
       rewrite rev_involutive in Hrev. contradiction. }
  destruct (sorted_first Hsorted Hworst) as [Hinw Hlow].
  destruct (sorted_last Hsorted Hbest) as [Hinb Hhigh].
  assert (Hin : forall e, In e edges <-> In e sorted).
  { intros e. split; apply Permutation_in; [now symmetry | exact Hperm]. }
  exists worst, best.
  split; [reflexivity |]. split; [reflexivity |].
  split; [now apply Hin |]. split; [now apply Hin |]. split.
  - intros e He. apply Hin in He. split; [now apply Hlow | now apply Hhigh].
  - apply Qle_shift_div_l; [exact Hlen |].
    apply Qle_trans with (0 + arrayLength edges * 0); [lra |].
    apply (@reduce_lower (fun e => (e - mean) ^ 2) 0 edges).
    intros e _. apply square_nonneg.
Qed.

(** X30.  For a positive number of runs, [runMonteCarlo] calls the
    simulation [ceil(runs)] times; the worst and the best case are edges
    that were measured, every measured edge lies between them, and the
    variance is not negative. *)
Theorem runMonteCarlo_summary (simulationFn : SimulationFn Host)
    (config : EngineConfig) (runs roundsPerRun : option number)
    (world : World Host) :
  0 < orDefault runs 100 ->
  let edges :=
    fst (collectEdges (loopCount (orDefault runs 100)) simulationFn config
           (orDefault roundsPerRun 20000) world) in
  let result :=
    fst (runMonteCarlo Math_sqrt simulationFn config runs roundsPerRun world) in
  List.length edges = loopCount (orDefault runs 100)
  /\ exists worst best,
       worstCase result = Some worst
       /\ bestCase result = Some best
       /\ In worst edges /\ In best edges
       /\ (forall e, In e edges -> worst <= e <= best)
       /\ 0 <= edgeVariance result.
Proof.
  intros Hruns edges result.
  assert (Hlen : List.length edges = loopCount (orDefault runs 100))
    by apply collectEdges_length.
  split; [exact Hlen |].
  assert (Hne : edges <> []).
  { intros Hnil. rewrite Hnil in Hlen. cbn [List.length] in Hlen.
    symmetry in Hlen. now apply loopCount_pos in Hlen. }
  subst result. unfold runMonteCarlo. fold edges.
  destruct (collectEdges (loopCount (orDefault runs 100)) simulationFn config
              (orDefault roundsPerRun 20000) world) as [es world'] eqn:Hcollect.
  cbn [fst] in *. subst edges.
  now apply summarizeEdges_bounds.
Qed.

End MonteCarloFacts.

(** A simulation that measures the edges 0.04, 0.06, 0.05, 0.05, ... in
    turn, counting its calls in its own state. *)
Definition steadyMetrics (edge : number) : SimulationMetrics :=
  {| houseEdge := edge; volatilityIndex := 10;
     tubeDrainRates := {| atST := 0; atFL := 0; atFH := 0; atSF := 0; atRF := 0 |};
     exploitableHTs := []; playerReturnRate := 1 - edge; bustRate := 0;
     avgRoundDelta := 0 |}.

Definition countingSimulation : SimulationFn nat :=
  fun _ _ world =>
    (steadyMetrics (match snd world with
                    | O => 0.04
                    | S O => 0.06
                    | _ => 0.05
                    end),
     (fst world, S (snd world))).

Lemma runMonteCarlo_summary_witness :
  0 < orDefault (Some 3) 100
  /\ exists worst best,
       worstCase (fst (runMonteCarlo (fun x => x) countingSimulation
                         DEFAULT_ENGINE_CONFIG (Some 3) None (emptyRegistry, O)))
       = Some worst
       /\ bestCase (fst (runMonteCarlo (fun x => x) countingSimulation
                           DEFAULT_ENGINE_CONFIG (Some 3) None (emptyRegistry, O)))
          = Some best
       /\ In worst [0.04; 0.06; 0.05] /\ In best [0.04; 0.06; 0.05]
       /\ forall e, In e [0.04; 0.06; 0.05] -> worst <= e <= best.
Proof.
  split; [reflexivity |].
  destruct (@runMonteCarlo_summary nat (fun x => x) countingSimulation
              DEFAULT_ENGINE_CONFIG (Some 3) None (emptyRegistry, O)
              ltac:(reflexivity))
    as (_ & worst & best & Hworst & Hbest & Hinw & Hinb & Hrange & _).
  exists worst, best.
  split; [exact Hworst |]. split; [exact Hbest |].
  split; [exact Hinw |]. split; [exact Hinb | exact Hrange].
Defined.

(** Three runs measuring 0.04, 0.06 and 0.05: the worst case is 0.04, the
    best 0.06, and the simulation has run three times. *)
Example runMonteCarlo_three_runs :
  let out := runMonteCarlo (fun x => x) countingSimulation DEFAULT_ENGINE_CONFIG
               (Some 3) None (emptyRegistry, O) in
  worstCase (fst out) = Some 0.04
  /\ bestCase (fst out) = Some 0.06
  /\ snd (snd out) = 3%nat.
Proof. repeat split. Qed.
